(** * Symbol obfuscator: hasher, mangled-name codec, rename driver

    A shallow embedding of the symbol renaming engine of
    [symbol-obfuscator] (crypto_hasher.cpp, cpp_mangler.cpp,
    c_obfuscator.cpp, SymbolObfuscationPass.cpp and the command-line tool)
    and the properties of its specification, stated and proved on it.

    Conventions.
    - [std::string] is [string]; [+:+] is concatenation.
    - [size_t] and [int] values that only count are [nat]; 64-bit words are
      [Z] with the wrap-around written out ([u64]).
    - [std::set<std::string>] is [gset string], [std::map<std::string,
      std::string>] is [gmap string string]; a loop over a map goes
      through [StdMap.entries], the entries in the order of their keys.
    - C++ exceptions are the [Throw] outcome of a state-and-exception monad;
      [while] loops that the source bounds by data are [Fixpoint]s on a fuel
      that is shown to suffice. *)

From Stdlib Require Import ZArith List Bool Lia DecimalString Sorting.Permutation Sorting.Sorted.
From Stdlib Require Import Strings.Ascii Strings.String Strings.Byte.
From Stdlib Require DecimalPos DecimalN.
From stdpp Require Import gmap strings list fin_maps.

Local Open Scope Z_scope.

(* ===================================================================== *)
(** ** Strings: the part of [std::string] and [<cctype>] the code uses   *)
(* ===================================================================== *)

Module Str.

(** [std::isdigit], [std::isalnum] in the "C" locale. *)
Definition isdigit (c : ascii) : bool :=
  let n := nat_of_ascii c in (48 <=? n)%nat && (n <=? 57)%nat.

Definition isupper (c : ascii) : bool :=
  let n := nat_of_ascii c in (65 <=? n)%nat && (n <=? 90)%nat.

Definition islower (c : ascii) : bool :=
  let n := nat_of_ascii c in (97 <=? n)%nat && (n <=? 122)%nat.

Definition isalpha (c : ascii) : bool := isupper c || islower c.

Definition isalnum (c : ascii) : bool := isalpha c || isdigit c.

(** [c - '0'] for a digit character. *)
Definition digit_value (c : ascii) : nat := (nat_of_ascii c - 48)%nat.

(** [s.substr(pos, len)] for [pos <= s.length()]; past the end the
    result is cut short, as in C++. *)
Definition substr (s : string) (pos len : nat) : string :=
  String.substring pos len s.

(** [s.substr(pos)]: the rest of the string from [pos]. *)
Definition substr_from (s : string) (pos : nat) : string :=
  String.substring pos (String.length s - pos) s.

(** [s.substr(pos, len)] with [size_t] arguments, [pos <= s.length()]:
    the characters from [pos] up to [min(pos + len, s.length())]. *)
Definition substr_z (s : string) (pos len : Z) : string :=
  let size := Z.of_nat (String.length s) in
  String.substring (Z.to_nat pos) (Z.to_nat (Z.min len (size - pos))) s.

(** [s[pos]]. *)
Definition at_ (s : string) (pos : nat) : option ascii := String.get pos s.

Definition empty (s : string) : bool :=
  match s with EmptyString => true | _ => false end.

(** [std::to_string] on an [int] or a [size_t]. *)
Definition to_string (z : Z) : string := NilZero.string_of_int (Z.to_int z).

Definition to_string_nat (n : nat) : string := to_string (Z.of_nat n).

(** Does every character satisfy [p]? *)
Fixpoint all (p : ascii -> bool) (s : string) : bool :=
  match s with
  | EmptyString => true
  | String c s' => p c && all p s'
  end.

End Str.

(* ===================================================================== *)
(** ** Outcomes and the state-and-exception monad                        *)
(* ===================================================================== *)

(** The exceptions the core raises. [json_logic_error] is jsoncpp's
    [Json::LogicError]: a [std::exception] that is not a
    [std::runtime_error]. *)
Inductive exn : Type :=
| runtime_error (what : string)
| out_of_range (what : string)
| json_logic_error (what : string).

(** What a call does: it returns, it throws, or it does not come back
    within the fuel the model gives its loops. *)
Inductive outcome (A : Type) : Type :=
| Ok (a : A)
| Throw (e : exn)
| Diverge.
Arguments Ok {A} a.
Arguments Throw {A} e.
Arguments Diverge {A}.

(** Sequencing of calls that have no state. *)
Definition and_then {A B} (o : outcome A) (k : A -> outcome B) : outcome B :=
  match o with
  | Ok a => k a
  | Throw e => Throw e
  | Diverge => Diverge
  end.

(** A method of an object with state [S]: it returns or throws, and leaves
    the object in a new state either way. *)
Definition M (S A : Type) : Type := S -> outcome A * S.

Definition ret {S A} (a : A) : M S A := fun s => (Ok a, s).

Definition bind {S A B} (m : M S A) (k : A -> M S B) : M S B :=
  fun s => match m s with
           | (Ok a, s') => k a s'
           | (Throw e, s') => (Throw e, s')
           | (Diverge, s') => (Diverge, s')
           end.

Definition throw {S A} (e : exn) : M S A := fun s => (Throw e, s).
Definition get {S} : M S S := fun s => (Ok s, s).
Definition gets {S A} (f : S -> A) : M S A := fun s => (Ok (f s), s).
Definition modify {S} (f : S -> S) : M S unit := fun s => (Ok tt, f s).

Notation "'let!' x ':=' c1 'in' c2" := (bind c1 (fun x => c2))
  (at level 10, x name, c1 at level 100, c2 at level 200,
   format "'[v' 'let!'  x  ':='  c1  'in' '/' c2 ']'").

(* ===================================================================== *)
(** ** [std::map] with string keys: the order of a walk                  *)
(* ===================================================================== *)

Module StdMap.

(** [std::less<std::string>]: byte by byte, a proper prefix first. *)
Definition less (a b : string) : bool := String.ltb a b.

(** The entries in the order of their keys, by insertion. *)
Fixpoint insert {A} (x : string * A) (l : list (string * A)) : list (string * A) :=
  match l with
  | [] => [x]
  | y :: l' => if less (fst y) (fst x) then y :: insert x l' else x :: l
  end.

Definition sort {A} (l : list (string * A)) : list (string * A) :=
  fold_right insert [] l.

(** What a range-for loop over the map visits: the entries, in the
    order of their keys. *)
Definition entries {A} (m : gmap string A) : list (string * A) :=
  sort (map_to_list m).

End StdMap.

(* ===================================================================== *)
(** ** crypto_hasher.cpp                                                 *)
(* ===================================================================== *)

(** *** SipHash-2-4, as [class SipHasher] writes it *)

Module SipHasher.

Definition u64 (x : Z) : Z := x mod 2 ^ 64.

(** [(x << b) | (x >> (64 - b))] on [uint64_t]. *)
Definition rotl (x : Z) (b : Z) : Z :=
  Z.lor (u64 (Z.shiftl x b)) (Z.shiftr x (64 - b)).

Record state : Type := mk_state { v0 : Z; v1 : Z; v2 : Z; v3 : Z }.

Definition sipround (s : state) : state :=
  let '(mk_state v0 v1 v2 v3) := s in
  (* v0 += v1; v1 = rotl(v1, 13); v1 ^= v0; v0 = rotl(v0, 32); *)
  let v0 := u64 (v0 + v1) in let v1 := rotl v1 13 in
  let v1 := Z.lxor v1 v0 in let v0 := rotl v0 32 in
  (* v2 += v3; v3 = rotl(v3, 16); v3 ^= v2; *)
  let v2 := u64 (v2 + v3) in let v3 := rotl v3 16 in
  let v3 := Z.lxor v3 v2 in
  (* v0 += v3; v3 = rotl(v3, 21); v3 ^= v0; *)
  let v0 := u64 (v0 + v3) in let v3 := rotl v3 21 in
  let v3 := Z.lxor v3 v0 in
  (* v2 += v1; v1 = rotl(v1, 17); v1 ^= v2; v2 = rotl(v2, 32); *)
  let v2 := u64 (v2 + v1) in let v1 := rotl v1 17 in
  let v1 := Z.lxor v1 v2 in let v2 := rotl v2 32 in
  mk_state v0 v1 v2 v3.

(** The bytes of [data.c_str()], as [uint8_t]. *)
Definition bytes_of (data : string) : list Z :=
  map (fun c => Z.of_nat (nat_of_ascii c)) (list_ascii_of_string data).

(** [m |= in[i] << (i * 8)] for [i = from, from + 1, ...]. *)
Fixpoint pack (i : Z) (bs : list Z) (m : Z) : Z :=
  match bs with
  | [] => m
  | b :: bs' => pack (i + 1) bs' (Z.lor m (u64 (Z.shiftl b (i * 8))))
  end.

(** One message word: [v3 ^= m; sipround; sipround; v0 ^= m]. *)
Definition compress (m : Z) (s : state) : state :=
  let s := mk_state (v0 s) (v1 s) (v2 s) (Z.lxor (v3 s) m) in
  let s := sipround (sipround s) in
  mk_state (Z.lxor (v0 s) m) (v1 s) (v2 s) (v3 s).

(** The loop over the 8-byte blocks: [for (; in != end; in += 8)]. It
    returns the state and the [left] bytes that remain. *)
Fixpoint blocks (n : nat) (bs : list Z) (s : state) : state * list Z :=
  match n with
  | O => (s, bs)
  | S n' => blocks n' (skipn 8 bs) (compress (pack 0 (firstn 8 bs) 0) s)
  end.

Definition k0_default : Z := 0x0706050403020100.
Definition k1_default : Z := 0x0f0e0d0c0b0a0908.

Definition hash (data : string) (k0 k1 : Z) : Z :=
  let s := mk_state (Z.lxor 0x736f6d6570736575 k0)
                    (Z.lxor 0x646f72616e646f6d k1)
                    (Z.lxor 0x6c7967656e657261 k0)
                    (Z.lxor 0x7465646279746573 k1) in
  let bs := bytes_of data in
  let len := length bs in
  let '(s, tail) := blocks (len / 8)%nat bs s in
  (* m = len << 56, then the remaining bytes *)
  let m := pack 0 tail (u64 (Z.shiftl (Z.of_nat len) 56)) in
  let s := compress m s in
  (* finalization *)
  let s := mk_state (v0 s) (v1 s) (Z.lxor (v2 s) 0xff) (v3 s) in
  let s := sipround (sipround (sipround (sipround s))) in
  Z.lxor (Z.lxor (Z.lxor (v0 s) (v1 s)) (v2 s)) (v3 s).

End SipHasher.

(** *** The digests taken from OpenSSL

    [SHA256] and [EVP_blake2b512] are library code; the hasher only relies
    on the length of what they return. *)
Record OpenSSL : Type := {
  SHA256 : string -> list byte;
  SHA256_DIGEST_LENGTH : forall input, length (SHA256 input) = 32%nat;
  EVP_blake2b512 : string -> list byte;
  EVP_blake2b512_size : forall input, length (EVP_blake2b512 input) = 64%nat
}.

Inductive HashAlgorithm : Type := SHA256_alg | BLAKE2B | SIPHASH.
Inductive PrefixStyle : Type := NONE | TYPED | UNDERSCORE.

Record HashConfig : Type := {
  algorithm : HashAlgorithm;
  prefix_style : PrefixStyle;
  hash_length : nat;
  global_salt : string;
  deterministic : bool
}.

(** [HashConfig()]: the defaults of the struct. *)
Definition HashConfig_default : HashConfig :=
  {| algorithm := SHA256_alg; prefix_style := TYPED; hash_length := 12;
     global_salt := ""; deterministic := true |}.

Record CryptoHasher : Type := {
  config_ : HashConfig;
  used_hashes_ : gset string
}.

Module Hasher.

Definition new (config : HashConfig) : CryptoHasher :=
  {| config_ := config; used_hashes_ := ∅ |}.

Definition hex_digit (n : nat) : ascii :=
  match String.get n "0123456789abcdef" with
  | Some c => c
  | None => "0"%char
  end.

(** [ss << std::hex << std::setfill('0') << std::setw(2) << data[i]]. *)
Fixpoint hexEncode (data : list byte) : string :=
  match data with
  | [] => ""
  | b :: data' =>
      let n := N.to_nat (Byte.to_N b) in
      String (hex_digit (n / 16)) (String (hex_digit (n mod 16)) (hexEncode data'))
  end.

(** The [digits] low hexadecimal digits of [x], most significant first. *)
Fixpoint hex_fixed (digits : nat) (x : Z) : string :=
  match digits with
  | O => ""
  | S d => hex_fixed d (x / 16) +:+ String (hex_digit (Z.to_nat (x mod 16))) ""
  end.

Definition setSalt (salt : string) (h : CryptoHasher) : CryptoHasher :=
  {| config_ := {| algorithm := algorithm (config_ h);
                   prefix_style := prefix_style (config_ h);
                   hash_length := hash_length (config_ h);
                   global_salt := salt;
                   deterministic := deterministic (config_ h) |};
     used_hashes_ := used_hashes_ h |}.

Definition getSalt (h : CryptoHasher) : string := global_salt (config_ h).
Definition getAlgorithm (h : CryptoHasher) : HashAlgorithm := algorithm (config_ h).

Definition truncateHash (full_hash : string) (length : nat) : string :=
  if (String.length full_hash <=? length)%nat then full_hash
  else Str.substr full_hash 0 length.

Section WithOpenSSL.
Variable ssl : OpenSSL.

Definition sha256Hash (input : string) : string := hexEncode (SHA256 ssl input).

Definition blake2bHash (input : string) (output_len : nat) : string :=
  hexEncode (EVP_blake2b512 ssl input).

Definition sipHash (cfg : HashConfig) (input : string) : string :=
  let '(k0, k1) :=
    if Str.empty (global_salt cfg)
    then (SipHasher.k0_default, SipHasher.k1_default)
    else (SipHasher.hash (global_salt cfg +:+ "k0")
                         SipHasher.k0_default SipHasher.k1_default,
          SipHasher.hash (global_salt cfg +:+ "k1")
                         SipHasher.k0_default SipHasher.k1_default) in
  hex_fixed 16 (SipHasher.hash input k0 k1).

Definition generateHash (h : CryptoHasher) (original_name context_salt : string)
  : string :=
  let cfg := config_ h in
  let input := global_salt cfg +:+ context_salt +:+ original_name in
  let hash :=
    match algorithm cfg with
    | SHA256_alg => sha256Hash input
    | BLAKE2B => blake2bHash input (hash_length cfg)
    | SIPHASH => sipHash cfg input
    end in
  truncateHash hash (hash_length cfg).

Definition applyPrefix (h : CryptoHasher) (hash prefix : string) : string :=
  if negb (Str.empty prefix) then prefix +:+ hash
  else match prefix_style (config_ h) with
       | UNDERSCORE => "_" +:+ hash
       | NONE =>
           match hash with
           | String c _ => if Str.isdigit c then "s_" +:+ hash else hash
           | EmptyString => hash
           end
       | TYPED => hash
       end.

(** The identifier tried first, and the one tried for a counter. *)
Definition candidate (h : CryptoHasher) (name prefix : string) (counter : option Z)
  : string :=
  match counter with
  | None => applyPrefix h (generateHash h name "") prefix
  | Some c => applyPrefix h (generateHash h (name +:+ "_" +:+ Str.to_string c) "") prefix
  end.

Definition too_many_collisions (name : string) : exn :=
  runtime_error ("Too many hash collisions for: " +:+ name).

(** The [while] loop of [generateUniqueHash]. [None] is running out of
    fuel, which does not happen with [collision_fuel]: the loop leaves
    by its own bound first. *)
Fixpoint collision_loop (fuel : nat) (h : CryptoHasher) (name prefix : string)
    (used_hashes : gset string) (counter : Z) (full_name : string)
  : option (outcome string) :=
  if bool_decide (full_name ∈ used_hashes) || bool_decide (full_name ∈ used_hashes_ h)
  then
    match fuel with
    | O => None
    | S fuel' =>
        let full_name := candidate h name prefix (Some counter) in
        let counter := counter + 1 in
        if 10000 <? counter then Some (Throw (too_many_collisions name))
        else collision_loop fuel' h name prefix used_hashes counter full_name
    end
  else Some (Ok full_name).

Definition collision_fuel : nat := Z.to_nat 10001.

(** [generateUniqueHash(name, used_hashes, prefix)]: the caller's set
    is passed by reference and comes back with the result. *)
Definition generateUniqueHash (name : string) (used_hashes : gset string)
    (prefix : string) : M CryptoHasher (string * gset string) :=
  fun h =>
    match collision_loop collision_fuel h name prefix used_hashes 0
            (candidate h name prefix None) with
    | Some (Ok full_name) =>
        (Ok (full_name, {[full_name]} ∪ used_hashes),
         {| config_ := config_ h; used_hashes_ := {[full_name]} ∪ used_hashes_ h |})
    | Some (Throw e) => (Throw e, h)
    | Some Diverge | None => (Diverge, h)
    end.

Definition typed_prefix (h : CryptoHasher) (p : string) : string :=
  match prefix_style (config_ h) with TYPED => p | _ => "" end.

Definition with_temp_set (name prefix : string) : M CryptoHasher string :=
  let! r := generateUniqueHash name ∅ prefix in ret (fst r).

Definition hashFunction (name : string) : M CryptoHasher string :=
  fun h => with_temp_set name (typed_prefix h "f_") h.
Definition hashVariable (name : string) : M CryptoHasher string :=
  fun h => with_temp_set name (typed_prefix h "v_") h.
Definition hashClass (name : string) : M CryptoHasher string :=
  fun h => with_temp_set name (typed_prefix h "C_") h.
Definition hashNamespace (name : string) : M CryptoHasher string :=
  fun h => with_temp_set name (typed_prefix h "N_") h.

End WithOpenSSL.

End Hasher.

(** A provider that answers every request with zero bytes. It stands in
    for OpenSSL in runs whose configuration selects [SIPHASH], where no
    OpenSSL digest is called. *)
Definition zero_ssl : OpenSSL :=
  {| SHA256 := fun _ => repeat x00 32;
     SHA256_DIGEST_LENGTH := fun _ => repeat_length x00 32;
     EVP_blake2b512 := fun _ => repeat x00 64;
     EVP_blake2b512_size := fun _ => repeat_length x00 64 |}.

Definition siphash_config (style : PrefixStyle) (len : nat) (salt : string) : HashConfig :=
  {| algorithm := SIPHASH; prefix_style := style; hash_length := len;
     global_salt := salt; deterministic := true |}.

(* ===================================================================== *)
(** ** cpp_mangler.cpp                                                   *)
(* ===================================================================== *)

Record CppSymbolComponents : Type := {
  is_mangled : bool;
  prefix : string;
  has_namespace : bool;
  namespace_name : string;
  has_class : bool;
  class_name : string;
  method_name : string;
  template_params : list string;
  parameter_types : list string;
  is_const : bool;
  is_virtual : bool;
  is_static : bool;
  return_type : string;
  is_vtable : bool;
  is_typeinfo : bool;
  is_typeinfo_name : bool;
  is_constructor : bool;
  is_destructor : bool
}.

(** The member initializers of the struct. *)
Definition CppSymbolComponents_default : CppSymbolComponents :=
  {| is_mangled := false; prefix := ""; has_namespace := false;
     namespace_name := ""; has_class := false; class_name := "";
     method_name := ""; template_params := []; parameter_types := [];
     is_const := false; is_virtual := false; is_static := false;
     return_type := ""; is_vtable := false; is_typeinfo := false;
     is_typeinfo_name := false; is_constructor := false;
     is_destructor := false |}.

Module CppDemangler.

Definition isCppMangled (name : string) : bool :=
  (2 <? String.length name)%nat && String.eqb (Str.substr name 0 2) "_Z".

Definition isSpecialSymbol (name : string) : bool :=
  if (String.length name <? 4)%nat then false
  else let prefix := Str.substr name 0 4 in
       String.eqb prefix "_ZTV" || String.eqb prefix "_ZTI" || String.eqb prefix "_ZTS".

(** [while (pos < s.length() && std::isdigit(s[pos]))
       { len = len * 10 + (s[pos] - '0'); pos++; }]
    run on the characters from [pos] on; [len] is a [size_t]. *)
Fixpoint read_length (rest : string) (len pos : Z) : Z * Z :=
  match rest with
  | String c rest' =>
      if Str.isdigit c
      then read_length rest' (SipHasher.u64 (len * 10 + Z.of_nat (Str.digit_value c))) (pos + 1)
      else (len, pos)
  | EmptyString => (len, pos)
  end.

Definition set_is_mangled (b : bool) (c : CppSymbolComponents) :=
  {| is_mangled := b; prefix := prefix c; has_namespace := has_namespace c;
     namespace_name := namespace_name c; has_class := has_class c;
     class_name := class_name c; method_name := method_name c;
     template_params := template_params c; parameter_types := parameter_types c;
     is_const := is_const c; is_virtual := is_virtual c; is_static := is_static c;
     return_type := return_type c; is_vtable := is_vtable c;
     is_typeinfo := is_typeinfo c; is_typeinfo_name := is_typeinfo_name c;
     is_constructor := is_constructor c; is_destructor := is_destructor c |}.

Definition set_prefix (p : string) (c : CppSymbolComponents) :=
  {| is_mangled := is_mangled c; prefix := p; has_namespace := has_namespace c;
     namespace_name := namespace_name c; has_class := has_class c;
     class_name := class_name c; method_name := method_name c;
     template_params := template_params c; parameter_types := parameter_types c;
     is_const := is_const c; is_virtual := is_virtual c; is_static := is_static c;
     return_type := return_type c; is_vtable := is_vtable c;
     is_typeinfo := is_typeinfo c; is_typeinfo_name := is_typeinfo_name c;
     is_constructor := is_constructor c; is_destructor := is_destructor c |}.

Definition set_has_namespace (b : bool) (c : CppSymbolComponents) :=
  {| is_mangled := is_mangled c; prefix := prefix c; has_namespace := b;
     namespace_name := namespace_name c; has_class := has_class c;
     class_name := class_name c; method_name := method_name c;
     template_params := template_params c; parameter_types := parameter_types c;
     is_const := is_const c; is_virtual := is_virtual c; is_static := is_static c;
     return_type := return_type c; is_vtable := is_vtable c;
     is_typeinfo := is_typeinfo c; is_typeinfo_name := is_typeinfo_name c;
     is_constructor := is_constructor c; is_destructor := is_destructor c |}.

Definition set_namespace_name (n : string) (c : CppSymbolComponents) :=
  {| is_mangled := is_mangled c; prefix := prefix c; has_namespace := has_namespace c;
     namespace_name := n; has_class := has_class c;
     class_name := class_name c; method_name := method_name c;
     template_params := template_params c; parameter_types := parameter_types c;
     is_const := is_const c; is_virtual := is_virtual c; is_static := is_static c;
     return_type := return_type c; is_vtable := is_vtable c;
     is_typeinfo := is_typeinfo c; is_typeinfo_name := is_typeinfo_name c;
     is_constructor := is_constructor c; is_destructor := is_destructor c |}.

(** [class_name = component; has_class = true]. *)
Definition set_class (n : string) (c : CppSymbolComponents) :=
  {| is_mangled := is_mangled c; prefix := prefix c; has_namespace := has_namespace c;
     namespace_name := namespace_name c; has_class := true;
     class_name := n; method_name := method_name c;
     template_params := template_params c; parameter_types := parameter_types c;
     is_const := is_const c; is_virtual := is_virtual c; is_static := is_static c;
     return_type := return_type c; is_vtable := is_vtable c;
     is_typeinfo := is_typeinfo c; is_typeinfo_name := is_typeinfo_name c;
     is_constructor := is_constructor c; is_destructor := is_destructor c |}.

Definition set_method_name (n : string) (c : CppSymbolComponents) :=
  {| is_mangled := is_mangled c; prefix := prefix c; has_namespace := has_namespace c;
     namespace_name := namespace_name c; has_class := has_class c;
     class_name := class_name c; method_name := n;
     template_params := template_params c; parameter_types := parameter_types c;
     is_const := is_const c; is_virtual := is_virtual c; is_static := is_static c;
     return_type := return_type c; is_vtable := is_vtable c;
     is_typeinfo := is_typeinfo c; is_typeinfo_name := is_typeinfo_name c;
     is_constructor := is_constructor c; is_destructor := is_destructor c |}.

Definition set_special (vt ti tn : bool) (c : CppSymbolComponents) :=
  {| is_mangled := is_mangled c; prefix := prefix c; has_namespace := has_namespace c;
     namespace_name := namespace_name c; has_class := has_class c;
     class_name := class_name c; method_name := method_name c;
     template_params := template_params c; parameter_types := parameter_types c;
     is_const := is_const c; is_virtual := is_virtual c; is_static := is_static c;
     return_type := return_type c; is_vtable := vt || is_vtable c;
     is_typeinfo := ti || is_typeinfo c; is_typeinfo_name := tn || is_typeinfo_name c;
     is_constructor := is_constructor c; is_destructor := is_destructor c |}.

(** The first component goes to [namespace_name], the next to
    [class_name], every later one to [method_name]. *)
Definition assign_component (component : string) (c : CppSymbolComponents)
  : CppSymbolComponents :=
  if Str.empty (namespace_name c) then set_namespace_name component c
  else if negb (has_class c) then set_class component c
  else set_method_name component c.

(** Is [name[pos]] there and equal to [ch]? *)
Definition char_is (name : string) (pos : Z) (ch : ascii) : bool :=
  match Str.at_ name (Z.to_nat pos) with
  | Some c => Ascii.eqb c ch
  | None => false
  end.

(** The loop over the nested components, [while (pos < length &&
    name[pos] != 'E')]. [pos] and [len] are [size_t]: their sums wrap. *)
Fixpoint parse_nested (fuel : nat) (name : string) (pos : Z) (c : CppSymbolComponents)
  : option CppSymbolComponents :=
  let length := Z.of_nat (String.length name) in
  if (pos <? length) && negb (char_is name pos "E") then
    match fuel with
    | O => None
    | S fuel' =>
        let '(len, pos) := read_length (Str.substr_from name (Z.to_nat pos)) 0 pos in
        if (0 <? len) && (SipHasher.u64 (pos + len) <=? length) then
          let component := Str.substr_z name pos len in
          parse_nested fuel' name (SipHasher.u64 (pos + len)) (assign_component component c)
        else Some c
    end
  else Some c.

Section WithHostABI.
(** [abi::__cxa_demangle] of the host: [Some] when [status == 0]. *)
Variable cxa_demangle : string -> option string.

Definition demangle (mangled_name : string) : string :=
  match cxa_demangle mangled_name with
  | Some demangled => demangled
  | None => mangled_name
  end.

(** [None]: the loop over the nested components did not finish. *)
Definition parse (mangled_name : string) : option CppSymbolComponents :=
  let components := CppSymbolComponents_default in
  if negb (isCppMangled mangled_name) then Some (set_is_mangled false components)
  else
    let components := set_prefix "_Z" (set_is_mangled true components) in
    if String.eqb (Str.substr mangled_name 0 4) "_ZTV"
    then Some (set_special true false false components)
    else if String.eqb (Str.substr mangled_name 0 4) "_ZTI"
    then Some (set_special false true false components)
    else if String.eqb (Str.substr mangled_name 0 4) "_ZTS"
    then Some (set_special false false true components)
    else
      let demangled := demangle mangled_name in
      let components := set_method_name demangled components in
      let pos := 2 in
      if (pos <? Z.of_nat (String.length mangled_name)) && char_is mangled_name pos "N"
      then parse_nested (S (String.length mangled_name)) mangled_name (pos + 1)
             (set_has_namespace true components)
      else Some components.

End WithHostABI.

End CppDemangler.

Record CppMangler : Type := {
  mapping_ : gmap string string;
  mangler_used_hashes_ : gset string;
  namespace_cache_ : gmap string string;
  class_cache_ : gmap string string;
  method_cache_ : gmap string string
}.

Module Mangler.

Definition new : CppMangler :=
  {| mapping_ := ∅; mangler_used_hashes_ := ∅; namespace_cache_ := ∅;
     class_cache_ := ∅; method_cache_ := ∅ |}.

Definition set_mapping (k v : string) (m : CppMangler) : CppMangler :=
  {| mapping_ := <[k := v]> (mapping_ m); mangler_used_hashes_ := mangler_used_hashes_ m;
     namespace_cache_ := namespace_cache_ m; class_cache_ := class_cache_ m;
     method_cache_ := method_cache_ m |}.

Definition set_namespace_cache (k v : string) (m : CppMangler) : CppMangler :=
  {| mapping_ := mapping_ m; mangler_used_hashes_ := mangler_used_hashes_ m;
     namespace_cache_ := <[k := v]> (namespace_cache_ m); class_cache_ := class_cache_ m;
     method_cache_ := method_cache_ m |}.

Definition set_class_cache (k v : string) (m : CppMangler) : CppMangler :=
  {| mapping_ := mapping_ m; mangler_used_hashes_ := mangler_used_hashes_ m;
     namespace_cache_ := namespace_cache_ m; class_cache_ := <[k := v]> (class_cache_ m);
     method_cache_ := method_cache_ m |}.

Definition set_method_cache (k v : string) (m : CppMangler) : CppMangler :=
  {| mapping_ := mapping_ m; mangler_used_hashes_ := mangler_used_hashes_ m;
     namespace_cache_ := namespace_cache_ m; class_cache_ := class_cache_ m;
     method_cache_ := <[k := v]> (method_cache_ m) |}.

Definition encodeLengthPrefix (name : string) : string :=
  Str.to_string_nat (String.length name) +:+ name.

Definition concat_all (parts : list string) : string :=
  fold_left (fun result param => result +:+ param) parts "".

Definition encodeParameters (params : list string) : string :=
  let result := concat_all params in
  if Str.empty result then "v" else result.

Definition obfuscateTemplateParams (params : list string) : string :=
  match params with
  | [] => ""
  | _ => fold_left (fun result param => result +:+ param) params "I" +:+ "E"
  end.

Section WithHost.
Variable ssl : OpenSSL.
Variable cxa_demangle : string -> option string.
(** The hasher the mangler holds a reference to; the codec only reads
    its configuration ([generateHash]). *)
Variable hasher_ : CryptoHasher.

Definition obfuscateNamespace (ns : string) : M CppMangler string :=
  fun m =>
    match namespace_cache_ m !! ns with
    | Some cached => (Ok cached, m)
    | None =>
        let obfuscated := "N" +:+ Str.substr (Hasher.generateHash ssl hasher_ ns "ns") 0 8 in
        (Ok obfuscated, set_namespace_cache ns obfuscated m)
    end.

Definition obfuscateClassName (class_name : string) : M CppMangler string :=
  fun m =>
    match class_cache_ m !! class_name with
    | Some cached => (Ok cached, m)
    | None =>
        let obfuscated :=
          "C" +:+ Str.substr (Hasher.generateHash ssl hasher_ class_name "class") 0 10 in
        (Ok obfuscated, set_class_cache class_name obfuscated m)
    end.

Definition obfuscateMethodName (method_name : string) : M CppMangler string :=
  fun m =>
    match method_cache_ m !! method_name with
    | Some cached => (Ok cached, m)
    | None =>
        let obfuscated :=
          "M" +:+ Str.substr (Hasher.generateHash ssl hasher_ method_name "method") 0 10 in
        (Ok obfuscated, set_method_cache method_name obfuscated m)
    end.

Definition reconstructMangled (components : CppSymbolComponents) : M CppMangler string :=
  let result := "_Z" in
  if has_namespace components || has_class components then
    let result := result +:+ "N" in
    let! result :=
      (if has_namespace components && negb (Str.empty (namespace_name components))
       then let! obf_ns := obfuscateNamespace (namespace_name components) in
            ret (result +:+ encodeLengthPrefix obf_ns)
       else ret result) in
    let! result :=
      (if has_class components && negb (Str.empty (class_name components))
       then let! obf_class := obfuscateClassName (class_name components) in
            ret (result +:+ encodeLengthPrefix obf_class)
       else ret result) in
    let! result :=
      (if negb (Str.empty (method_name components))
       then let! obf_method := obfuscateMethodName (method_name components) in
            ret (result +:+ encodeLengthPrefix obf_method)
       else ret result) in
    let result := result +:+ "E" in
    ret (result +:+ encodeParameters (parameter_types components))
  else
    let obf_name := Hasher.generateHash ssl hasher_ (method_name components) "" in
    let result := result +:+ encodeLengthPrefix obf_name in
    ret (result +:+ encodeParameters (parameter_types components)).

Definition obfuscateVTable (vtable_symbol : string) : M CppMangler string :=
  fun m =>
    match mapping_ m !! vtable_symbol with
    | Some known => (Ok known, m)
    | None =>
        let prefix := "_ZTV" in
        if (String.length vtable_symbol <? 4)%nat
        then (Throw (out_of_range "basic_string::substr"), m)
        else
          let rest := Str.substr_from vtable_symbol 4 in
          let '(len, pos) := CppDemangler.read_length rest 0 0 in
          if (0 <? len) && (SipHasher.u64 (pos + len) <=? Z.of_nat (String.length rest))
          then
            let class_name := Str.substr_z rest pos len in
            (let! obfuscated_class := obfuscateClassName class_name in
             let result := prefix +:+ encodeLengthPrefix obfuscated_class in
             let! _ := modify (set_mapping vtable_symbol result) in
             ret result) m
          else
            let obfuscated :=
              prefix +:+ Hasher.generateHash ssl hasher_ vtable_symbol "vtable" in
            (Ok obfuscated, set_mapping vtable_symbol obfuscated m)
    end.

Definition obfuscateTypeInfo (typeinfo_symbol : string) : M CppMangler string :=
  fun m =>
    match mapping_ m !! typeinfo_symbol with
    | Some known => (Ok known, m)
    | None =>
        let prefix := Str.substr typeinfo_symbol 0 4 in
        let hash := Hasher.generateHash ssl hasher_ typeinfo_symbol "typeinfo" in
        let obfuscated := prefix +:+ Str.substr hash 0 10 in
        (Ok obfuscated, set_mapping typeinfo_symbol obfuscated m)
    end.

Definition obfuscateCppSymbol (mangled_name : string) : M CppMangler string :=
  fun m =>
    match mapping_ m !! mangled_name with
    | Some known => (Ok known, m)
    | None =>
        match CppDemangler.parse cxa_demangle mangled_name with
        | None => (Diverge, m)
        | Some components =>
            if negb (is_mangled components) then (Ok mangled_name, m)
            else if is_vtable components then obfuscateVTable mangled_name m
            else if is_typeinfo components then obfuscateTypeInfo mangled_name m
            else if is_typeinfo_name components then obfuscateTypeInfo mangled_name m
            else
              (let! obfuscated := reconstructMangled components in
               let! _ := modify (set_mapping mangled_name obfuscated) in
               ret obfuscated) m
        end
    end.

Definition obfuscateConstructor (ctor_symbol : string) : M CppMangler string :=
  obfuscateCppSymbol ctor_symbol.

Definition obfuscateDestructor (dtor_symbol : string) : M CppMangler string :=
  obfuscateCppSymbol dtor_symbol.

End WithHost.

End Mangler.

(* ===================================================================== *)
(** ** Documents: the part of [Json::Value] / [llvm::json] the code uses *)
(* ===================================================================== *)

(** A document is kept as a value tree. Numbers are integers; [asInt] and
    [asUInt64] check the range of their target type, as jsoncpp does.
    An object keeps one value per key ([operator[]] inserts or
    overwrites) and is walked in the order of its keys. The text form
    ([Json::StyledWriter], [Json::Reader], [formatv]) belongs to the
    libraries and is not part of the model: a file that holds a
    document is the document. *)
#[local] Unset Elimination Schemes.
Inductive Json : Type :=
| JNull
| JNumber (z : Z)
| JString (s : string)
| JArray (items : list Json)
| JObject (members : list (string * Json)).
#[local] Set Elimination Schemes.

Module JsonValue.

(** [obj[key] = v], for the values the code assigns members to: an
    object, or null, which becomes an object with its first member. *)
Fixpoint set_member (key : string) (v : Json) (members : list (string * Json))
  : list (string * Json) :=
  match members with
  | [] => [(key, v)]
  | (k, old) :: rest =>
      if String.eqb k key then (k, v) :: rest
      else (k, old) :: set_member key v rest
  end.

Definition set (key : string) (v : Json) (obj : Json) : Json :=
  match obj with
  | JObject members => JObject (set_member key v members)
  | _ => JObject [(key, v)]
  end.

Fixpoint find_member (key : string) (members : list (string * Json)) : option Json :=
  match members with
  | [] => None
  | (k, v) :: rest => if String.eqb k key then Some v else find_member key rest
  end.

(** [obj.isMember(key)]. *)
Definition isMember (key : string) (obj : Json) : bool :=
  match obj with
  | JObject members =>
      match find_member key members with Some _ => true | None => false end
  | _ => false
  end.

(** What [JSON_FAIL_MESSAGE] throws. *)
Definition conversion_error (what : string) : exn := json_logic_error what.

(** [obj[key]] read: a missing member reads as null, and so does any
    member of null; a number, a string or an array has no members, and
    asking for one throws. The text of the message is the library's and
    differs between its versions; no property depends on it. *)
Definition member (key : string) (obj : Json) : outcome Json :=
  match obj with
  | JObject members => Ok (default JNull (find_member key members))
  | JNull => Ok JNull
  | _ => Throw (conversion_error "requires objectValue")
  end.

Definition asString (v : Json) : outcome string :=
  match v with
  | JString s => Ok s
  | JNull => Ok ""
  | JNumber z => Ok (Str.to_string z)
  | _ => Throw (conversion_error "Type is not convertible to string")
  end.

Definition int_min : Z := - 2 ^ 31.
Definition int_max : Z := 2 ^ 31 - 1.

Definition asInt (v : Json) : outcome Z :=
  match v with
  | JNumber z => if (int_min <=? z) && (z <=? int_max) then Ok z
                 else Throw (conversion_error "LargestInt out of Int range")
  | JNull => Ok 0
  | _ => Throw (conversion_error "Value is not convertible to Int.")
  end.

Definition asUInt64 (v : Json) : outcome Z :=
  match v with
  | JNumber z => if (0 <=? z) && (z <? 2 ^ 64) then Ok z
                 else Throw (conversion_error "LargestInt out of UInt64 range")
  | JNull => Ok 0
  | _ => Throw (conversion_error "Value is not convertible to UInt64.")
  end.

(** The elements a range-for loop over a value visits: those of an
    array in the order of their index, the members of an object in the
    order of their keys, and nothing for any other value. *)
Definition items_of (v : Json) : list Json :=
  match v with
  | JArray items => items
  | JObject members => map snd (StdMap.sort members)
  | _ => []
  end.

End JsonValue.

(* ===================================================================== *)
(** ** c_obfuscator.cpp                                                  *)
(* ===================================================================== *)

Inductive SymbolType : Type :=
| FUNCTION | GLOBAL_VAR | STATIC_VAR | LOCAL_VAR | TYPEDEF | STRUCT | ENUM | UNKNOWN.

Inductive Linkage : Type := EXTERNAL | INTERNAL | WEAK | COMMON.

(** [static_cast<int>] on the two enumerations. *)
Definition SymbolType_to_int (t : SymbolType) : Z :=
  match t with
  | FUNCTION => 0 | GLOBAL_VAR => 1 | STATIC_VAR => 2 | LOCAL_VAR => 3
  | TYPEDEF => 4 | STRUCT => 5 | ENUM => 6 | UNKNOWN => 7
  end.

Definition Linkage_to_int (l : Linkage) : Z :=
  match l with EXTERNAL => 0 | INTERNAL => 1 | WEAK => 2 | COMMON => 3 end.

(** [static_cast<SymbolType>(n)]. An [n] that names no enumerator has no
    counterpart in the inductive type; it is read as the last enumerator,
    which every [switch] of the code treats as its default case does. *)
Definition SymbolType_of_int (n : Z) : SymbolType :=
  match n with
  | 0 => FUNCTION | 1 => GLOBAL_VAR | 2 => STATIC_VAR | 3 => LOCAL_VAR
  | 4 => TYPEDEF | 5 => STRUCT | 6 => ENUM | _ => UNKNOWN
  end.

Definition Linkage_of_int (n : Z) : Linkage :=
  match n with 0 => EXTERNAL | 1 => INTERNAL | 2 => WEAK | _ => COMMON end.

Record SymbolMapping : Type := {
  original_name : string;
  obfuscated_name : string;
  type : SymbolType;
  linkage : Linkage;
  address : Z;          (* uint64_t *)
  size : Z;             (* size_t *)
  source_file : string;
  line_number : Z       (* int *)
}.

Record ObfuscationConfig : Type := {
  preserve_symbols : gset string;
  preserve_patterns : list string;
  aggressive_static : bool;
  obfuscate_strings : bool;
  generate_map : bool;
  map_file_path : string;
  hash_config : HashConfig
}.

(** [ObfuscationConfig()]: the defaults of the struct. *)
Definition ObfuscationConfig_default : ObfuscationConfig :=
  {| preserve_symbols :=
       {[ "main"; "_start"; "__libc_start_main"; "signal"; "sigaction";
          "_init"; "_fini"; "__attribute__" ]};
     preserve_patterns := ["^__"; "^_Z"; "^llvm\."; "^__cxa_"];
     aggressive_static := true;
     obfuscate_strings := false;
     generate_map := true;
     map_file_path := "symbol_map.json";
     hash_config := HashConfig_default |}.

Record CSymbolObfuscator : Type := {
  obf_config_ : ObfuscationConfig;
  hasher_ : CryptoHasher;
  mappings_ : list SymbolMapping;
  used_names_ : gset string
}.

(** The source buffer the rewriter edits in place. *)
Abbreviation text := (list ascii).

Module Rewriter.

Definition isIdentifierChar (c : ascii) : bool :=
  Str.isalnum c || Ascii.eqb c "_".

(** [text.compare(0, word.length(), word) == 0]. *)
Fixpoint starts_with (word code : text) : bool :=
  match word, code with
  | [], _ => true
  | w :: word', c :: code' => Ascii.eqb w c && starts_with word' code'
  | _ :: _, [] => false
  end.

(** The offset of the first occurrence of [word] in [code]. *)
Fixpoint find_in (word code : text) : option nat :=
  if starts_with word code then Some O
  else match code with
       | [] => None
       | _ :: code' => option_map S (find_in word code')
       end.

(** [code.find(word, pos)]; [None] is [std::string::npos]. *)
Definition find (code word : text) (pos : nat) : option nat :=
  if (pos <=? length code)%nat
  then option_map (Nat.add pos) (find_in word (skipn pos code))
  else None.

(** [code.replace(pos, len, s)] for [pos <= code.length()]. *)
Definition replace (code : text) (pos len : nat) (s : text) : text :=
  firstn pos code ++ s ++ skipn (pos + len) code.

Definition isWholeWord (code : text) (pos : nat) (word : text) : bool :=
  if (0 <? pos)%nat && from_option isIdentifierChar false (code !! (pos - 1)%nat)
  then false
  else
    let end_pos := (pos + length word)%nat in
    if (end_pos <? length code)%nat
       && from_option isIdentifierChar false (code !! end_pos)
    then false
    else true.

(** The [while] loop of [replaceSymbol]; [None] is running out of fuel. *)
Fixpoint replace_loop (fuel : nat) (code : text) (pos : nat) (original obfuscated : text)
  : option text :=
  match find code original pos with
  | None => Some code
  | Some pos =>
      match fuel with
      | O => None
      | S fuel' =>
          if isWholeWord code pos original
          then replace_loop fuel' (replace code pos (length original) obfuscated)
                 (pos + length obfuscated) original obfuscated
          else replace_loop fuel' code (pos + length original) original obfuscated
      end
  end.

(** [replaceSymbol(code, original, obfuscated)]. Each round moves the
    cursor at least [original.length()] closer to the end of the
    buffer, so [length code + 1] rounds are enough when [original] is
    not empty. *)
Definition replaceSymbol (code original obfuscated : text) : option text :=
  replace_loop (S (length code)) code 0 original obfuscated.

(** [std::sort] with the comparator [a.first.length() > b.first.length()],
    here as an insertion sort: keys of the same length stay in the order
    they have in the vector, which is the order [std::sort] leaves them
    in when the vector is short enough to be sorted by insertion alone. *)
Definition longer (a b : string * string) : bool :=
  (String.length (fst b) <? String.length (fst a))%nat.

Fixpoint insert_sorted (x : string * string) (l : list (string * string))
  : list (string * string) :=
  match l with
  | [] => [x]
  | y :: l' => if longer y x then y :: insert_sorted x l' else x :: l
  end.

Definition sort_longest_first (l : list (string * string)) : list (string * string) :=
  fold_right insert_sorted [] l.

(** The vector is filled from [mapping.begin()] to [mapping.end()], in
    the order of the keys, and then sorted. *)
Definition sorted_mapping (mapping : gmap string string) : list (string * string) :=
  sort_longest_first (StdMap.entries mapping).

(** The [for] loop over [sorted_mapping]. *)
Fixpoint replace_all (pairs : list (string * string)) (code : text) : option text :=
  match pairs with
  | [] => Some code
  | (original, obfuscated) :: rest =>
      match replaceSymbol code (list_ascii_of_string original)
              (list_ascii_of_string obfuscated) with
      | Some code' => replace_all rest code'
      | None => None
      end
  end.

(** [applyObfuscation(source_code, mapping, obfuscated_code)]. *)
Definition applyObfuscation (source_code : string) (mapping : gmap string string)
  : option string :=
  string_of_list_ascii <$>
    replace_all (sorted_mapping mapping) (list_ascii_of_string source_code).

End Rewriter.

Module CObfuscator.

Definition cpp_keywords : gset string :=
  {[ "if"; "else"; "for"; "while"; "do"; "switch"; "case"; "default";
     "break"; "continue"; "return"; "goto";
     "int"; "char"; "float"; "double"; "void"; "long"; "short"; "signed"; "unsigned";
     "const"; "static"; "extern"; "register"; "volatile"; "auto";
     "struct"; "union"; "enum"; "typedef";
     "sizeof"; "typeof";
     "class"; "public"; "private"; "protected"; "virtual"; "friend";
     "namespace"; "using"; "template"; "typename";
     "new"; "delete"; "this"; "operator";
     "try"; "catch"; "throw";
     "true"; "false"; "nullptr"; "NULL";
     "and"; "or"; "not"; "xor";
     "main" ]}.

Definition new (config : ObfuscationConfig) : CSymbolObfuscator :=
  {| obf_config_ := config; hasher_ := Hasher.new (hash_config config);
     mappings_ := []; used_names_ := ∅ |}.

Definition with_hasher (h : CryptoHasher) (o : CSymbolObfuscator) : CSymbolObfuscator :=
  {| obf_config_ := obf_config_ o; hasher_ := h; mappings_ := mappings_ o;
     used_names_ := used_names_ o |}.

Definition with_mappings (ms : list SymbolMapping) (o : CSymbolObfuscator)
  : CSymbolObfuscator :=
  {| obf_config_ := obf_config_ o; hasher_ := hasher_ o; mappings_ := ms;
     used_names_ := used_names_ o |}.

Definition with_used_name (n : string) (o : CSymbolObfuscator) : CSymbolObfuscator :=
  {| obf_config_ := obf_config_ o; hasher_ := hasher_ o; mappings_ := mappings_ o;
     used_names_ := {[n]} ∪ used_names_ o |}.

Definition with_obfuscated_name (n : string) (s : SymbolMapping) : SymbolMapping :=
  {| original_name := original_name s; obfuscated_name := n; type := type s;
     linkage := linkage s; address := address s; size := size s;
     source_file := source_file s; line_number := line_number s |}.

(** Run a method of the member [hasher_]. *)
Definition on_hasher {A} (m : M CryptoHasher A) : M CSymbolObfuscator A :=
  fun o => let '(r, h) := m (hasher_ o) in (r, with_hasher h o).

Section WithHost.
Variable ssl : OpenSSL.
(** [std::regex_search(subject, std::regex(pattern))]. *)
Variable regex_search : string -> string -> bool.
(** The successive matches of the two declaration patterns of
    [parseDeclarations] in a source text: the second capture group of
    each match, in order. *)
Variable function_matches : string -> list string.
Variable variable_matches : string -> list string.

Definition matchesPreservePattern (o : CSymbolObfuscator) (symbol_name : string) : bool :=
  existsb (fun pattern => regex_search symbol_name pattern)
          (preserve_patterns (obf_config_ o)).

Definition shouldPreserve (o : CSymbolObfuscator) (symbol_name : string) : bool :=
  if bool_decide (symbol_name ∈ cpp_keywords) then true
  else if bool_decide (symbol_name ∈ preserve_symbols (obf_config_ o)) then true
  else if matchesPreservePattern o symbol_name then true
  else false.

Definition declared (name : string) (t : SymbolType) : SymbolMapping :=
  {| original_name := name; obfuscated_name := ""; type := t; linkage := EXTERNAL;
     address := 0; size := 0; source_file := ""; line_number := 0 |}.

Definition parseDeclarations (o : CSymbolObfuscator) (source_code : string)
  : list SymbolMapping :=
  let keep t := fun name => if shouldPreserve o name then [] else [declared name t] in
  flat_map (keep FUNCTION) (function_matches source_code)
  ++ flat_map (keep GLOBAL_VAR) (variable_matches source_code).

(** The body of the loop of [generateMapping] for one symbol. *)
Definition map_symbol (symbol : SymbolMapping) (mapping : gmap string string)
  : M CSymbolObfuscator (gmap string string) :=
  fun o =>
    if shouldPreserve o (original_name symbol) then (Ok mapping, o)
    else
      (let! obfuscated :=
         on_hasher (match type symbol with
                    | FUNCTION => Hasher.hashFunction ssl (original_name symbol)
                    | GLOBAL_VAR | STATIC_VAR => Hasher.hashVariable ssl (original_name symbol)
                    | STRUCT => Hasher.hashClass ssl (original_name symbol)
                    | _ => Hasher.hashVariable ssl (original_name symbol)
                    end) in
       let! _ := modify (with_used_name obfuscated) in
       let mapping := <[original_name symbol := obfuscated]> mapping in
       let! _ := modify (fun o =>
                   with_mappings (mappings_ o ++ [with_obfuscated_name obfuscated symbol]) o) in
       ret mapping) o.

Fixpoint map_symbols (symbols : list SymbolMapping) (mapping : gmap string string)
  : M CSymbolObfuscator (gmap string string) :=
  match symbols with
  | [] => ret mapping
  | symbol :: rest =>
      let! mapping := map_symbol symbol mapping in map_symbols rest mapping
  end.

Definition generateMapping (symbols : list SymbolMapping)
  : M CSymbolObfuscator (gmap string string) :=
  map_symbols symbols ∅.

Definition symbol_to_json (mapping : SymbolMapping) : Json :=
  let symbol := JObject [] in
  let symbol := JsonValue.set "original" (JString (original_name mapping)) symbol in
  let symbol := JsonValue.set "obfuscated" (JString (obfuscated_name mapping)) symbol in
  let symbol := JsonValue.set "type" (JNumber (SymbolType_to_int (type mapping))) symbol in
  let symbol := JsonValue.set "linkage" (JNumber (Linkage_to_int (linkage mapping))) symbol in
  let symbol := JsonValue.set "address" (JNumber (SipHasher.u64 (address mapping))) symbol in
  let symbol := JsonValue.set "size" (JNumber (SipHasher.u64 (size mapping))) symbol in
  let symbol := JsonValue.set "source_file" (JString (source_file mapping)) symbol in
  let symbol := JsonValue.set "line" (JNumber (line_number mapping)) symbol in
  symbol.

Definition HashAlgorithm_to_int (a : HashAlgorithm) : Z :=
  match a with SHA256_alg => 0 | BLAKE2B => 1 | SIPHASH => 2 end.

(** [exportMapping(file_path)]: the document written to the file. *)
Definition exportMapping (o : CSymbolObfuscator) : Json :=
  let symbols := JArray (map symbol_to_json (mappings_ o)) in
  let root := JObject [] in
  let root := JsonValue.set "symbols" symbols root in
  let root := JsonValue.set "version" (JString "1.0") root in
  let root := JsonValue.set "hash_algorithm"
                (JNumber (HashAlgorithm_to_int (Hasher.getAlgorithm (hasher_ o)))) root in
  root.

(** [symbol[key].asString()] and the like: the read, then the
    conversion. *)
Definition field {A} (key : string) (convert : Json -> outcome A) (symbol : Json)
  : outcome A :=
  and_then (JsonValue.member key symbol) convert.

Definition symbol_of_json (symbol : Json) : outcome SymbolMapping :=
  and_then (field "original" JsonValue.asString symbol) (fun original =>
  and_then (field "obfuscated" JsonValue.asString symbol) (fun obfuscated =>
  and_then (field "type" JsonValue.asInt symbol) (fun type_ =>
  and_then (field "linkage" JsonValue.asInt symbol) (fun linkage_ =>
  and_then (field "address" JsonValue.asUInt64 symbol) (fun address_ =>
  and_then (field "size" JsonValue.asUInt64 symbol) (fun size_ =>
  and_then (field "source_file" JsonValue.asString symbol) (fun source_file_ =>
  and_then (field "line" JsonValue.asInt symbol) (fun line =>
    Ok {| original_name := original; obfuscated_name := obfuscated;
          type := SymbolType_of_int type_; linkage := Linkage_of_int linkage_;
          address := address_; size := size_; source_file := source_file_;
          line_number := line |})))))))).

(** The loop of [importMapping]: [mappings_.push_back] per element. *)
Fixpoint import_symbols (symbols : list Json) : M CSymbolObfuscator unit :=
  match symbols with
  | [] => ret tt
  | symbol :: rest =>
      match symbol_of_json symbol with
      | Ok mapping =>
          let! _ := modify (fun o => with_mappings (mappings_ o ++ [mapping]) o) in
          import_symbols rest
      | Throw e => throw e
      | Diverge => fun o => (Diverge, o)
      end
  end.

(** [importMapping(file_path)] on the document the file holds; [None]
    is a file [Json::Reader] cannot parse. [mappings_] is cleared before
    [root["symbols"]] is read. *)
Definition importMapping (file : option Json) : M CSymbolObfuscator unit :=
  match file with
  | None => throw (runtime_error "Failed to parse mapping file: ")
  | Some root =>
      let! _ := modify (with_mappings []) in
      match JsonValue.member "symbols" root with
      | Ok symbols => import_symbols (JsonValue.items_of symbols)
      | Throw e => throw e
      | Diverge => fun o => (Diverge, o)
      end
  end.

(** [obfuscateSymbols(input_file, output_file)] on the content of the
    input file. It returns the content written to the output file and
    the mapping document, when one is written. *)
Definition obfuscateSymbols (source_code : string)
  : M CSymbolObfuscator (string * option Json) :=
  let! symbols := gets (fun o => parseDeclarations o source_code) in
  let! mapping := generateMapping symbols in
  match Rewriter.applyObfuscation source_code mapping with
  | None => fun o => (Diverge, o)
  | Some obfuscated_code =>
      let! document :=
        gets (fun o => if generate_map (obf_config_ o)
                       then Some (exportMapping o) else None) in
      ret (obfuscated_code, document)
  end.

End WithHost.

End CObfuscator.

(* ===================================================================== *)
(** ** tools/symbol-obfuscate.cpp                                        *)
(* ===================================================================== *)

Record CliOptions : Type := {
  input_file : string;
  output_file : string;
  map_file : string;
  hash_algo : HashAlgorithm;
  cli_prefix_style : PrefixStyle;
  cli_hash_length : nat;
  salt : string;
  preserve_main : bool;
  preserve_stdlib : bool;
  cli_generate_map : bool;
  verbose : bool;
  is_cpp : bool
}.

Module Cli.

(** The member initializers of [CliOptions], for given file names. *)
Definition defaults (input output : string) : CliOptions :=
  {| input_file := input; output_file := output; map_file := "symbol_map.json";
     hash_algo := SHA256_alg; cli_prefix_style := TYPED; cli_hash_length := 12;
     salt := ""; preserve_main := true; preserve_stdlib := true;
     cli_generate_map := true; verbose := false; is_cpp := false |}.

(** What [--no-preserve-main] does to the options (case 1001). *)
Definition no_preserve_main (opts : CliOptions) : CliOptions :=
  {| input_file := input_file opts; output_file := output_file opts;
     map_file := map_file opts; hash_algo := hash_algo opts;
     cli_prefix_style := cli_prefix_style opts;
     cli_hash_length := cli_hash_length opts; salt := salt opts;
     preserve_main := false; preserve_stdlib := preserve_stdlib opts;
     cli_generate_map := cli_generate_map opts; verbose := verbose opts;
     is_cpp := is_cpp opts |}.

(** The configuration [main] builds from the options (the [try] block). *)
Definition obf_config (opts : CliOptions) : ObfuscationConfig :=
  let hash_config :=
    {| algorithm := hash_algo opts; prefix_style := cli_prefix_style opts;
       hash_length := cli_hash_length opts; global_salt := salt opts;
       deterministic := true |} in
  let d := ObfuscationConfig_default in
  {| preserve_symbols :=
       if negb (preserve_main opts) then preserve_symbols d ∖ {["main"]}
       else preserve_symbols d;
     preserve_patterns := preserve_patterns d;
     aggressive_static := aggressive_static d;
     obfuscate_strings := obfuscate_strings d;
     generate_map := cli_generate_map opts;
     map_file_path := map_file opts;
     hash_config := hash_config |}.

(** [CSymbolObfuscator obfuscator(obf_config)]. *)
Definition obfuscator (opts : CliOptions) : CSymbolObfuscator :=
  CObfuscator.new (obf_config opts).

End Cli.

(* ===================================================================== *)
(** ** passes/SymbolObfuscationPass.cpp                                  *)
(* ===================================================================== *)

(** What the pass reads of an IR module: the names of its functions,
    global variables and aliases, in the module's order, each with
    [isDeclaration()]. *)
Record Module_ : Type := {
  module_name : string;
  source_file_name : string;
  functions : list (string * bool);
  globals : list (string * bool);
  aliases : list string
}.

Record SymbolObfuscationPass : Type := {
  preserve_main_ : bool;
  preserve_stdlib_ : bool;
  obfuscate_globals_ : bool;
  generate_map_ : bool;
  map_file_path_ : string;
  salt_ : string;
  pass_hasher_ : CryptoHasher;
  cpp_mangler_ : CppMangler;
  pass_mapping_ : gmap string string;
  pass_used_names_ : gset string;
  preserve_symbols_ : gset string
}.

Module Pass.

Definition initializePreserveSet : gset string :=
  {[ "main"; "_start"; "__libc_start_main"; "_init"; "_fini"; "__attribute__";
     "__cxa_atexit"; "__cxa_finalize"; "__dso_handle"; "__gxx_personality_v0";
     "_GLOBAL__sub_I_" ]}.

Definition stdlib_funcs : gset string :=
  {[ "malloc"; "free"; "calloc"; "realloc";
     "printf"; "scanf"; "fprintf"; "sprintf";
     "memcpy"; "memset"; "strlen"; "strcmp";
     "exit"; "abort"; "signal"; "sigaction" ]}.

(** [SymbolObfuscationPass(salt)]. *)
Definition new (salt : string) : SymbolObfuscationPass :=
  let config :=
    {| algorithm := SHA256_alg; prefix_style := TYPED; hash_length := 12;
       global_salt := salt; deterministic := true |} in
  {| preserve_main_ := true; preserve_stdlib_ := true; obfuscate_globals_ := true;
     generate_map_ := true; map_file_path_ := "symbol_map.json"; salt_ := salt;
     pass_hasher_ := Hasher.new config; cpp_mangler_ := Mangler.new;
     pass_mapping_ := ∅; pass_used_names_ := ∅;
     preserve_symbols_ := initializePreserveSet |}.

Definition setPreserveMain (preserve : bool) (p : SymbolObfuscationPass) :=
  {| preserve_main_ := preserve; preserve_stdlib_ := preserve_stdlib_ p;
     obfuscate_globals_ := obfuscate_globals_ p; generate_map_ := generate_map_ p;
     map_file_path_ := map_file_path_ p; salt_ := salt_ p;
     pass_hasher_ := pass_hasher_ p; cpp_mangler_ := cpp_mangler_ p;
     pass_mapping_ := pass_mapping_ p; pass_used_names_ := pass_used_names_ p;
     preserve_symbols_ := preserve_symbols_ p |}.

Definition with_salt (s : string) (p : SymbolObfuscationPass) :=
  {| preserve_main_ := preserve_main_ p; preserve_stdlib_ := preserve_stdlib_ p;
     obfuscate_globals_ := obfuscate_globals_ p; generate_map_ := generate_map_ p;
     map_file_path_ := map_file_path_ p; salt_ := s;
     pass_hasher_ := Hasher.setSalt s (pass_hasher_ p); cpp_mangler_ := cpp_mangler_ p;
     pass_mapping_ := pass_mapping_ p; pass_used_names_ := pass_used_names_ p;
     preserve_symbols_ := preserve_symbols_ p |}.

Definition with_hasher (h : CryptoHasher) (p : SymbolObfuscationPass) :=
  {| preserve_main_ := preserve_main_ p; preserve_stdlib_ := preserve_stdlib_ p;
     obfuscate_globals_ := obfuscate_globals_ p; generate_map_ := generate_map_ p;
     map_file_path_ := map_file_path_ p; salt_ := salt_ p;
     pass_hasher_ := h; cpp_mangler_ := cpp_mangler_ p;
     pass_mapping_ := pass_mapping_ p; pass_used_names_ := pass_used_names_ p;
     preserve_symbols_ := preserve_symbols_ p |}.

Definition with_mangler (m : CppMangler) (p : SymbolObfuscationPass) :=
  {| preserve_main_ := preserve_main_ p; preserve_stdlib_ := preserve_stdlib_ p;
     obfuscate_globals_ := obfuscate_globals_ p; generate_map_ := generate_map_ p;
     map_file_path_ := map_file_path_ p; salt_ := salt_ p;
     pass_hasher_ := pass_hasher_ p; cpp_mangler_ := m;
     pass_mapping_ := pass_mapping_ p; pass_used_names_ := pass_used_names_ p;
     preserve_symbols_ := preserve_symbols_ p |}.

Definition with_used_names (u : gset string) (p : SymbolObfuscationPass) :=
  {| preserve_main_ := preserve_main_ p; preserve_stdlib_ := preserve_stdlib_ p;
     obfuscate_globals_ := obfuscate_globals_ p; generate_map_ := generate_map_ p;
     map_file_path_ := map_file_path_ p; salt_ := salt_ p;
     pass_hasher_ := pass_hasher_ p; cpp_mangler_ := cpp_mangler_ p;
     pass_mapping_ := pass_mapping_ p; pass_used_names_ := u;
     preserve_symbols_ := preserve_symbols_ p |}.

Definition record_mapping (k v : string) (p : SymbolObfuscationPass) :=
  {| preserve_main_ := preserve_main_ p; preserve_stdlib_ := preserve_stdlib_ p;
     obfuscate_globals_ := obfuscate_globals_ p; generate_map_ := generate_map_ p;
     map_file_path_ := map_file_path_ p; salt_ := salt_ p;
     pass_hasher_ := pass_hasher_ p; cpp_mangler_ := cpp_mangler_ p;
     pass_mapping_ := <[k := v]> (pass_mapping_ p);
     pass_used_names_ := pass_used_names_ p;
     preserve_symbols_ := preserve_symbols_ p |}.

Definition isCppMangled (name : string) : bool :=
  (2 <? String.length name)%nat && String.eqb (Str.substr name 0 2) "_Z".

Definition isSystemSymbol (p : SymbolObfuscationPass) (name : string) : bool :=
  if (2 <=? String.length name)%nat
     && CppDemangler.char_is name 0 "_" && CppDemangler.char_is name 1 "_"
  then true
  else if String.eqb (Str.substr name 0 5) "__cxa" then true
  else if preserve_stdlib_ p && bool_decide (name ∈ stdlib_funcs) then true
  else false.

Definition shouldPreserve (p : SymbolObfuscationPass) (name : string) : bool :=
  if bool_decide (name ∈ preserve_symbols_ p) then true
  else if preserve_main_ p && String.eqb name "main" then true
  else if isSystemSymbol p name then true
  else if String.eqb (Str.substr name 0 5) "llvm." then true
  else false.

Section WithHost.
Variable ssl : OpenSSL.
Variable cxa_demangle : string -> option string.

(** [generateModuleSalt(M)]: a hasher with the default configuration. *)
Definition generateModuleSalt (m : Module_) : string :=
  let base := module_name m in
  let base := if negb (Str.empty (source_file_name m))
              then base +:+ source_file_name m else base in
  Hasher.generateHash ssl (Hasher.new HashConfig_default) base "module_salt".

(** Run a method of [cpp_mangler_], which reads [hasher_] through its
    reference. *)
Definition on_mangler {A} (m : CryptoHasher -> M CppMangler A)
  : M SymbolObfuscationPass A :=
  fun p => let '(r, mg) := m (pass_hasher_ p) (cpp_mangler_ p) in (r, with_mangler mg p).

(** [hasher_.generateUniqueHash(original_name, used_names_, prefix)]. *)
Definition unique_name (original_name prefix : string) : M SymbolObfuscationPass string :=
  fun p =>
    match Hasher.generateUniqueHash ssl original_name (pass_used_names_ p) prefix
            (pass_hasher_ p) with
    | (Ok (name, used), h) => (Ok name, with_used_names used (with_hasher h p))
    | (Throw e, h) => (Throw e, with_hasher h p)
    | (Diverge, h) => (Diverge, with_hasher h p)
    end.

Definition obfuscateFunctionName (original_name : string) : M SymbolObfuscationPass string :=
  if isCppMangled original_name
  then on_mangler (fun h => Mangler.obfuscateCppSymbol ssl cxa_demangle h original_name)
  else unique_name original_name "f_".

Definition obfuscateGlobalName (original_name : string) : M SymbolObfuscationPass string :=
  if isCppMangled original_name
  then on_mangler (fun h => Mangler.obfuscateCppSymbol ssl cxa_demangle h original_name)
  else unique_name original_name "v_".

(** One round of the loops over functions and globals. The result is
    the name passed to [setName], or the name kept. *)
Definition rename_with (obfuscate : string -> M SymbolObfuscationPass string)
    (entity : string * bool) : M SymbolObfuscationPass (string * bool) :=
  let '(original_name, is_declaration) := entity in
  if is_declaration then ret entity
  else fun p =>
    if shouldPreserve p original_name then (Ok entity, p)
    else
      (let! obfuscated_name := obfuscate original_name in
       let! _ := modify (record_mapping original_name obfuscated_name) in
       ret (obfuscated_name, is_declaration)) p.

Fixpoint for_each {S A B} (body : A -> M S B) (l : list A) : M S (list B) :=
  match l with
  | [] => ret []
  | x :: rest =>
      let! y := body x in
      let! ys := for_each body rest in
      ret (y :: ys)
  end.

Definition obfuscateFunctions (fs : list (string * bool))
  : M SymbolObfuscationPass (list (string * bool)) :=
  for_each (rename_with obfuscateFunctionName) fs.

Definition obfuscateGlobalVariables (gs : list (string * bool))
  : M SymbolObfuscationPass (list (string * bool)) :=
  for_each (rename_with obfuscateGlobalName) gs.

Definition obfuscateAliases (als : list string) : M SymbolObfuscationPass (list string) :=
  for_each (fun original_name p =>
              if shouldPreserve p original_name then (Ok original_name, p)
              else
                (let! obfuscated_name := unique_name original_name "a_" in
                 let! _ := modify (record_mapping original_name obfuscated_name) in
                 ret obfuscated_name) p) als.

(** [saveMapping(path)]: the document written to the file, with one
    element per entry of [mapping_] in the order of the keys. *)
Definition saveMapping (p : SymbolObfuscationPass) : Json :=
  let symbols :=
    JArray (map (fun '(original, obfuscated) =>
                   JsonValue.set "obfuscated" (JString obfuscated)
                     (JsonValue.set "original" (JString original) (JObject [])))
                (StdMap.entries (pass_mapping_ p))) in
  let root := JObject [] in
  let root := JsonValue.set "symbols" symbols root in
  let root := JsonValue.set "version" (JString "1.0") root in
  let root := JsonValue.set "salt" (JString (salt_ p)) root in
  root.

(** [run(M, MAM)]: the renamed module and the mapping document, when
    one is written. *)
Definition run (m : Module_) : M SymbolObfuscationPass (Module_ * option Json) :=
  let! _ := modify (fun p => if Str.empty (salt_ p)
                             then with_salt (generateModuleSalt m) p else p) in
  let! fs := obfuscateFunctions (functions m) in
  let! obfuscate_globals := gets obfuscate_globals_ in
  let! gs := (if obfuscate_globals then obfuscateGlobalVariables (globals m)
              else ret (globals m)) in
  let! als := obfuscateAliases (aliases m) in
  let! document := gets (fun p => if generate_map_ p then Some (saveMapping p) else None) in
  ret ({| module_name := module_name m; source_file_name := source_file_name m;
          functions := fs; globals := gs; aliases := als |}, document).

End WithHost.

End Pass.

(* ===================================================================== *)
(** ** Definitions used to state the properties                          *)
(* ===================================================================== *)

Module Spec.

(** [[0-9a-f]]. *)
Definition is_lower_hex (c : ascii) : bool :=
  Str.isdigit c || (let n := nat_of_ascii c in (97 <=? n)%nat && (n <=? 102)%nat).

(** [[A-Za-z_]] and [[A-Za-z_][A-Za-z0-9_]*]. *)
Definition is_identifier_start (c : ascii) : bool :=
  Str.isalpha c || Ascii.eqb c "_".

Definition is_c_identifier (s : string) : bool :=
  match s with
  | EmptyString => false
  | String c s' => is_identifier_start c && Str.all Rewriter.isIdentifierChar s'
  end.

(** The untruncated digest text has 64, 128 or 16 characters. *)
Definition full_length (a : HashAlgorithm) : nat :=
  match a with SHA256_alg => 64 | BLAKE2B => 128 | SIPHASH => 16 end.

(** The unique-hash rule in the words of the specification: the first
    identifier that is not in a used set, among the one for the name
    itself and the ones for the counters 0, 1, ..., 9999; none of them
    free is the collision failure. *)
Definition taken (h : CryptoHasher) (used_hashes : gset string) (full_name : string) : bool :=
  bool_decide (full_name ∈ used_hashes) || bool_decide (full_name ∈ used_hashes_ h).

Definition counters_from (first : nat) (count : nat) : list Z :=
  map Z.of_nat (seq first count).

Definition candidates (ssl : OpenSSL) (h : CryptoHasher) (name prefix : string)
  : list string :=
  Hasher.candidate ssl h name prefix None
  :: map (fun c => Hasher.candidate ssl h name prefix (Some c))
         (counters_from 0 (Z.to_nat 10000)).

Definition unique (ssl : OpenSSL) (name : string) (used_hashes : gset string)
    (prefix : string) : M CryptoHasher (string * gset string) :=
  fun h =>
    match List.find (fun c => negb (taken h used_hashes c)) (candidates ssl h name prefix) with
    | Some full_name =>
        (Ok (full_name, {[full_name]} ∪ used_hashes),
         {| config_ := config_ h; used_hashes_ := {[full_name]} ∪ used_hashes_ h |})
    | None => (Throw (Hasher.too_many_collisions name), h)
    end.

(** The tokens the codec puts in place of a namespace, a class and a
    method component. *)
Definition namespace_token (ssl : OpenSSL) (h : CryptoHasher) (ns : string) : string :=
  "N" +:+ Str.substr (Hasher.generateHash ssl h ns "ns") 0 8.

Definition class_token (ssl : OpenSSL) (h : CryptoHasher) (class_name : string) : string :=
  "C" +:+ Str.substr (Hasher.generateHash ssl h class_name "class") 0 10.

Definition method_token (ssl : OpenSSL) (h : CryptoHasher) (method_name : string) : string :=
  "M" +:+ Str.substr (Hasher.generateHash ssl h method_name "method") 0 10.

(** A cache only ever holds the token of its key. *)
Definition cache_ok (token : string -> string) (cache : gmap string string) : Prop :=
  forall k v, cache !! k = Some v -> v = token k.

Definition caches_ok (ssl : OpenSSL) (h : CryptoHasher) (m : CppMangler) : Prop :=
  cache_ok (namespace_token ssl h) (namespace_cache_ m)
  /\ cache_ok (class_token ssl h) (class_cache_ m)
  /\ cache_ok (method_token ssl h) (method_cache_ m).

(** The length-prefixed token of a component that is present. *)
Definition component (present : bool) (token : string) : string :=
  if present then Mangler.encodeLengthPrefix token else "".

(** The text [reconstructMangled] builds, as a function of the parsed
    components alone. *)
Definition mangled_text (ssl : OpenSSL) (h : CryptoHasher) (c : CppSymbolComponents)
  : string :=
  if has_namespace c || has_class c then
    "_ZN"
    +:+ component (has_namespace c && negb (Str.empty (namespace_name c)))
          (namespace_token ssl h (namespace_name c))
    +:+ component (has_class c && negb (Str.empty (class_name c)))
          (class_token ssl h (class_name c))
    +:+ component (negb (Str.empty (method_name c)))
          (method_token ssl h (method_name c))
    +:+ "E" +:+ Mangler.encodeParameters (parameter_types c)
  else
    "_Z" +:+ Mangler.encodeLengthPrefix (Hasher.generateHash ssl h (method_name c) "")
    +:+ Mangler.encodeParameters (parameter_types c).

(** A name the codec sends through [reconstructMangled]. *)
Definition regular (c : CppSymbolComponents) : bool :=
  is_mangled c && negb (is_vtable c) && negb (is_typeinfo c) && negb (is_typeinfo_name c).

(** A host whose [__cxa_demangle] rejects the name it is given, as it
    does for a name that is not well-formed. *)
Definition rejecting_demangle : string -> option string := fun _ => None.

(** Regular expressions, matched by derivatives; enough to write the
    patterns of the scenarios. *)
Inductive regex : Type :=
| Void
| Eps
| Class (p : ascii -> bool)
| Cat (r1 r2 : regex)
| Alt (r1 r2 : regex)
| Star (r : regex).

Fixpoint nullable (r : regex) : bool :=
  match r with
  | Void => false
  | Eps => true
  | Class _ => false
  | Cat r1 r2 => nullable r1 && nullable r2
  | Alt r1 r2 => nullable r1 || nullable r2
  | Star _ => true
  end.

Fixpoint deriv (c : ascii) (r : regex) : regex :=
  match r with
  | Void => Void
  | Eps => Void
  | Class p => if p c then Eps else Void
  | Cat r1 r2 =>
      if nullable r1 then Alt (Cat (deriv c r1) r2) (deriv c r2)
      else Cat (deriv c r1) r2
  | Alt r1 r2 => Alt (deriv c r1) (deriv c r2)
  | Star r' => Cat (deriv c r') (Star r')
  end.

Fixpoint matches (r : regex) (s : string) : bool :=
  match s with
  | EmptyString => nullable r
  | String c s' => matches (deriv c r) s'
  end.

Fixpoint lit (s : string) : regex :=
  match s with
  | EmptyString => Eps
  | String c s' => Cat (Class (Ascii.eqb c)) (lit s')
  end.

Definition plus (r : regex) : regex := Cat r (Star r).

Fixpoint times (n : nat) (r : regex) : regex :=
  match n with
  | O => Eps
  | S n' => Cat r (times n' r)
  end.

(** [^_ZN[0-9]+C[0-9a-f]{10}[0-9]+M[0-9a-f]{10}Ev$], the pattern of
    scenario S4. *)
Definition S4_pattern : regex :=
  Cat (lit "_ZN")
   (Cat (plus (Class Str.isdigit))
     (Cat (lit "C")
       (Cat (times 10 (Class is_lower_hex))
         (Cat (plus (Class Str.isdigit))
           (Cat (lit "M")
             (Cat (times 10 (Class is_lower_hex)) (lit "Ev"))))))).

(** [n] lower-case hexadecimal digits. *)
Definition hex_of_length (n : nat) (s : string) : Prop :=
  String.length s = n /\ Str.all is_lower_hex s = true.

(** The length-prefixed method token of a name, [11M] and ten
    hexadecimal digits, or nothing when [method_name] is empty. *)
Definition method_part (method_name : string) (t : string) : Prop :=
  if Str.empty method_name then t = ""
  else exists h10, hex_of_length 10 h10 /\ t = "11M" +:+ h10.

(** A module that defines the two overloads [ns::Cls::foo()] and
    [ns::Cls::foo(int)] and nothing else. *)
Definition overloads_module : Module_ :=
  {| module_name := "overloads"; source_file_name := "overloads.cpp";
     functions := [("_ZN2ns3Cls3fooEv", false); ("_ZN2ns3Cls3fooEi", false)];
     globals := []; aliases := [] |}.

(** The values a [SymbolMapping] can hold in its numeric fields:
    [uint64_t], [size_t] and [int]. *)
Definition well_typed (m : SymbolMapping) : Prop :=
  0 <= address m < 2 ^ 64
  /\ 0 <= size m < 2 ^ 64
  /\ JsonValue.int_min <= line_number m <= JsonValue.int_max.

(** The top-level fields of a mapping document. *)
Definition has_fields (present absent : list string) (document : Json) : Prop :=
  Forall (fun key => JsonValue.isMember key document = true) present
  /\ Forall (fun key => JsonValue.isMember key document = false) absent.

(** *** The whole-identifier rule of the text rewriter *)

(** Is the first character there, and an identifier character? *)
Definition identifier_head (code : text) : bool :=
  match code with
  | c :: _ => Rewriter.isIdentifierChar c
  | [] => false
  end.

(** A mapped original name: not empty, made of identifier characters. *)
Definition is_word (w : text) : Prop :=
  w <> [] /\ Forall (fun c => Rewriter.isIdentifierChar c = true) w.

(** The rule in the words of the specification, read off the input text
    alone. The text is walked once from the left. At a position where
    [original] starts, the occurrence is replaced by [obfuscated] iff the
    character before it (if any) and the character after it (if any) are
    not identifier characters; the walk then goes on after the
    occurrence. Everything else is copied. [before] tells whether the
    character before the position is an identifier character, [skip] how
    many characters of a replaced occurrence are still to be passed. The
    text put in is never looked at. *)
Fixpoint rewrite_words (original obfuscated : text) (before : bool) (skip : nat)
    (code : text) : text :=
  match code with
  | [] => []
  | c :: rest =>
      match skip with
      | S k =>
          rewrite_words original obfuscated (Rewriter.isIdentifierChar c) k rest
      | O =>
          if Rewriter.starts_with original code
             && negb before
             && negb (identifier_head (skipn (length original) code))
          then obfuscated
               ++ rewrite_words original obfuscated (Rewriter.isIdentifierChar c)
                    (length original - 1) rest
          else c :: rewrite_words original obfuscated (Rewriter.isIdentifierChar c) O rest
      end
  end.

(** One such walk per pair, in the order of the list. *)
Definition rewrite_all (pairs : list (string * string)) (code : text) : text :=
  fold_left (fun code '(original, obfuscated) =>
               rewrite_words (list_ascii_of_string original)
                 (list_ascii_of_string obfuscated) false O code)
            pairs code.

(** The two boundary conditions of a match of length [len] at [pos]. *)
Definition boundaries_free (code : text) (pos len : nat) : Prop :=
  (pos = O \/ forall c, code !! (pos - 1)%nat = Some c -> Rewriter.isIdentifierChar c = false)
  /\ (forall c, code !! (pos + len)%nat = Some c -> Rewriter.isIdentifierChar c = false).

(** [a] comes before [b] in descending order of the length of the original. *)
Definition not_shorter (a b : string * string) : Prop :=
  (String.length (fst b) <= String.length (fst a))%nat.

(** A source file that defines [validate_password] and a function that
    bears the name the hasher gives [validate_password] under
    [siphash_config TYPED 12 "k"]; what the two declaration patterns of
    the scanner find in it; and the answer of [std::regex_search] for
    these two names, which none of the four default patterns matches. *)
Definition two_functions_source : string :=
  "int validate_password(int x) { return x; } int f_ff3ce83f05ab(int x) { return validate_password(x); }".

Definition two_functions_function_matches (source_code : string) : list string :=
  ["validate_password"; "f_ff3ce83f05ab"].

Definition two_functions_variable_matches (source_code : string) : list string := [].

Definition no_pattern_matches (subject pattern : string) : bool := false.

Definition two_functions_config : ObfuscationConfig :=
  {| preserve_symbols := preserve_symbols ObfuscationConfig_default;
     preserve_patterns := preserve_patterns ObfuscationConfig_default;
     aggressive_static := true; obfuscate_strings := false;
     generate_map := false; map_file_path := "symbol_map.json";
     hash_config := siphash_config TYPED 12 "k" |}.

(** The calls a client makes on one hasher instance. *)
Inductive call : Type :=
| call_generateUniqueHash (name : string) (used_hashes : gset string) (prefix : string)
| call_hashFunction (name : string)
| call_hashVariable (name : string)
| call_hashClass (name : string)
| call_hashNamespace (name : string).

Definition run_call (ssl : OpenSSL) (c : call) : M CryptoHasher string :=
  match c with
  | call_generateUniqueHash name used_hashes prefix =>
      let! r := Hasher.generateUniqueHash ssl name used_hashes prefix in ret (fst r)
  | call_hashFunction name => Hasher.hashFunction ssl name
  | call_hashVariable name => Hasher.hashVariable ssl name
  | call_hashClass name => Hasher.hashClass ssl name
  | call_hashNamespace name => Hasher.hashNamespace ssl name
  end.

(** A prefix handed to [generateUniqueHash] is empty or an identifier, as
    at every call site ("f_", "v_", "C_", "N_", "a_", ""); with the empty
    prefix the style is not [TYPED], as in the typed entry points. *)
Definition prefix_ok (h : CryptoHasher) (c : call) : bool :=
  match c with
  | call_generateUniqueHash _ _ prefix =>
      if Str.empty prefix
      then match prefix_style (config_ h) with TYPED => false | _ => true end
      else is_c_identifier prefix
  | _ => true
  end.

(** The first entry comes before the second in a walk over a
    [std::map]. *)
Definition key_before {A} (a b : string * A) : Prop :=
  StdMap.less (fst a) (fst b) = true.

(** Does the string start with a decimal digit? *)
Definition starts_with_digit (s : string) : bool :=
  match s with
  | String c _ => Str.isdigit c
  | EmptyString => false
  end.

(** A call that passes no prefix of its own: a typed entry point, or
    [generateUniqueHash] with the empty prefix. *)
Definition no_prefix (c : call) : bool :=
  match c with
  | call_generateUniqueHash _ _ prefix => Str.empty prefix
  | _ => true
  end.

(** A run of an instance: calls, in between which the salt may be set.
    The identifiers returned by the calls that succeed are collected in
    order; a call that throws leaves the instance usable. *)
Inductive use : Type :=
| use_call (c : call)
| use_setSalt (salt : string).

Fixpoint run_uses (ssl : OpenSSL) (us : list use) (h : CryptoHasher)
  : list string * CryptoHasher :=
  match us with
  | [] => ([], h)
  | use_setSalt s :: rest => run_uses ssl rest (Hasher.setSalt s h)
  | use_call c :: rest =>
      match run_call ssl c h with
      | (Ok r, h') => let '(rs, h'') := run_uses ssl rest h' in (r :: rs, h'')
      | (_, h') => run_uses ssl rest h'
      end
  end.

End Spec.

(* ===================================================================== *)
(** ** Definitions used to state the further properties                  *)
(* ===================================================================== *)

Module Laws.

(** The same hasher with another [hash_length]. *)
Definition with_hash_length (n : nat) (h : CryptoHasher) : CryptoHasher :=
  {| config_ := {| algorithm := algorithm (config_ h);
                   prefix_style := prefix_style (config_ h);
                   hash_length := n;
                   global_salt := global_salt (config_ h);
                   deterministic := deterministic (config_ h) |};
     used_hashes_ := used_hashes_ h |}.

(** The number of digits [generateHash] returns. *)
Definition digits (h : CryptoHasher) : nat :=
  Nat.min (hash_length (config_ h)) (Spec.full_length (algorithm (config_ h))).

(** One of the four typed entry points. *)
Definition typed_entry (c : Spec.call) : bool :=
  match c with Spec.call_generateUniqueHash _ _ _ => false | _ => true end.

(** The scanned names the driver renames: those [shouldPreserve] rejects. *)
Definition renamed (regex_search : string -> string -> bool) (o : CSymbolObfuscator)
    (symbols : list SymbolMapping) : list string :=
  List.filter (fun name => negb (CObfuscator.shouldPreserve regex_search o name))
              (map original_name symbols).

(** Does the string start with a character that is not a digit? The
    empty string does not start at all. *)
Definition starts_without_digit (s : string) : bool :=
  match s with
  | String c _ => negb (Str.isdigit c)
  | EmptyString => false
  end.

(** What may follow a length-prefixed name: nothing, or a character that
    is not a digit. *)
Definition ends_digits (rest : string) : bool :=
  match rest with
  | String c _ => negb (Str.isdigit c)
  | EmptyString => true
  end.

(** The number of digits a string starts with, and the longest run of
    digits in it. *)
Fixpoint digit_run (s : string) : nat :=
  match s with
  | String c s' => if Str.isdigit c then S (digit_run s') else O
  | EmptyString => O
  end.

Fixpoint longest_digit_run (s : string) : nat :=
  match s with
  | String c s' => Nat.max (digit_run s) (longest_digit_run s')
  | EmptyString => O
  end.

(** Length-prefixed names, one after the other. *)
Definition length_prefixed (names : list string) : string :=
  fold_right (fun name rest => Mangler.encodeLengthPrefix name +:+ rest) "" names.

(** What [parse] holds before it enters the loop over the nested names. *)
Definition nested_start (demangled : string) : CppSymbolComponents :=
  CppDemangler.set_has_namespace true
    (CppDemangler.set_method_name demangled
       (CppDemangler.set_prefix "_Z"
          (CppDemangler.set_is_mangled true CppSymbolComponents_default))).

(** The loop over the nested names, on the names themselves. *)
Definition assign_all (names : list string) (c : CppSymbolComponents)
  : CppSymbolComponents :=
  fold_left (fun c name => CppDemangler.assign_component name c) names c.

(** The tokens [reconstructMangled] writes for a nested name. *)
Definition tokens (ssl : OpenSSL) (h : CryptoHasher) (c : CppSymbolComponents)
  : list string :=
  (if has_namespace c && negb (Str.empty (namespace_name c))
   then [Spec.namespace_token ssl h (namespace_name c)] else [])
  ++ (if has_class c && negb (Str.empty (class_name c))
      then [Spec.class_token ssl h (class_name c)] else [])
  ++ (if negb (Str.empty (method_name c))
      then [Spec.method_token ssl h (method_name c)] else []).

(** The name the codec gives a vtable symbol and a type-info symbol
    that is not in [mapping_], as a function of the symbol alone. *)
Definition vtable_text (ssl : OpenSSL) (h : CryptoHasher) (vtable_symbol : string)
  : string :=
  let rest := Str.substr_from vtable_symbol 4 in
  let '(len, pos) := CppDemangler.read_length rest 0 0 in
  if (0 <? len) && (SipHasher.u64 (pos + len) <=? Z.of_nat (String.length rest))
  then "_ZTV" +:+ Mangler.encodeLengthPrefix
                    (Spec.class_token ssl h (Str.substr_z rest pos len))
  else "_ZTV" +:+ Hasher.generateHash ssl h vtable_symbol "vtable".

Definition typeinfo_text (ssl : OpenSSL) (h : CryptoHasher) (typeinfo_symbol : string)
  : string :=
  Str.substr typeinfo_symbol 0 4
  +:+ Str.substr (Hasher.generateHash ssl h typeinfo_symbol "typeinfo") 0 10.

(** What [obfuscateCppSymbol] answers, as a function of the name and of
    the configuration of the hasher alone. *)
Definition codec_name (ssl : OpenSSL) (cxa_demangle : string -> option string)
    (h : CryptoHasher) (mangled_name : string) : outcome string :=
  match CppDemangler.parse cxa_demangle mangled_name with
  | None => Diverge
  | Some components =>
      if negb (is_mangled components) then Ok mangled_name
      else if is_vtable components then Ok (vtable_text ssl h mangled_name)
      else if is_typeinfo components || is_typeinfo_name components
      then Ok (typeinfo_text ssl h mangled_name)
      else Ok (Spec.mangled_text ssl h components)
  end.

(** The caches and [mapping_] hold nothing but answers of that
    function. *)
Definition memo_ok (ssl : OpenSSL) (cxa_demangle : string -> option string)
    (h : CryptoHasher) (m : CppMangler) : Prop :=
  Spec.caches_ok ssl h m
  /\ forall k v, mapping_ m !! k = Some v -> codec_name ssl cxa_demangle h k = Ok v.

(** What a run of the pass reads but never writes after its first step:
    the switches, the salt, the configuration of the hasher and the
    preserve set. *)
Definition settings (p : SymbolObfuscationPass) :=
  (preserve_main_ p, preserve_stdlib_ p, obfuscate_globals_ p, generate_map_ p,
   map_file_path_ p, salt_ p, config_ (pass_hasher_ p), preserve_symbols_ p).

(** A later state of the pass: same settings, and no key of [mapping_]
    is lost. *)
Definition later (p p' : SymbolObfuscationPass) : Prop :=
  settings p' = settings p
  /\ forall k, is_Some (pass_mapping_ p !! k) -> is_Some (pass_mapping_ p' !! k).

(** What the loops of the pass do to one function or global variable
    (its name and [isDeclaration()]): a declaration and a preserved
    definition keep their names, any other definition is entered in
    [mapping_]. *)
Definition kept_or_mapped (p p' : SymbolObfuscationPass)
    (entity entity' : string * bool) : Prop :=
  snd entity' = snd entity
  /\ if snd entity || Pass.shouldPreserve p (fst entity)
     then fst entity' = fst entity
     else is_Some (pass_mapping_ p' !! fst entity).

(** The same for an alias. *)
Definition alias_kept_or_mapped (p p' : SymbolObfuscationPass)
    (name name' : string) : Prop :=
  if Pass.shouldPreserve p name then name' = name
  else is_Some (pass_mapping_ p' !! name).

(** The names in [mapping_] of the pass are names its hasher has given
    out, and no two keys share one. *)
Definition mapping_injective (p : SymbolObfuscationPass) : Prop :=
  (forall k v, pass_mapping_ p !! k = Some v -> v ∈ used_hashes_ (pass_hasher_ p))
  /\ (forall k1 k2 v,
        pass_mapping_ p !! k1 = Some v -> pass_mapping_ p !! k2 = Some v -> k1 = k2).

(** A number, a string or an array: a value that has no members, on
    which [operator[]] with a key throws. *)
Definition has_no_members (v : Json) : bool :=
  match v with
  | JNumber _ | JString _ | JArray _ => true
  | JNull | JObject _ => false
  end.

End Laws.

(* ===================================================================== *)
(** * Properties                                                         *)
(* ===================================================================== *)

(** ** Strings *)

Lemma length_append (a b : string) :
  String.length (a +:+ b) = (String.length a + String.length b)%nat.
Proof. induction a as [|c a IH]; simpl; [reflexivity | now rewrite IH]. Qed.

Lemma all_append p (a b : string) :
  Str.all p (a +:+ b) = Str.all p a && Str.all p b.
Proof.
  induction a as [|c a IH]; simpl; [reflexivity|].
  rewrite IH. now rewrite andb_assoc.
Qed.

Lemma all_substring p (s : string) : forall pos len,
  Str.all p s = true -> Str.all p (String.substring pos len s) = true.
Proof.
  induction s as [|c s IH]; intros pos len Hs.
  - now destruct pos, len.
  - simpl in Hs. apply andb_prop in Hs as [Hc Hs].
    destruct pos as [|pos]; destruct len as [|len]; simpl; auto.
    now rewrite Hc, IH.
Qed.

Lemma length_substring_0 (s : string) : forall len,
  String.length (String.substring 0 len s) = Nat.min len (String.length s).
Proof.
  induction s as [|c s IH]; intros [|len]; simpl; auto.
Qed.

Lemma all_impl (p q : ascii -> bool) (s : string) :
  (forall c, p c = true -> q c = true) -> Str.all p s = true -> Str.all q s = true.
Proof.
  intros Hpq. induction s as [|c s IH]; simpl; [reflexivity|].
  intros H. apply andb_prop in H as [Hc Hs]. now rewrite (Hpq _ Hc), IH.
Qed.

(** ** Hexadecimal output *)

Lemma hex_digit_lower_hex (n : nat) :
  (n < 16)%nat -> Spec.is_lower_hex (Hasher.hex_digit n) = true.
Proof.
  intros Hn.
  do 16 (destruct n as [|n]; [reflexivity|]). lia.
Qed.

Lemma lower_hex_identifier_char (c : ascii) :
  Spec.is_lower_hex c = true -> Rewriter.isIdentifierChar c = true.
Proof.
  destruct c as [[] [] [] [] [] [] [] []]; vm_compute; intros H;
    first [reflexivity | discriminate H].
Qed.

Lemma lower_hex_start_or_digit (c : ascii) :
  Spec.is_lower_hex c = true ->
  Str.isdigit c = false -> Spec.is_identifier_start c = true.
Proof.
  destruct c as [[] [] [] [] [] [] [] []]; vm_compute; intros H H';
    first [reflexivity | discriminate H | discriminate H'].
Qed.

Lemma hexEncode_hex (data : list byte) :
  Str.all Spec.is_lower_hex (Hasher.hexEncode data) = true.
Proof.
  induction data as [|b data IH]; [reflexivity|].
  assert (Hb : (N.to_nat (Byte.to_N b) < 256)%nat).
  { pose proof (Byte.to_N_bounded b). lia. }
  cbn [Hasher.hexEncode Str.all].
  rewrite !hex_digit_lower_hex, IH; try reflexivity.
  - apply Nat.mod_upper_bound. lia.
  - apply Nat.Div0.div_lt_upper_bound. lia.
Qed.

Lemma hexEncode_length (data : list byte) :
  String.length (Hasher.hexEncode data) = (2 * length data)%nat.
Proof. induction data as [|b data IH]; simpl; [reflexivity|]. rewrite IH. lia. Qed.

Lemma hex_fixed_hex (digits : nat) : forall x,
  Str.all Spec.is_lower_hex (Hasher.hex_fixed digits x) = true.
Proof.
  induction digits as [|d IH]; intros x; [reflexivity|].
  cbn [Hasher.hex_fixed].
  rewrite all_append, IH. cbn [Str.all andb]. rewrite hex_digit_lower_hex; [reflexivity|].
  pose proof (Z.mod_pos_bound x 16). lia.
Qed.

Lemma hex_fixed_length (digits : nat) : forall x,
  String.length (Hasher.hex_fixed digits x) = digits.
Proof.
  induction digits as [|d IH]; intros x; simpl; [reflexivity|].
  rewrite length_append, IH. simpl. lia.
Qed.

(** ** The hasher *)

Section HasherProperties.
Variable ssl : OpenSSL.

Lemma truncateHash_length (full_hash : string) (n : nat) :
  String.length (Hasher.truncateHash full_hash n) = Nat.min n (String.length full_hash).
Proof.
  unfold Hasher.truncateHash, Str.substr.
  destruct (Nat.leb_spec (String.length full_hash) n).
  - lia.
  - apply length_substring_0.
Qed.

Lemma truncateHash_all p (full_hash : string) (n : nat) :
  Str.all p full_hash = true -> Str.all p (Hasher.truncateHash full_hash n) = true.
Proof.
  unfold Hasher.truncateHash, Str.substr. intros H.
  destruct (String.length full_hash <=? n)%nat; [assumption|].
  now apply all_substring.
Qed.

Lemma generateHash_length (h : CryptoHasher) (name context : string) :
  String.length (Hasher.generateHash ssl h name context)
  = Nat.min (hash_length (config_ h)) (Spec.full_length (algorithm (config_ h))).
Proof.
  unfold Hasher.generateHash. rewrite truncateHash_length. f_equal.
  destruct (algorithm (config_ h)); simpl.
  - unfold Hasher.sha256Hash. now rewrite hexEncode_length, SHA256_DIGEST_LENGTH.
  - unfold Hasher.blake2bHash. now rewrite hexEncode_length, EVP_blake2b512_size.
  - unfold Hasher.sipHash.
    destruct (Str.empty (global_salt (config_ h))); apply hex_fixed_length.
Qed.

Lemma generateHash_hex (h : CryptoHasher) (name context : string) :
  Str.all Spec.is_lower_hex (Hasher.generateHash ssl h name context) = true.
Proof.
  unfold Hasher.generateHash. apply truncateHash_all.
  destruct (algorithm (config_ h)).
  - apply hexEncode_hex.
  - apply hexEncode_hex.
  - unfold Hasher.sipHash.
    destruct (Str.empty (global_salt (config_ h))); apply hex_fixed_hex.
Qed.

(** *** The collision loop against the rule of the specification *)

Lemma find_free_cons (h : CryptoHasher) (used : gset string) (c : string) (l : list string) :
  List.find (fun c => negb (Spec.taken h used c)) (c :: l)
  = if Spec.taken h used c then List.find (fun c => negb (Spec.taken h used c)) l
    else Some c.
Proof. simpl. now destruct (Spec.taken h used c). Qed.

Lemma collision_loop_find (h : CryptoHasher) (name prefix : string) (used : gset string) :
  forall (n : nat) (fuel : nat) (counter : Z) (full_name : string),
    0 <= counter ->
    counter + Z.of_nat n = 10000 ->
    (n < fuel)%nat ->
    Hasher.collision_loop ssl fuel h name prefix used counter full_name
    = Some (match List.find (fun c => negb (Spec.taken h used c))
                    (full_name :: map (fun c => Hasher.candidate ssl h name prefix (Some c))
                                     (Spec.counters_from (Z.to_nat counter) n)) with
            | Some r => Ok r
            | None => Throw (Hasher.too_many_collisions name)
            end).
Proof.
  induction n as [|n IH]; intros fuel counter full_name Hc Hn Hfuel;
    rewrite find_free_cons; destruct fuel as [|fuel]; try lia;
    cbn [Hasher.collision_loop]; fold (Spec.taken h used full_name);
    destruct (Spec.taken h used full_name); try reflexivity.
  - (* the counter is 10000: the next step throws *)
    assert (counter = 10000) as -> by lia. reflexivity.
  - destruct (Z.ltb_spec 10000 (counter + 1)); [lia|].
    rewrite (IH fuel (counter + 1)); try lia.
    unfold Spec.counters_from. cbn [seq map].
    rewrite Z2Nat.id by lia.
    replace (Z.to_nat (counter + 1)) with (S (Z.to_nat counter)) by lia.
    reflexivity.
Qed.

Lemma generateUniqueHash_unique (name : string) (used : gset string) (prefix : string)
    (h : CryptoHasher) :
  Hasher.generateUniqueHash ssl name used prefix h = Spec.unique ssl name used prefix h.
Proof.
  unfold Hasher.generateUniqueHash, Spec.unique, Spec.candidates.
  rewrite (collision_loop_find h name prefix used (Z.to_nat 10000));
    [| lia | lia | unfold Hasher.collision_fuel; lia].
  change (Z.to_nat 0) with 0%nat.
  destruct (List.find _ _); reflexivity.
Qed.

(** *** What a successful call leaves behind *)

Lemma unique_inv (name : string) (used : gset string) (prefix : string)
    (h h' : CryptoHasher) (o : outcome (string * gset string)) :
  Hasher.generateUniqueHash ssl name used prefix h = (o, h') ->
  match o with
  | Ok (r, used') =>
      (r ∈ Spec.candidates ssl h name prefix) /\
      (r ∉ used) /\ (r ∉ used_hashes_ h) /\
      used' = {[r]} ∪ used /\
      used_hashes_ h' = {[r]} ∪ used_hashes_ h /\ config_ h' = config_ h
  | _ => h' = h
  end.
Proof.
  rewrite generateUniqueHash_unique. unfold Spec.unique.
  destruct (List.find _ _) as [r|] eqn:Hfind; intros [= <- <-]; [|reflexivity].
  apply find_some in Hfind as [Hin Hfree].
  apply negb_true_iff, orb_false_elim in Hfree as [H1 H2].
  apply bool_decide_eq_false in H1, H2.
  repeat split; try assumption. now apply list_elem_of_In.
Qed.

Lemma run_call_inv (c : Spec.call) (h h' : CryptoHasher) (o : outcome string) :
  Spec.run_call ssl c h = (o, h') ->
  match o with
  | Ok r => (r ∉ used_hashes_ h) /\ used_hashes_ h' = {[r]} ∪ used_hashes_ h
            /\ config_ h' = config_ h
  | _ => h' = h
  end.
Proof.
  assert (Hgen : forall name used prefix,
    (let! r := Hasher.generateUniqueHash ssl name used prefix in ret (fst r)) h = (o, h') ->
    match o with
    | Ok r => (r ∉ used_hashes_ h) /\ used_hashes_ h' = {[r]} ∪ used_hashes_ h
              /\ config_ h' = config_ h
    | _ => h' = h
    end).
  { intros name used prefix. unfold bind, ret.
    destruct (Hasher.generateUniqueHash ssl name used prefix h) as [o1 h1] eqn:E.
    apply unique_inv in E.
    destruct o1 as [[r used']| |]; intros [= <- <-]; [|assumption..].
    simpl. tauto. }
  destruct c; simpl; apply Hgen.
Qed.

Lemma run_uses_inv (us : list Spec.use) : forall (h : CryptoHasher),
  let '(rs, h') := Spec.run_uses ssl us h in
  NoDup rs /\
  used_hashes_ h ⊆ used_hashes_ h' /\
  (forall r, r ∈ rs -> (r ∉ used_hashes_ h) /\ (r ∈ used_hashes_ h')).
Proof.
  induction us as [|[c|s] us IH]; intros h; cbn [Spec.run_uses].
  - split; [constructor|]. split; [reflexivity|]. intros r Hr. inversion Hr.
  - destruct (Spec.run_call ssl c h) as [o h1] eqn:E.
    apply run_call_inv in E.
    destruct o as [r| |].
    + destruct E as (Hfresh & Hused & _).
      specialize (IH h1). destruct (Spec.run_uses ssl us h1) as [rs h2].
      destruct IH as (Hnd & Hsub & Hrs).
      split; [|split].
      * constructor; [|assumption]. intros Hin. apply Hrs in Hin as [Hin _].
        apply Hin. rewrite Hused. apply elem_of_union_l, elem_of_singleton. reflexivity.
      * intros x Hx. apply Hsub. rewrite Hused. now apply elem_of_union_r.
      * intros r' Hr'. apply elem_of_cons in Hr' as [->|Hr'].
        -- split; [assumption|]. apply Hsub. rewrite Hused.
           apply elem_of_union_l, elem_of_singleton. reflexivity.
        -- apply Hrs in Hr' as [Hn Hi]. split; [|assumption].
           intros Hx. apply Hn. rewrite Hused. now apply elem_of_union_r.
    + subst h1. apply IH.
    + subst h1. apply IH.
  - specialize (IH (Hasher.setSalt s h)).
    destruct (Spec.run_uses ssl us (Hasher.setSalt s h)) as [rs h2].
    exact IH.
Qed.

End HasherProperties.

(** *** Uniqueness and validity of the identifiers *)


Lemma find_all_false {A} (f : A -> bool) (l : list A) :
  (forall k y, l !! k = Some y -> f y = false) -> List.find f l = None.
Proof.
  induction l as [|a l IH]; intros H; [reflexivity|]. simpl.
  rewrite (H 0%nat a) by reflexivity. apply IH. intros k y Hy. exact (H (S k) y Hy).
Qed.




(** C10. On one hasher instance, whatever calls are made and whenever the
    salt is reset in between, the identifiers returned by the successful
    calls are pairwise distinct; none of them was in [used_hashes_]
    before the run and all are in it afterwards; [used_hashes_] only
    grows. Two successive successful calls, in particular two calls of
    the same entry point with the same name, return different
    identifiers. *)
Theorem used_hashes_monotone_and_fresh (ssl : OpenSSL) (h : CryptoHasher) :
  (forall us : list Spec.use,
     let '(rs, h') := Spec.run_uses ssl us h in
     NoDup rs /\
     used_hashes_ h ⊆ used_hashes_ h' /\
     (forall r, r ∈ rs -> (r ∉ used_hashes_ h) /\ (r ∈ used_hashes_ h')))
  /\ (forall (c1 c2 : Spec.call) (r1 r2 : string) (h1 h2 : CryptoHasher),
        Spec.run_call ssl c1 h = (Ok r1, h1) ->
        Spec.run_call ssl c2 h1 = (Ok r2, h2) ->
        r1 <> r2 /\ (r1 ∈ used_hashes_ h2) /\ (r2 ∈ used_hashes_ h2)).
Proof.
  split.
  - intros us. apply run_uses_inv.
  - intros c1 c2 r1 r2 h1 h2 E1 E2.
    apply run_call_inv in E1 as (_ & Hu1 & _).
    apply run_call_inv in E2 as (Hf2 & Hu2 & _).
    assert (Hr1 : r1 ∈ used_hashes_ h1).
    { rewrite Hu1. apply elem_of_union_l, elem_of_singleton. reflexivity. }
    split; [|split].
    + intros ->. contradiction.
    + rewrite Hu2. now apply elem_of_union_r.
    + rewrite Hu2. apply elem_of_union_l, elem_of_singleton. reflexivity.
Qed.

Lemma is_c_identifier_append (p s : string) :
  Spec.is_c_identifier p = true ->
  Str.all Rewriter.isIdentifierChar s = true ->
  Spec.is_c_identifier (p +:+ s) = true.
Proof.
  destruct p as [|c p]; [discriminate|]. simpl.
  intros H Hs. apply andb_prop in H as [Hc Hp].
  now rewrite Hc, all_append, Hp, Hs.
Qed.

(** The prefix rule on a non-empty hexadecimal hash gives an identifier,
    for a prefix that is an identifier, or empty under a style other than
    [TYPED]. *)
Lemma applyPrefix_identifier (h : CryptoHasher) (hash prefix : string) :
  Str.all Spec.is_lower_hex hash = true ->
  (0 < String.length hash)%nat ->
  (if Str.empty prefix
   then match prefix_style (config_ h) with TYPED => false | _ => true end
   else Spec.is_c_identifier prefix) = true ->
  Spec.is_c_identifier (Hasher.applyPrefix h hash prefix) = true.
Proof.
  intros Hhex Hlen Hprefix.
  assert (Hid : Str.all Rewriter.isIdentifierChar hash = true).
  { apply (all_impl Spec.is_lower_hex); [apply lower_hex_identifier_char | assumption]. }
  unfold Hasher.applyPrefix.
  destruct (Str.empty prefix) eqn:Hempty; cbn [negb].
  - destruct (prefix_style (config_ h)); try discriminate.
    + destruct hash as [|c hash]; [simpl in Hlen; lia|].
      destruct (Str.isdigit c) eqn:Hd.
      * now apply is_c_identifier_append.
      * simpl in *. apply andb_prop in Hhex as [Hc _].
        apply andb_prop in Hid as [_ Hid].
        now rewrite (lower_hex_start_or_digit c Hc Hd), Hid.
    + now apply is_c_identifier_append.
  - now apply is_c_identifier_append.
Qed.

Lemma candidates_form (ssl : OpenSSL) (h : CryptoHasher) (name prefix r : string) :
  r ∈ Spec.candidates ssl h name prefix ->
  exists input, r = Hasher.applyPrefix h (Hasher.generateHash ssl h input "") prefix.
Proof.
  unfold Spec.candidates. intros Hr. apply elem_of_cons in Hr as [->|Hr].
  - now exists name.
  - apply list_elem_of_In, in_map_iff in Hr as (c & <- & _).
    now exists (name +:+ "_" +:+ Str.to_string c).
Qed.

Lemma unique_form (ssl : OpenSSL) (h h' : CryptoHasher) (name prefix r : string)
    (used : gset string) :
  (let! x := Hasher.generateUniqueHash ssl name used prefix in ret (fst x)) h = (Ok r, h') ->
  exists input, r = Hasher.applyPrefix h (Hasher.generateHash ssl h input "") prefix.
Proof.
  unfold bind, ret.
  destruct (Hasher.generateUniqueHash ssl name used prefix h) as [[[r1 used']| |] h1] eqn:E;
    intros [= <- <-].
  apply unique_inv in E as (Hr & _). now apply candidates_form in Hr.
Qed.

(** What a call returns is the rule for the prefix applied to the digits
    of a hash, with the prefix the call passes on. *)
Lemma run_call_form (ssl : OpenSSL) (c : Spec.call) (h h' : CryptoHasher) (r : string) :
  Spec.run_call ssl c h = (Ok r, h') ->
  exists input prefix,
    r = Hasher.applyPrefix h (Hasher.generateHash ssl h input "") prefix
    /\ match c with
       | Spec.call_generateUniqueHash _ _ given => prefix = given
       | _ => exists p, prefix = Hasher.typed_prefix h p /\ Spec.is_c_identifier p = true
       end.
Proof.
  destruct c as [name used prefix|name|name|name|name]; cbn [Spec.run_call];
    unfold Hasher.hashFunction, Hasher.hashVariable, Hasher.hashClass,
      Hasher.hashNamespace, Hasher.with_temp_set;
    intros Hrun; apply unique_form in Hrun as [input ->];
    exists input; eexists; (split; [reflexivity|]);
    [reflexivity | eexists; split; reflexivity ..].
Qed.

(** C9, as the code has it. With a [hash_length] of at least one, a
    call on the hasher returns a C identifier [[A-Za-z_][A-Za-z0-9_]*]
    when it is one of the four typed entry points, or
    [generateUniqueHash] with a prefix that is an identifier or, under a
    style other than [TYPED], empty. Under the style [NONE] a call that
    passes no prefix of its own returns "s_" followed by the digits of
    the hash when the first of them is a decimal digit, and the digits
    unchanged otherwise. A prefix that is passed to [generateUniqueHash]
    is put before the digits under every style. *)
Theorem emitted_identifiers_valid (ssl : OpenSSL) (h h' : CryptoHasher) (c : Spec.call)
    (r : string) :
  Spec.run_call ssl c h = (Ok r, h') ->
  exists hash : string,
    Spec.hex_of_length
      (Nat.min (hash_length (config_ h)) (Spec.full_length (algorithm (config_ h)))) hash
    /\ ((0 < hash_length (config_ h))%nat -> Spec.prefix_ok h c = true ->
        Spec.is_c_identifier r = true)
    /\ (prefix_style (config_ h) = NONE -> Spec.no_prefix c = true ->
        r = if Spec.starts_with_digit hash then "s_" +:+ hash else hash)
    /\ (forall name used prefix,
          c = Spec.call_generateUniqueHash name used prefix ->
          Str.empty prefix = false -> r = prefix +:+ hash).
Proof.
  intros Hrun. apply run_call_form in Hrun as (input & prefix & -> & Hprefix).
  exists (Hasher.generateHash ssl h input "").
  split; [split; [apply generateHash_length | apply generateHash_hex]|].
  split; [|split].
  - intros Hlen Hok. apply applyPrefix_identifier; [apply generateHash_hex | |].
    + rewrite generateHash_length. destruct (algorithm (config_ h)); simpl; lia.
    + destruct c; cbn [Spec.prefix_ok] in Hok; [now subst prefix|..];
        destruct Hprefix as (p & -> & Hp); unfold Hasher.typed_prefix;
        destruct (prefix_style (config_ h)); try reflexivity;
        (destruct p; [discriminate Hp | exact Hp]).
  - intros Hnone Hno.
    assert (Hempty : prefix = "").
    { destruct c; cbn [Spec.no_prefix] in Hno;
        [subst prefix; now destruct prefix0|..];
        destruct Hprefix as (p & -> & _); unfold Hasher.typed_prefix; now rewrite Hnone. }
    subst prefix. unfold Hasher.applyPrefix. cbn [Str.empty negb]. rewrite Hnone.
    now destruct (Hasher.generateHash ssl h input "").
  - intros name used given -> Hgiven. subst prefix.
    unfold Hasher.applyPrefix. now rewrite Hgiven.
Qed.

(** *** Runs on a SipHash configuration *)

Example siphash_reference_vector :
  SipHasher.hash "" SipHasher.k0_default SipHasher.k1_default = 0x726fdb47dd0e0e31.
Proof. vm_compute. reflexivity. Qed.

Example siphash_reference_vector_15 :
  SipHasher.hash (string_of_list_ascii (map ascii_of_nat (seq 0 15)))
    SipHasher.k0_default SipHasher.k1_default = 0xa129ca6149be45e5.
Proof. vm_compute. reflexivity. Qed.

(** Under [SIPHASH] no OpenSSL digest is called: the provider does not
    matter. *)
Lemma siphash_ignores_openssl (ssl ssl' : OpenSSL) (h : CryptoHasher) (name context : string) :
  algorithm (config_ h) = SIPHASH ->
  Hasher.generateHash ssl h name context = Hasher.generateHash ssl' h name context.
Proof. unfold Hasher.generateHash. now intros ->. Qed.

Example hashFunction_twice :
  let h := Hasher.new (siphash_config TYPED 12 "k") in
  let '(r1, h1) := Hasher.hashFunction zero_ssl "validate_password" h in
  let '(r2, h2) := Hasher.hashFunction zero_ssl "validate_password" h1 in
  r1 = Ok "f_ff3ce83f05ab" /\ r2 = Ok "f_bbc0b1458e25"
  /\ elements (used_hashes_ h2) = ["f_ff3ce83f05ab"; "f_bbc0b1458e25"].
Proof. vm_compute. auto. Qed.


Lemma used_hashes_monotone_and_fresh_witness :
  let h := Hasher.new (siphash_config TYPED 12 "k") in
  let c := Spec.call_hashFunction "validate_password" in
  let h1 := snd (Spec.run_call zero_ssl c h) in
  let h2 := snd (Spec.run_call zero_ssl c h1) in
  "f_ff3ce83f05ab" <> "f_bbc0b1458e25"
  /\ ("f_ff3ce83f05ab" ∈ used_hashes_ h2) /\ ("f_bbc0b1458e25" ∈ used_hashes_ h2).
Proof.
  intros h c h1 h2.
  apply (proj2 (used_hashes_monotone_and_fresh zero_ssl h) c c _ _ h1 h2).
  - vm_compute. reflexivity.
  - vm_compute. reflexivity.
Defined.

Lemma emitted_identifiers_valid_witness :
  fst (Spec.run_call zero_ssl (Spec.call_hashFunction "counter")
         (Hasher.new (siphash_config NONE 12 "k"))) = Ok "s_6966072322a4"
  /\ Spec.is_c_identifier "s_6966072322a4" = true.
Proof.
  split; [vm_compute; reflexivity|].
  destruct (emitted_identifiers_valid zero_ssl (Hasher.new (siphash_config NONE 12 "k"))
              (snd (Spec.run_call zero_ssl (Spec.call_hashFunction "counter")
                      (Hasher.new (siphash_config NONE 12 "k"))))
              (Spec.call_hashFunction "counter") "s_6966072322a4")
    as (hash & _ & Hvalid & _).
  - vm_compute. reflexivity.
  - apply Hvalid; [vm_compute; lia | reflexivity].
Defined.

(** C9 as stated fails at inputs the code accepts. With [hash_length]
    0, which the command line passes on unchecked, [hashFunction] under
    the style [NONE] returns the empty string. [generateUniqueHash]
    called without a prefix under the style [TYPED] returns the digits
    of the hash alone, here with a decimal digit first. Neither is a C
    identifier. *)
Lemma emitted_identifiers_counterexample :
  fst (Spec.run_call zero_ssl (Spec.call_hashFunction "validate_password")
         (Hasher.new (siphash_config NONE 0 "k"))) = Ok ""
  /\ Spec.is_c_identifier "" = false
  /\ fst (Spec.run_call zero_ssl (Spec.call_generateUniqueHash "counter" ∅ "")
            (Hasher.new (siphash_config TYPED 12 "k"))) = Ok "6966072322a4"
  /\ Spec.is_c_identifier "6966072322a4" = false.
Proof. vm_compute. repeat split. Qed.

(** ** The mangled-name codec *)

Lemma append_assoc (a b c : string) : (a +:+ b) +:+ c = a +:+ (b +:+ c).
Proof.
  induction a as [|x a IH]; [reflexivity|].
  change (String x ((a +:+ b) +:+ c) = String x (a +:+ (b +:+ c))). now rewrite IH.
Qed.

Section CodecProperties.
Variable ssl : OpenSSL.
Variable cxa_demangle : string -> option string.
Variable h : CryptoHasher.

Lemma cache_ok_insert (token : string -> string) (cache : gmap string string) (k : string) :
  Spec.cache_ok token cache -> Spec.cache_ok token (<[k := token k]> cache).
Proof.
  intros Hok k' v. rewrite lookup_insert. destruct (decide (k = k')) as [->|Hne].
  - now intros [= <-].
  - apply Hok.
Qed.

Lemma caches_ok_new : Spec.caches_ok ssl h Mangler.new.
Proof. repeat split; intros k v Hk; simpl in Hk; now rewrite lookup_empty in Hk. Qed.

(** Each component method returns the token of its argument, whether it
    finds it in its cache or computes it; it leaves [mapping_] alone. *)
Lemma obfuscateNamespace_token (ns : string) (m : CppMangler) :
  Spec.caches_ok ssl h m ->
  exists m', Mangler.obfuscateNamespace ssl h ns m = (Ok (Spec.namespace_token ssl h ns), m')
             /\ Spec.caches_ok ssl h m' /\ mapping_ m' = mapping_ m
             /\ class_cache_ m' = class_cache_ m
             /\ namespace_cache_ m' !! ns = Some (Spec.namespace_token ssl h ns).
Proof.
  intros (Hn & Hc & Hm). unfold Mangler.obfuscateNamespace.
  destruct (namespace_cache_ m !! ns) as [v|] eqn:E.
  - pose proof (Hn _ _ E) as ->. exists m. repeat split; assumption || reflexivity.
  - eexists. split; [reflexivity|]. repeat split; try assumption.
    + exact (cache_ok_insert (Spec.namespace_token ssl h) _ ns Hn).
    + apply lookup_insert_eq.
Qed.

Lemma obfuscateClassName_token (class_name : string) (m : CppMangler) :
  Spec.caches_ok ssl h m ->
  exists m', Mangler.obfuscateClassName ssl h class_name m
             = (Ok (Spec.class_token ssl h class_name), m')
             /\ Spec.caches_ok ssl h m' /\ mapping_ m' = mapping_ m
             /\ namespace_cache_ m' = namespace_cache_ m
             /\ class_cache_ m' !! class_name = Some (Spec.class_token ssl h class_name).
Proof.
  intros (Hn & Hc & Hm). unfold Mangler.obfuscateClassName.
  destruct (class_cache_ m !! class_name) as [v|] eqn:E.
  - pose proof (Hc _ _ E) as ->. exists m. repeat split; assumption || reflexivity.
  - eexists. split; [reflexivity|]. repeat split; try assumption.
    + exact (cache_ok_insert (Spec.class_token ssl h) _ class_name Hc).
    + apply lookup_insert_eq.
Qed.

Lemma obfuscateMethodName_token (method_name : string) (m : CppMangler) :
  Spec.caches_ok ssl h m ->
  exists m', Mangler.obfuscateMethodName ssl h method_name m
             = (Ok (Spec.method_token ssl h method_name), m')
             /\ Spec.caches_ok ssl h m' /\ mapping_ m' = mapping_ m
             /\ namespace_cache_ m' = namespace_cache_ m
             /\ class_cache_ m' = class_cache_ m.
Proof.
  intros (Hn & Hc & Hm). unfold Mangler.obfuscateMethodName.
  destruct (method_cache_ m !! method_name) as [v|] eqn:E.
  - pose proof (Hm _ _ E) as ->. exists m. repeat split; assumption || reflexivity.
  - eexists. split; [reflexivity|]. repeat split; try assumption.
    exact (cache_ok_insert (Spec.method_token ssl h) _ method_name Hm).
Qed.

(** The facts about the caches, from what the three steps leave behind. *)
Ltac cache_tail B2 :=
  let Hx := fresh in
  intros Hx; first [ discriminate Hx | congruence | rewrite Hx in B2; discriminate B2 ].

Ltac close_reconstruct B2 m' :=
  unfold ret; exists m'; cbn [Spec.component]; rewrite !append_assoc;
  split; [reflexivity|]; split; [assumption|]; split; [congruence|];
  split; cache_tail B2.

(** [reconstructMangled] returns [Spec.mangled_text]: on one hasher
    configuration its result depends on the parsed components only. *)
Lemma reconstructMangled_text (c : CppSymbolComponents) (m : CppMangler) :
  Spec.caches_ok ssl h m ->
  exists m', Mangler.reconstructMangled ssl h c m = (Ok (Spec.mangled_text ssl h c), m')
             /\ Spec.caches_ok ssl h m' /\ mapping_ m' = mapping_ m
             /\ (has_namespace c && negb (Str.empty (namespace_name c)) = true ->
                 namespace_cache_ m' !! namespace_name c
                 = Some (Spec.namespace_token ssl h (namespace_name c)))
             /\ (has_class c = false -> class_cache_ m' = class_cache_ m).
Proof.
  intros Hok. unfold Mangler.reconstructMangled, Spec.mangled_text. cbv zeta.
  destruct (has_namespace c || has_class c) eqn:Hnested.
  2:{ apply orb_false_elim in Hnested as [Hn0 Hc0]. rewrite Hn0.
      close_reconstruct Hn0 m. }
  unfold bind at 1.
  destruct (has_namespace c && negb (Str.empty (namespace_name c))) eqn:B1.
  - destruct (obfuscateNamespace_token (namespace_name c) m Hok)
      as (m1 & E1 & Hok1 & Hmap1 & Hcls1 & Hcache1).
    unfold bind at 1. rewrite E1. unfold ret at 1.
    unfold bind at 1.
    destruct (has_class c && negb (Str.empty (class_name c))) eqn:B2.
    + destruct (obfuscateClassName_token (class_name c) m1 Hok1)
        as (m2 & E2 & Hok2 & Hmap2 & Hns2 & Hcache2).
      unfold bind at 1. rewrite E2. unfold ret at 1.
      unfold bind at 1.
      destruct (negb (Str.empty (method_name c))) eqn:B3.
      * destruct (obfuscateMethodName_token (method_name c) m2 Hok2)
          as (m3 & E3 & Hok3 & Hmap3 & Hns3 & Hcls3).
        unfold bind at 1. rewrite E3. close_reconstruct B2 m3.
      * close_reconstruct B2 m2.
    + unfold ret at 1. unfold bind at 1.
      destruct (negb (Str.empty (method_name c))) eqn:B3.
      * destruct (obfuscateMethodName_token (method_name c) m1 Hok1)
          as (m3 & E3 & Hok3 & Hmap3 & Hns3 & Hcls3).
        unfold bind at 1. rewrite E3. close_reconstruct B2 m3.
      * close_reconstruct B2 m1.
  - unfold ret at 1. unfold bind at 1.
    destruct (has_class c && negb (Str.empty (class_name c))) eqn:B2.
    + destruct (obfuscateClassName_token (class_name c) m Hok)
        as (m2 & E2 & Hok2 & Hmap2 & Hns2 & Hcache2).
      unfold bind at 1. rewrite E2. unfold ret at 1.
      unfold bind at 1.
      destruct (negb (Str.empty (method_name c))) eqn:B3.
      * destruct (obfuscateMethodName_token (method_name c) m2 Hok2)
          as (m3 & E3 & Hok3 & Hmap3 & Hns3 & Hcls3).
        unfold bind at 1. rewrite E3. close_reconstruct B2 m3.
      * close_reconstruct B2 m2.
    + unfold ret at 1. unfold bind at 1.
      destruct (negb (Str.empty (method_name c))) eqn:B3.
      * destruct (obfuscateMethodName_token (method_name c) m Hok)
          as (m3 & E3 & Hok3 & Hmap3 & Hns3 & Hcls3).
        unfold bind at 1. rewrite E3. close_reconstruct B2 m3.
      * close_reconstruct B2 m.
Qed.

End CodecProperties.

Section CodecFacts.
Variable ssl : OpenSSL.
Variable cxa_demangle : string -> option string.
Variable h : CryptoHasher.

Lemma assign_component_parameter_types (component : string) (c : CppSymbolComponents) :
  parameter_types (CppDemangler.assign_component component c) = parameter_types c.
Proof.
  unfold CppDemangler.assign_component.
  destruct (Str.empty (namespace_name c)); [reflexivity|].
  destruct (negb (has_class c)); reflexivity.
Qed.

Lemma parse_nested_parameter_types (name : string) :
  forall (fuel : nat) (pos : Z) (c c' : CppSymbolComponents),
    CppDemangler.parse_nested fuel name pos c = Some c' ->
    parameter_types c' = parameter_types c.
Proof.
  induction fuel as [|fuel IH]; intros pos c c'; cbn [CppDemangler.parse_nested].
  - destruct (_ && _); [discriminate | now intros [= <-]].
  - destruct (_ && _); [|now intros [= <-]].
    destruct (CppDemangler.read_length _ _ _) as [len pos'].
    destruct (_ && _); [|now intros [= <-]].
    intros E. apply IH in E. now rewrite E, assign_component_parameter_types.
Qed.

(** The parser never fills [parameter_types]. *)
Lemma parse_parameter_types (name : string) (c : CppSymbolComponents) :
  CppDemangler.parse cxa_demangle name = Some c -> parameter_types c = [].
Proof.
  unfold CppDemangler.parse.
  destruct (negb (CppDemangler.isCppMangled name)); [now intros [= <-]|].
  destruct (String.eqb _ "_ZTV"); [now intros [= <-]|].
  destruct (String.eqb _ "_ZTI"); [now intros [= <-]|].
  destruct (String.eqb _ "_ZTS"); [now intros [= <-]|].
  destruct (_ && _); [|now intros [= <-]].
  intros E. apply parse_nested_parameter_types in E. exact E.
Qed.

(** A name already in [mapping_] gets the name recorded for it. *)
Lemma obfuscateCppSymbol_known (name known : string) (m : CppMangler) :
  mapping_ m !! name = Some known ->
  Mangler.obfuscateCppSymbol ssl cxa_demangle h name m = (Ok known, m).
Proof. unfold Mangler.obfuscateCppSymbol. now intros ->. Qed.

(** A new regular name gets [Spec.mangled_text] of its components. *)
Lemma obfuscateCppSymbol_regular (name : string) (c : CppSymbolComponents) (m : CppMangler) :
  Spec.caches_ok ssl h m ->
  mapping_ m !! name = None ->
  CppDemangler.parse cxa_demangle name = Some c ->
  Spec.regular c = true ->
  exists m', Mangler.obfuscateCppSymbol ssl cxa_demangle h name m
             = (Ok (Spec.mangled_text ssl h c), m')
             /\ Spec.caches_ok ssl h m'
             /\ mapping_ m' = <[name := Spec.mangled_text ssl h c]> (mapping_ m)
             /\ (has_namespace c && negb (Str.empty (namespace_name c)) = true ->
                 namespace_cache_ m' !! namespace_name c
                 = Some (Spec.namespace_token ssl h (namespace_name c)))
             /\ (has_class c = false -> class_cache_ m' = class_cache_ m).
Proof.
  intros Hok Hnew Hparse Hreg. unfold Mangler.obfuscateCppSymbol.
  rewrite Hnew, Hparse. unfold Spec.regular in Hreg.
  apply andb_prop in Hreg as [Hreg H3]. apply andb_prop in Hreg as [Hreg H2].
  apply andb_prop in Hreg as [H0 H1].
  apply negb_true_iff in H1, H2, H3. rewrite H0, H1, H2, H3. cbn [negb].
  destruct (reconstructMangled_text ssl h c m Hok) as (m1 & E & Hok1 & Hmap & Hns & Hcls).
  unfold bind at 1. rewrite E. unfold bind, modify, ret.
  eexists. split; [reflexivity|].
  split; [exact Hok1|]. split; [cbn; now rewrite Hmap|].
  split; assumption.
Qed.

(** Tokens for a hash of ten characters or more. *)
Lemma generateHash_prefix_hex (name context : string) (n : nat) :
  (n <= 10)%nat -> (10 <= hash_length (config_ h))%nat ->
  Spec.hex_of_length n (Str.substr (Hasher.generateHash ssl h name context) 0 n).
Proof.
  intros Hn Hlen. split.
  - unfold Str.substr. rewrite length_substring_0, generateHash_length.
    destruct (algorithm (config_ h)); simpl; lia.
  - apply all_substring, generateHash_hex.
Qed.

Lemma encodeLengthPrefix_namespace_token (ns : string) :
  (10 <= hash_length (config_ h))%nat ->
  exists n8, Spec.hex_of_length 8 n8
             /\ Spec.namespace_token ssl h ns = "N" +:+ n8
             /\ Mangler.encodeLengthPrefix (Spec.namespace_token ssl h ns) = "9N" +:+ n8.
Proof.
  intros Hlen. destruct (generateHash_prefix_hex ns "ns" 8) as [Hl Hx]; [lia | assumption |].
  eexists. split; [split; eassumption|]. split; [reflexivity|].
  unfold Mangler.encodeLengthPrefix, Spec.namespace_token.
  change (String.length ("N" +:+ ?s)) with (S (String.length s)). now rewrite Hl.
Qed.

Lemma encodeLengthPrefix_method_token (method : string) :
  (10 <= hash_length (config_ h))%nat ->
  exists h10, Spec.hex_of_length 10 h10
              /\ Mangler.encodeLengthPrefix (Spec.method_token ssl h method) = "11M" +:+ h10.
Proof.
  intros Hlen. destruct (generateHash_prefix_hex method "method" 10) as [Hl Hx];
    [lia | assumption |].
  eexists. split; [split; eassumption|].
  unfold Mangler.encodeLengthPrefix, Spec.method_token.
  change (String.length ("M" +:+ ?s)) with (S (String.length s)). now rewrite Hl.
Qed.

End CodecFacts.

(** *** What the codec does to the names of the scenarios *)

(** Run the parser on a given name: [Hp] is the equation for its result. *)
Ltac parsed dm name Hp :=
  let r := eval vm_compute in (CppDemangler.parse dm name) in
  match r with
  | Some ?c => assert (Hp : CppDemangler.parse dm name = Some c) by (vm_compute; reflexivity)
  end.

(** C3, at the input [_ZN2ns3Cls3fooEi]. The parser leaves
    [parameter_types] empty for every name, so the bytes after the
    nested name are not carried over: the name of [ns::Cls::foo(int)],
    whose parameter encoding is [i], is rewritten to a name that ends in
    [Ev]. *)
Theorem parameter_bytes_dropped (ssl : OpenSSL) (cxa_demangle : string -> option string)
    (h : CryptoHasher) :
  (forall name : string,
     match CppDemangler.parse cxa_demangle name with
     | Some c => parameter_types c = []
     | None => True
     end)
  /\ exists (body : string) (m' : CppMangler),
       Mangler.obfuscateCppSymbol ssl cxa_demangle h "_ZN2ns3Cls3fooEi" Mangler.new
       = (Ok (body +:+ "Ev"), m').
Proof.
  split.
  - intros name. destruct (CppDemangler.parse cxa_demangle name) as [c|] eqn:E; [|exact I].
    exact (parse_parameter_types cxa_demangle name c E).
  - parsed cxa_demangle "_ZN2ns3Cls3fooEi" Hp.
    match type of Hp with _ = Some ?c =>
      destruct (obfuscateCppSymbol_regular ssl cxa_demangle h "_ZN2ns3Cls3fooEi" c
                  Mangler.new (caches_ok_new ssl h) (lookup_empty _) Hp eq_refl)
        as (m' & E & _)
    end.
    exists ("_ZN" +:+ Mangler.encodeLengthPrefix (Spec.namespace_token ssl h "ns")
                 +:+ Mangler.encodeLengthPrefix (Spec.class_token ssl h "Cls")
                 +:+ Mangler.encodeLengthPrefix (Spec.method_token ssl h "foo")), m'.
    rewrite E. f_equal. f_equal. rewrite !append_assoc. reflexivity.
Qed.

Section PassOnOverloads.
Variable ssl : OpenSSL.
Variable cxa_demangle : string -> option string.

Lemma shouldPreserve_overloads (p : SymbolObfuscationPass) :
  preserve_symbols_ p = Pass.initializePreserveSet ->
  Pass.shouldPreserve p "_ZN2ns3Cls3fooEv" = false
  /\ Pass.shouldPreserve p "_ZN2ns3Cls3fooEi" = false.
Proof.
  intros Hset. unfold Pass.shouldPreserve, Pass.isSystemSymbol. rewrite Hset.
  destruct (preserve_main_ p), (preserve_stdlib_ p); vm_compute; auto.
Qed.

(** A mangled function that is not preserved goes through the codec, and
    the name it returns is recorded and set. *)
Lemma rename_with_mangled (name : string) (p : SymbolObfuscationPass) :
  Pass.isCppMangled name = true ->
  Pass.shouldPreserve p name = false ->
  Pass.rename_with (Pass.obfuscateFunctionName ssl cxa_demangle) (name, false) p
  = match Mangler.obfuscateCppSymbol ssl cxa_demangle (pass_hasher_ p) name
            (cpp_mangler_ p) with
    | (Ok obf, mg) =>
        (Ok (obf, false), Pass.record_mapping name obf (Pass.with_mangler mg p))
    | (Throw e, mg) => (Throw e, Pass.with_mangler mg p)
    | (Diverge, mg) => (Diverge, Pass.with_mangler mg p)
    end.
Proof.
  intros Hm Hp. unfold Pass.rename_with, Pass.obfuscateFunctionName.
  rewrite Hp, Hm. unfold bind, Pass.on_mangler, modify, ret.
  destruct (Mangler.obfuscateCppSymbol _ _ _ _ _) as [[obf| |] mg]; reflexivity.
Qed.

Lemma run_on_overloads (p : SymbolObfuscationPass) :
  cpp_mangler_ p = Mangler.new ->
  preserve_symbols_ p = Pass.initializePreserveSet ->
  pass_mapping_ p = ∅ ->
  exists (obf : string) (doc : option Json) (p' : SymbolObfuscationPass),
    Pass.run ssl cxa_demangle Spec.overloads_module p
    = (Ok ({| module_name := "overloads"; source_file_name := "overloads.cpp";
              functions := [(obf, false); (obf, false)];
              globals := []; aliases := [] |}, doc), p')
    /\ pass_mapping_ p' !! "_ZN2ns3Cls3fooEv" = Some obf
    /\ pass_mapping_ p' !! "_ZN2ns3Cls3fooEi" = Some obf.
Proof.
  intros Hmg Hset Hmap. unfold Pass.run.
  unfold bind at 1. unfold modify at 1.
  set (p1 := if Str.empty (salt_ p) then _ else p).
  assert (Hmg1 : cpp_mangler_ p1 = Mangler.new)
    by (subst p1; destruct (Str.empty (salt_ p)); assumption).
  assert (Hset1 : preserve_symbols_ p1 = Pass.initializePreserveSet)
    by (subst p1; destruct (Str.empty (salt_ p)); assumption).
  assert (Hmap1 : pass_mapping_ p1 = ∅)
    by (subst p1; destruct (Str.empty (salt_ p)); assumption).
  clearbody p1. clear p Hmg Hset Hmap.
  destruct (shouldPreserve_overloads p1 Hset1) as [Hv Hi].
  parsed cxa_demangle "_ZN2ns3Cls3fooEv" Hp1.
  parsed cxa_demangle "_ZN2ns3Cls3fooEi" Hp2.
  match type of Hp1 with _ = Some ?c =>
    destruct (obfuscateCppSymbol_regular ssl cxa_demangle (pass_hasher_ p1) _ c
                Mangler.new (caches_ok_new ssl _) (lookup_empty _) Hp1 eq_refl)
      as (m1 & E1 & Hok1 & Hm1 & _);
    assert (Hnew : mapping_ m1 !! "_ZN2ns3Cls3fooEi" = None)
      by (rewrite Hm1, lookup_insert_ne by discriminate; apply lookup_empty);
    destruct (obfuscateCppSymbol_regular ssl cxa_demangle (pass_hasher_ p1) _ c m1
                Hok1 Hnew Hp2 eq_refl)
      as (m2 & E2 & _);
    set (obf := Spec.mangled_text ssl (pass_hasher_ p1) c) in *
  end.
  clearbody obf.
  unfold Pass.obfuscateFunctions, Spec.overloads_module.
  cbn [functions globals aliases module_name source_file_name Pass.for_each].
  unfold bind at 1. unfold bind at 1.
  rewrite (rename_with_mangled "_ZN2ns3Cls3fooEv" p1 eq_refl Hv), Hmg1, E1.
  unfold bind at 1. unfold bind at 1.
  rewrite (rename_with_mangled "_ZN2ns3Cls3fooEi" _ eq_refl);
    [| apply shouldPreserve_overloads; exact Hset1 ].
  cbn [cpp_mangler_ pass_hasher_ Pass.record_mapping Pass.with_mangler].
  rewrite E2.
  unfold bind, ret, gets, Pass.obfuscateGlobalVariables, Pass.obfuscateAliases.
  cbn [Pass.for_each obfuscate_globals_ Pass.record_mapping Pass.with_mangler].
  unfold ret.
  destruct (obfuscate_globals_ p1); cbn [Pass.for_each]; unfold ret;
    (eexists obf, _, _; split; [reflexivity|];
     cbn [pass_mapping_ Pass.record_mapping Pass.with_mangler];
     rewrite Hmap1; split;
     [ rewrite lookup_insert_ne by discriminate; apply lookup_insert_eq
     | apply lookup_insert_eq ]).
Qed.

End PassOnOverloads.

(** C1, at the module that defines [_ZN2ns3Cls3fooEv] and
    [_ZN2ns3Cls3fooEi]. The codec gives the two distinct names one
    obfuscated name, on any hasher; a run of the pass on the module,
    whatever the salt, records that one name for both in its mapping and
    asks for both functions to be renamed to it. *)
Theorem overloads_renamed_alike (ssl : OpenSSL) (cxa_demangle : string -> option string) :
  "_ZN2ns3Cls3fooEv" <> "_ZN2ns3Cls3fooEi"
  /\ (forall h : CryptoHasher,
        exists (obf : string) (m1 m2 : CppMangler),
          Mangler.obfuscateCppSymbol ssl cxa_demangle h "_ZN2ns3Cls3fooEv" Mangler.new
          = (Ok obf, m1)
          /\ Mangler.obfuscateCppSymbol ssl cxa_demangle h "_ZN2ns3Cls3fooEi" m1
             = (Ok obf, m2))
  /\ (forall salt : string,
        exists (obf : string) (doc : option Json) (p' : SymbolObfuscationPass),
          Pass.run ssl cxa_demangle Spec.overloads_module (Pass.new salt)
          = (Ok ({| module_name := "overloads"; source_file_name := "overloads.cpp";
                    functions := [(obf, false); (obf, false)];
                    globals := []; aliases := [] |}, doc), p')
          /\ pass_mapping_ p' !! "_ZN2ns3Cls3fooEv" = Some obf
          /\ pass_mapping_ p' !! "_ZN2ns3Cls3fooEi" = Some obf).
Proof.
  split; [discriminate|]. split.
  - intros h.
    parsed cxa_demangle "_ZN2ns3Cls3fooEv" Hp1.
    parsed cxa_demangle "_ZN2ns3Cls3fooEi" Hp2.
    match type of Hp1 with _ = Some ?c =>
      destruct (obfuscateCppSymbol_regular ssl cxa_demangle h _ c
                  Mangler.new (caches_ok_new ssl h) (lookup_empty _) Hp1 eq_refl)
        as (m1 & E1 & Hok1 & Hmap1 & _);
      assert (Hnew : mapping_ m1 !! "_ZN2ns3Cls3fooEi" = None)
        by (rewrite Hmap1, lookup_insert_ne by discriminate; apply lookup_empty);
      destruct (obfuscateCppSymbol_regular ssl cxa_demangle h _ c m1 Hok1 Hnew Hp2 eq_refl)
        as (m2 & E2 & _)
    end.
    eauto.
  - intros salt. apply run_on_overloads; reflexivity.
Qed.

(** C4, as the code has it. For a hash of ten characters or more,
    obfuscating [_ZN6MyClass6methodEv] yields [_ZN9N], eight hexadecimal
    digits, the method part ([11M] and ten hexadecimal digits for the
    demangled form, unless that is empty) and [Ev]: the length prefix 6
    makes [MyClas] the first component, which the parser takes as the
    namespace, and the parser stops at the [s] that follows. Obfuscating
    [_ZN6MyClass7method2Ev] afterwards yields the identical N-prefixed
    token, which the namespace cache holds; neither name gets a
    C-prefixed token. *)
Theorem S4_namespace_token_shared (ssl : OpenSSL) (cxa_demangle : string -> option string)
    (h : CryptoHasher) :
  (10 <= hash_length (config_ h))%nat ->
  exists (n8 t1 t2 : string) (m1 m2 : CppMangler),
    Spec.hex_of_length 8 n8
    /\ Spec.method_part (CppDemangler.demangle cxa_demangle "_ZN6MyClass6methodEv") t1
    /\ Spec.method_part (CppDemangler.demangle cxa_demangle "_ZN6MyClass7method2Ev") t2
    /\ Mangler.obfuscateCppSymbol ssl cxa_demangle h "_ZN6MyClass6methodEv" Mangler.new
       = (Ok ("_ZN9N" +:+ n8 +:+ t1 +:+ "Ev"), m1)
    /\ Mangler.obfuscateCppSymbol ssl cxa_demangle h "_ZN6MyClass7method2Ev" m1
       = (Ok ("_ZN9N" +:+ n8 +:+ t2 +:+ "Ev"), m2)
    /\ namespace_cache_ m1 !! "MyClas" = Some ("N" +:+ n8)
    /\ class_cache_ m1 = ∅ /\ class_cache_ m2 = ∅.
Proof.
  intros Hlen.
  destruct (encodeLengthPrefix_namespace_token ssl h "MyClas" Hlen) as (n8 & Hn8 & Htok & Hlp).
  assert (Hpart : forall d,
    Spec.method_part d (Spec.component (negb (Str.empty d)) (Spec.method_token ssl h d))).
  { intros d. unfold Spec.method_part. destruct (Str.empty d); [reflexivity|].
    destruct (encodeLengthPrefix_method_token ssl h d Hlen) as (h10 & Hh & E).
    exists h10. split; [assumption | exact E]. }
  parsed cxa_demangle "_ZN6MyClass6methodEv" Hp1.
  parsed cxa_demangle "_ZN6MyClass7method2Ev" Hp2.
  match type of Hp1 with _ = Some ?c1 =>
    destruct (obfuscateCppSymbol_regular ssl cxa_demangle h _ c1
                Mangler.new (caches_ok_new ssl h) (lookup_empty _) Hp1 eq_refl)
      as (m1 & E1 & Hok1 & Hmap1 & Hns1 & Hcls1)
  end.
  assert (Hnew : mapping_ m1 !! "_ZN6MyClass7method2Ev" = None)
    by (rewrite Hmap1, lookup_insert_ne by discriminate; apply lookup_empty).
  match type of Hp2 with _ = Some ?c2 =>
    destruct (obfuscateCppSymbol_regular ssl cxa_demangle h _ c2 m1 Hok1 Hnew Hp2 eq_refl)
      as (m2 & E2 & _ & _ & _ & Hcls2)
  end.
  exists n8,
    (Spec.component
       (negb (Str.empty (CppDemangler.demangle cxa_demangle "_ZN6MyClass6methodEv")))
       (Spec.method_token ssl h (CppDemangler.demangle cxa_demangle "_ZN6MyClass6methodEv"))),
    (Spec.component
       (negb (Str.empty (CppDemangler.demangle cxa_demangle "_ZN6MyClass7method2Ev")))
       (Spec.method_token ssl h (CppDemangler.demangle cxa_demangle "_ZN6MyClass7method2Ev"))),
    m1, m2.
  split; [assumption|]. split; [apply Hpart|]. split; [apply Hpart|].
  assert (Hshape : forall t,
    "_ZN" +:+ Spec.component true (Spec.namespace_token ssl h "MyClas")
          +:+ "" +:+ t +:+ "E" +:+ "v" = "_ZN9N" +:+ n8 +:+ t +:+ "Ev").
  { intros t. cbn [Spec.component]. rewrite Hlp. reflexivity. }
  split; [rewrite E1; f_equal; f_equal; apply Hshape|].
  split; [rewrite E2; f_equal; f_equal; apply Hshape|].
  split; [rewrite <- Htok; apply Hns1; reflexivity|].
  split.
  - now rewrite Hcls1.
  - now rewrite Hcls2, Hcls1.
Qed.

Lemma S4_namespace_token_shared_witness :
  exists (n8 t1 t2 : string) (m1 m2 : CppMangler),
    let h := Hasher.new (siphash_config TYPED 12 "k") in
    Spec.hex_of_length 8 n8
    /\ Spec.method_part
         (CppDemangler.demangle Spec.rejecting_demangle "_ZN6MyClass6methodEv") t1
    /\ Spec.method_part
         (CppDemangler.demangle Spec.rejecting_demangle "_ZN6MyClass7method2Ev") t2
    /\ Mangler.obfuscateCppSymbol zero_ssl Spec.rejecting_demangle h
         "_ZN6MyClass6methodEv" Mangler.new
       = (Ok ("_ZN9N" +:+ n8 +:+ t1 +:+ "Ev"), m1)
    /\ Mangler.obfuscateCppSymbol zero_ssl Spec.rejecting_demangle h
         "_ZN6MyClass7method2Ev" m1
       = (Ok ("_ZN9N" +:+ n8 +:+ t2 +:+ "Ev"), m2)
    /\ namespace_cache_ m1 !! "MyClas" = Some ("N" +:+ n8)
    /\ class_cache_ m1 = ∅ /\ class_cache_ m2 = ∅.
Proof.
  apply (S4_namespace_token_shared zero_ssl Spec.rejecting_demangle
           (Hasher.new (siphash_config TYPED 12 "k"))).
  vm_compute. lia.
Defined.

Example S4_pattern_accepts :
  Spec.matches Spec.S4_pattern "_ZN11Cabcdef012311Mabcdef0123Ev" = true.
Proof. vm_compute. reflexivity. Qed.

(** C4 as stated fails: on a SipHash configuration with twelve
    characters, the result for [_ZN6MyClass6methodEv] does not match the
    pattern of S4 (an [N] follows the first length), and neither result
    holds a C-prefixed token: the class cache stays empty. *)
Lemma S4_counterexample :
  let h := Hasher.new (siphash_config TYPED 12 "k") in
  let '(r1, m1) := Mangler.obfuscateCppSymbol zero_ssl Spec.rejecting_demangle h
                     "_ZN6MyClass6methodEv" Mangler.new in
  let '(r2, m2) := Mangler.obfuscateCppSymbol zero_ssl Spec.rejecting_demangle h
                     "_ZN6MyClass7method2Ev" m1 in
  r1 = Ok "_ZN9N6285415e11Mb05911740cEv"
  /\ Spec.matches Spec.S4_pattern "_ZN9N6285415e11Mb05911740cEv" = false
  /\ r2 = Ok "_ZN9N6285415e11M2a81c60221Ev"
  /\ class_cache_ m2 = ∅.
Proof. vm_compute. repeat split. Qed.

(** With the length prefix put right ([7MyClass]) the outcome is of the
    same kind: [MyClass] is taken as the namespace, the C-prefixed tokens
    stand for [method] and [method2] and differ. *)
Example well_formed_S4_names :
  let h := Hasher.new (siphash_config TYPED 12 "k") in
  let '(r1, m1) := Mangler.obfuscateCppSymbol zero_ssl Spec.rejecting_demangle h
                     "_ZN7MyClass6methodEv" Mangler.new in
  let '(r2, m2) := Mangler.obfuscateCppSymbol zero_ssl Spec.rejecting_demangle h
                     "_ZN7MyClass7method2Ev" m1 in
  r1 = Ok "_ZN9N2b268d9211Ccdb736c63311M07cc185c43Ev"
  /\ r2 = Ok "_ZN9N2b268d9211C7dd0dcc51111M7173d03e57Ev"
  /\ Spec.matches Spec.S4_pattern "_ZN9N2b268d9211Ccdb736c63311M07cc185c43Ev" = false
  /\ map_to_list (namespace_cache_ m2) = [("MyClass", "N2b268d92")]
  /\ map_to_list (class_cache_ m2)
     = [("method2", "C7dd0dcc511"); ("method", "Ccdb736c633")].
Proof. vm_compute. repeat split. Qed.

(** ** The mapping store *)

(** C6, as the code has it. The document of [exportMapping] has the
    fields [symbols], [version] and [hash_algorithm] and no [salt]; the
    document of [saveMapping] has [symbols], [version] and [salt] and no
    [hash_algorithm]. *)
Theorem mapping_document_fields (o : CSymbolObfuscator) (p : SymbolObfuscationPass) :
  Spec.has_fields ["version"; "hash_algorithm"; "symbols"] ["salt"]
    (CObfuscator.exportMapping o)
  /\ Spec.has_fields ["version"; "salt"; "symbols"] ["hash_algorithm"]
       (Pass.saveMapping p)
  /\ JsonValue.member "version" (CObfuscator.exportMapping o) = Ok (JString "1.0")
  /\ JsonValue.member "hash_algorithm" (CObfuscator.exportMapping o)
     = Ok (JNumber (CObfuscator.HashAlgorithm_to_int (Hasher.getAlgorithm (hasher_ o))))
  /\ JsonValue.member "version" (Pass.saveMapping p) = Ok (JString "1.0")
  /\ JsonValue.member "salt" (Pass.saveMapping p) = Ok (JString (salt_ p)).
Proof.
  unfold Spec.has_fields.
  repeat split; repeat constructor.
Qed.

(** C6 as stated fails: the document [exportMapping] writes for a new
    obfuscator has no [salt], and the document [saveMapping] writes for a
    new pass has no [hash_algorithm]. *)
Lemma mapping_document_fields_counterexample :
  JsonValue.isMember "salt"
    (CObfuscator.exportMapping (CObfuscator.new ObfuscationConfig_default)) = false
  /\ JsonValue.isMember "hash_algorithm" (Pass.saveMapping (Pass.new "s")) = false.
Proof. split; reflexivity. Qed.

Lemma symbol_json_roundtrip (m : SymbolMapping) :
  Spec.well_typed m ->
  CObfuscator.symbol_of_json (CObfuscator.symbol_to_json m) = Ok m.
Proof.
  intros ((Ha1 & Ha2) & (Hs1 & Hs2) & (Hl1 & Hl2)).
  destruct m as [orig obf t l a sz file line]; cbn [address size line_number] in *.
  unfold CObfuscator.symbol_of_json, CObfuscator.symbol_to_json.
  unfold CObfuscator.field.
  cbn [JsonValue.set JsonValue.set_member JsonValue.member JsonValue.find_member
       String.eqb Ascii.eqb Bool.eqb default from_option
       original_name obfuscated_name type linkage address size source_file line_number
       JsonValue.asString id and_then].
  unfold SipHasher.u64. rewrite !Z.mod_small by lia.
  cbn [JsonValue.asInt JsonValue.asUInt64].
  assert (Ht : (JsonValue.int_min <=? SymbolType_to_int t)
               && (SymbolType_to_int t <=? JsonValue.int_max) = true)
    by (destruct t; reflexivity).
  assert (Hl : (JsonValue.int_min <=? Linkage_to_int l)
               && (Linkage_to_int l <=? JsonValue.int_max) = true)
    by (destruct l; reflexivity).
  rewrite Ht, Hl.
  replace ((0 <=? a) && (a <? 2 ^ 64)) with true by (symmetry; apply andb_true_intro; lia).
  replace ((0 <=? sz) && (sz <? 2 ^ 64)) with true by (symmetry; apply andb_true_intro; lia).
  replace ((JsonValue.int_min <=? line) && (line <=? JsonValue.int_max)) with true
    by (symmetry; apply andb_true_intro; lia).
  cbn [and_then]. destruct t, l; reflexivity.
Qed.

Lemma import_symbols_roundtrip (ms : list SymbolMapping) : forall o' : CSymbolObfuscator,
  Forall Spec.well_typed ms ->
  CObfuscator.import_symbols (map CObfuscator.symbol_to_json ms) o'
  = (Ok tt, CObfuscator.with_mappings (mappings_ o' ++ ms) o').
Proof.
  induction ms as [|m ms IH]; intros o' Hwt.
  - cbn. rewrite app_nil_r. now destruct o'.
  - inversion Hwt as [|? ? Hm Hms]; subst.
    cbn [map CObfuscator.import_symbols]. rewrite (symbol_json_roundtrip m Hm).
    unfold bind, modify. rewrite IH by assumption.
    cbn. now rewrite <- app_assoc.
Qed.

(** C7. Importing the document that [exportMapping] writes restores the
    mapping exactly: the importing object ends with the entries of the
    exporting one, each with its original, obfuscated, type, linkage,
    address, size, source_file and line unchanged. *)
Theorem import_export_roundtrip (o o' : CSymbolObfuscator) :
  Forall Spec.well_typed (mappings_ o) ->
  CObfuscator.importMapping (Some (CObfuscator.exportMapping o)) o'
  = (Ok tt, CObfuscator.with_mappings (mappings_ o) o').
Proof.
  intros Hwt. unfold CObfuscator.importMapping, CObfuscator.exportMapping.
  unfold bind, modify.
  cbn [JsonValue.set JsonValue.set_member JsonValue.member JsonValue.find_member
       String.eqb Ascii.eqb Bool.eqb default from_option JsonValue.items_of id].
  rewrite import_symbols_roundtrip by assumption.
  reflexivity.
Qed.

Lemma import_export_roundtrip_witness :
  let entry :=
    {| original_name := "validate_password"; obfuscated_name := "f_ff3ce83f05ab";
       type := FUNCTION; linkage := EXTERNAL; address := 2 ^ 64 - 1; size := 42;
       source_file := "auth.c"; line_number := -1 |} in
  let o := CObfuscator.with_mappings [entry] (CObfuscator.new ObfuscationConfig_default) in
  let o' := CObfuscator.new ObfuscationConfig_default in
  mappings_ (snd (CObfuscator.importMapping (Some (CObfuscator.exportMapping o)) o'))
  = [entry].
Proof.
  intros entry o o'.
  rewrite (import_export_roundtrip o o'); [reflexivity|].
  repeat constructor; vm_compute; congruence.
Defined.

(** A value that is an object is walked in the order of its keys,
    whatever the order in which the members were set, and [saveMapping]
    writes the entries of [mapping_] in the order of the originals. *)
Example documents_in_key_order :
  JsonValue.items_of
    (JsonValue.set "a" (JNumber 1) (JsonValue.set "b" (JNumber 2) (JObject [])))
  = [JNumber 1; JNumber 2]
  /\ JsonValue.member "symbols"
       (Pass.saveMapping
          (Pass.record_mapping "alpha" "f_2" (Pass.record_mapping "zeta" "f_1" (Pass.new "s"))))
     = Ok (JArray
             [JObject [("original", JString "alpha"); ("obfuscated", JString "f_2")];
              JObject [("original", JString "zeta"); ("obfuscated", JString "f_1")]]).
Proof. vm_compute. split; reflexivity. Qed.

(** ** The preservation oracle and the source-text driver *)

Section DriverProperties.
Variable ssl : OpenSSL.
Variable regex_search : string -> string -> bool.
Variable function_matches : string -> list string.
Variable variable_matches : string -> list string.

Lemma main_is_keyword : bool_decide ("main" ∈ CObfuscator.cpp_keywords) = true.
Proof. vm_compute. reflexivity. Qed.

Lemma shouldPreserve_main (o : CSymbolObfuscator) :
  CObfuscator.shouldPreserve regex_search o "main" = true.
Proof. unfold CObfuscator.shouldPreserve. now rewrite main_is_keyword. Qed.

Lemma map_symbol_no_main (symbol : SymbolMapping) (mapping : gmap string string)
    (o : CSymbolObfuscator) :
  mapping !! "main" = None ->
  Forall (fun s => original_name s <> "main") (mappings_ o) ->
  let '(r, o') := CObfuscator.map_symbol ssl regex_search symbol mapping o in
  Forall (fun s => original_name s <> "main") (mappings_ o')
  /\ match r with Ok mapping' => mapping' !! "main" = None | _ => True end.
Proof.
  intros Hmap Hall. unfold CObfuscator.map_symbol.
  destruct (CObfuscator.shouldPreserve regex_search o (original_name symbol)) eqn:Hp;
    [now split|].
  assert (Hne : original_name symbol <> "main").
  { intros E. rewrite E, shouldPreserve_main in Hp. discriminate. }
  unfold bind, CObfuscator.on_hasher, modify, ret.
  match goal with |- context [match type symbol with _ => _ end] =>
    generalize (match type symbol with
                | FUNCTION => Hasher.hashFunction ssl (original_name symbol)
                | GLOBAL_VAR | STATIC_VAR => Hasher.hashVariable ssl (original_name symbol)
                | STRUCT => Hasher.hashClass ssl (original_name symbol)
                | _ => Hasher.hashVariable ssl (original_name symbol)
                end)
  end.
  intros call. destruct (call (hasher_ o)) as [[obf| |] h']; cbn.
  - split.
    + apply Forall_app. split; [assumption|]. constructor; [exact Hne | constructor].
    + now rewrite lookup_insert_ne.
  - now split.
  - now split.
Qed.

Lemma map_symbols_no_main (symbols : list SymbolMapping) :
  forall (mapping : gmap string string) (o : CSymbolObfuscator),
    mapping !! "main" = None ->
    Forall (fun s => original_name s <> "main") (mappings_ o) ->
    let '(r, o') := CObfuscator.map_symbols ssl regex_search symbols mapping o in
    Forall (fun s => original_name s <> "main") (mappings_ o')
    /\ match r with Ok mapping' => mapping' !! "main" = None | _ => True end.
Proof.
  induction symbols as [|symbol symbols IH]; intros mapping o Hmap Hall.
  - now split.
  - cbn [CObfuscator.map_symbols]. unfold bind.
    pose proof (map_symbol_no_main symbol mapping o Hmap Hall) as H1.
    destruct (CObfuscator.map_symbol ssl regex_search symbol mapping o)
      as [[mapping1| |] o1]; destruct H1 as [Hall1 Hmap1].
    + now apply IH.
    + now split.
    + now split.
Qed.

Lemma generateMapping_no_main (symbols : list SymbolMapping) (o : CSymbolObfuscator) :
  Forall (fun s => original_name s <> "main") (mappings_ o) ->
  let '(r, o') := CObfuscator.generateMapping ssl regex_search symbols o in
  Forall (fun s => original_name s <> "main") (mappings_ o')
  /\ match r with Ok mapping => mapping !! "main" = None | _ => True end.
Proof.
  intros Hall. unfold CObfuscator.generateMapping.
  exact (map_symbols_no_main symbols ∅ o (lookup_empty _) Hall).
Qed.

End DriverProperties.

(** C2, at an input that declares [main] with [--no-preserve-main]. The
    option removes [main] from the preserve set, but the oracle of the
    source-text back end still answers that [main] is preserved, because
    [main] is in its keyword table: no run maps [main] to anything, and
    its mapping has no entry for it. The oracle of the IR pass answers
    the same with [setPreserveMain(false)], because [main] is in its
    preserve set. The oracle of the source-text back end preserves
    [printf] only if one of the four default patterns matches it. *)
Theorem main_preserved_despite_flag (ssl : OpenSSL) (regex_search : string -> string -> bool)
    (function_matches variable_matches : string -> list string) (opts : CliOptions) :
  let o := Cli.obfuscator (Cli.no_preserve_main opts) in
  ("main" ∉ preserve_symbols (obf_config_ o))
  /\ CObfuscator.shouldPreserve regex_search o "main" = true
  /\ (forall symbols : list SymbolMapping,
        let '(r, o') := CObfuscator.generateMapping ssl regex_search symbols o in
        Forall (fun s => original_name s <> "main") (mappings_ o')
        /\ match r with Ok mapping => mapping !! "main" = None | _ => True end)
  /\ (forall source_code : string,
        let '(r, o') := CObfuscator.obfuscateSymbols ssl regex_search function_matches
                          variable_matches source_code o in
        Forall (fun s => original_name s <> "main") (mappings_ o'))
  /\ CObfuscator.shouldPreserve regex_search o "printf"
     = existsb (regex_search "printf") ["^__"; "^_Z"; "^llvm\."; "^__cxa_"]
  /\ (forall salt : string,
        Pass.shouldPreserve (Pass.setPreserveMain false (Pass.new salt)) "main" = true).
Proof.
  intros o.
  assert (Hgen : forall symbols : list SymbolMapping,
    let '(r, o') := CObfuscator.generateMapping ssl regex_search symbols o in
    Forall (fun s => original_name s <> "main") (mappings_ o')
    /\ match r with Ok mapping => mapping !! "main" = None | _ => True end).
  { intros symbols.
    exact (generateMapping_no_main ssl regex_search symbols o (List.Forall_nil _)). }
  split; [|split; [|split; [|split; [|split]]]].
  - subst o. cbn. apply not_elem_of_difference. right. now apply elem_of_singleton.
  - apply shouldPreserve_main.
  - exact Hgen.
  - intros source_code. unfold CObfuscator.obfuscateSymbols, bind, gets.
    specialize (Hgen (CObfuscator.parseDeclarations regex_search function_matches
                        variable_matches o source_code)).
    destruct (CObfuscator.generateMapping _ _ _ _) as [[mapping| |] o1];
      destruct Hgen as [Hall _]; try assumption.
    destruct (Rewriter.applyObfuscation source_code mapping); cbn; assumption.
  - subst o. unfold CObfuscator.shouldPreserve, CObfuscator.matchesPreservePattern.
    do 2 match goal with |- context [@bool_decide ?P ?D] =>
      let Hk := fresh in
      assert (Hk : @bool_decide P D = false) by (vm_compute; reflexivity); rewrite Hk
    end.
    cbn [preserve_patterns obf_config_ Cli.obfuscator CObfuscator.new
         Cli.obf_config ObfuscationConfig_default].
    now destruct (existsb _ _).
  - intros salt. vm_compute. reflexivity.
Qed.

(** ** The text rewriter *)

Section RewriterProperties.
Variable original obfuscated : text.
Hypothesis original_word : Spec.is_word original.

Local Abbreviation walk := (Spec.rewrite_words original obfuscated).

(** Whether the last character is there, and an identifier character. *)
Local Abbreviation identifier_last l := (from_option Rewriter.isIdentifierChar false (last l)).

Lemma starts_with_app (word code : text) :
  Rewriter.starts_with word code = true <-> exists rest, code = word ++ rest.
Proof.
  revert code. induction word as [|w word IH]; intros code; simpl.
  - split; eauto.
  - destruct code as [|c code].
    + split; [discriminate | intros [rest H]; discriminate].
    + rewrite andb_true_iff, Ascii.eqb_eq, IH. split.
      * intros [-> [rest ->]]. eauto.
      * intros [rest [= -> ->]]. eauto.
Qed.

Lemma starts_with_original_head (code : text) :
  Rewriter.starts_with original code = true -> Spec.identifier_head code = true.
Proof.
  destruct original_word as [Hne Hall]. intros H.
  apply starts_with_app in H as [rest ->].
  destruct original as [|c w]; [contradiction|].
  simpl. now inversion Hall.
Qed.

Lemma identifier_last_original (pre : text) :
  identifier_last (pre ++ original) = true.
Proof.
  destruct original_word as [Hne Hall].
  destruct (exists_last Hne) as (w & c & E). rewrite E in *.
  rewrite app_assoc, last_snoc. simpl.
  apply Forall_app in Hall as [_ Hc]. now inversion Hc.
Qed.

(** Text in which [original] does not occur is copied. *)
Lemma walk_no_occurrence (code : text) : forall before,
  Rewriter.find_in original code = None -> walk before O code = code.
Proof.
  induction code as [|c code IH]; intros before; [reflexivity|].
  cbn [Rewriter.find_in Spec.rewrite_words].
  destruct (Rewriter.starts_with original (c :: code)); [discriminate|].
  destruct (Rewriter.find_in original code); [discriminate|].
  intros _. cbn [andb]. now rewrite IH.
Qed.

(** Up to the first occurrence the text is copied. *)
Lemma walk_to_occurrence (code : text) : forall before k,
  Rewriter.find_in original code = Some k ->
  exists gap tail,
    code = gap ++ tail /\ length gap = k
    /\ Rewriter.starts_with original tail = true
    /\ walk before O code
       = gap ++ walk (match last gap with
                      | Some c => Rewriter.isIdentifierChar c
                      | None => before
                      end) O tail.
Proof.
  induction code as [|c code IH]; intros before k.
  - cbn [Rewriter.find_in].
    destruct (Rewriter.starts_with original []) eqn:E; [|discriminate].
    intros [= <-]. now exists [], [].
  - cbn [Rewriter.find_in].
    destruct (Rewriter.starts_with original (c :: code)) eqn:E.
    + intros [= <-]. now exists [], (c :: code).
    + destruct (Rewriter.find_in original code) as [k'|] eqn:Ek; [|discriminate].
      intros [= <-].
      destruct (IH (Rewriter.isIdentifierChar c) k' eq_refl) as (gap & tail & -> & Hk & Hs & Hw).
      exists (c :: gap), tail. repeat split; [now rewrite <- Hk | assumption |].
      cbn [Spec.rewrite_words]. rewrite E. cbn [andb]. rewrite Hw.
      cbn [app]. f_equal. f_equal. f_equal.
      destruct gap as [|g gap]; [reflexivity|].
      rewrite last_cons_cons. destruct (last (g :: gap)) eqn:El; [reflexivity|].
      apply last_None in El. discriminate El.
Qed.

(** A run of identifier characters after an identifier character is
    copied: no occurrence inside it has a free left boundary. *)
Lemma walk_identifier_run (run rest : text) :
  Forall (fun c => Rewriter.isIdentifierChar c = true) run ->
  walk true O (run ++ rest) = run ++ walk true O rest.
Proof.
  induction 1 as [|c run Hc Hrun IH]; [reflexivity|].
  cbn [app Spec.rewrite_words]. rewrite andb_false_r. cbn [andb].
  now rewrite Hc, IH.
Qed.

(** The characters of a replaced occurrence are passed over. *)
Lemma walk_skip (run rest : text) :
  Forall (fun c => Rewriter.isIdentifierChar c = true) run ->
  walk true (length run) (run ++ rest) = walk true O rest.
Proof.
  induction 1 as [|c run Hc Hrun IH]; [reflexivity|].
  cbn [app length Spec.rewrite_words]. now rewrite Hc.
Qed.

(** At an occurrence: replaced iff both boundaries are free; either way
    the walk goes on after the occurrence. *)
Lemma walk_occurrence (before : bool) (rest : text) :
  walk before O (original ++ rest)
  = (if negb before && negb (Spec.identifier_head rest) then obfuscated else original)
    ++ walk true O rest.
Proof.
  destruct original_word as [Hne Hall].
  assert (Hs : Rewriter.starts_with original (original ++ rest) = true)
    by (apply starts_with_app; eauto).
  assert (Hdrop : skipn (length original) (original ++ rest) = rest)
    by apply drop_app_length.
  assert (E : exists c w, original = c :: w)
    by (destruct original as [|c w]; [contradiction | eauto]).
  destruct E as (c & w & E).
  assert (Hc : Rewriter.isIdentifierChar c = true /\
               Forall (fun c => Rewriter.isIdentifierChar c = true) w)
    by (rewrite E in Hall; now inversion Hall).
  destruct Hc as [Hc Hw].
  assert (Hcode : original ++ rest = c :: (w ++ rest)) by now rewrite E.
  assert (Hlen : (length original - 1)%nat = length w)
    by (rewrite E; simpl; lia).
  rewrite Hcode in Hs, Hdrop |- *.
  cbn [Spec.rewrite_words]. rewrite Hs, Hdrop, Hlen, Hc. cbn [andb].
  destruct (negb before && negb (Spec.identifier_head rest)).
  - now rewrite walk_skip.
  - rewrite E at 2. cbn [app]. now rewrite walk_identifier_run.
Qed.

(** [isWholeWord] at the end of [pre], before [rest]. *)
Lemma isWholeWord_between (pre word rest : text) :
  Rewriter.isWholeWord (pre ++ word ++ rest) (length pre) word
  = negb (identifier_last pre) && negb (Spec.identifier_head rest).
Proof.
  unfold Rewriter.isWholeWord.
  assert (Hbefore : (0 <? length pre)%nat
                    && from_option Rewriter.isIdentifierChar false
                         ((pre ++ word ++ rest) !! (length pre - 1)%nat)
                    = identifier_last pre).
  { destruct pre as [|p pre _] using rev_ind; [reflexivity|].
    rewrite last_snoc, length_app. cbn [length].
    destruct (Nat.ltb_spec 0 (length pre + 1)); [|lia]. cbn [andb].
    replace (length pre + 1 - 1)%nat with (length pre) by lia.
    rewrite <- app_assoc. rewrite lookup_app_r by lia.
    rewrite Nat.sub_diag. reflexivity. }
  assert (Hafter : (length pre + length word <? length (pre ++ word ++ rest))%nat
                   && from_option Rewriter.isIdentifierChar false
                        ((pre ++ word ++ rest) !! (length pre + length word)%nat)
                   = Spec.identifier_head rest).
  { rewrite app_assoc, lookup_app_r by (rewrite length_app; lia).
    rewrite !length_app. replace (length pre + length word - (length pre + length word))%nat
      with 0%nat by lia.
    destruct rest as [|r rest]; cbn [length].
    - rewrite andb_false_r. reflexivity.
    - destruct (Nat.ltb_spec (length pre + length word)
                  (length pre + length word + S (length rest))); [reflexivity | lia]. }
  rewrite Hbefore. destruct (identifier_last pre); [reflexivity|].
  cbn [negb andb]. cbv zeta. rewrite Hafter.
  now destruct (Spec.identifier_head rest).
Qed.

(** The loop of [replaceSymbol], with the cursor after [done]: it
    finishes within [length rest] rounds and rewrites [rest] as the walk
    does. Where [original] starts right at the cursor, the character
    before the cursor must tell what the walk knows about the input. *)
Lemma replace_loop_walk : forall (fuel : nat) (done rest : text) (before : bool),
  (length rest <= fuel)%nat ->
  (Rewriter.starts_with original rest = true -> identifier_last done = before) ->
  Rewriter.replace_loop fuel (done ++ rest) (length done) original obfuscated
  = Some (done ++ walk before O rest).
Proof.
  destruct original_word as [Hne Hall].
  induction fuel as [|fuel IH]; intros done rest before Hfuel Hbefore.
  - destruct rest; [|simpl in Hfuel; lia].
    cbn [Rewriter.replace_loop Spec.rewrite_words]. unfold Rewriter.find.
    rewrite !app_nil_r, Nat.leb_refl, drop_all.
    assert (Hnone : Rewriter.find_in original [] = None)
      by (destruct original; [contradiction | reflexivity]).
    now rewrite Hnone.
  - cbn [Rewriter.replace_loop]. unfold Rewriter.find.
    rewrite length_app.
    destruct (Nat.leb_spec (length done) (length done + length rest)); [|lia].
    rewrite drop_app_length.
    destruct (Rewriter.find_in original rest) as [k|] eqn:Efind; cbn [option_map].
    2:{ now rewrite walk_no_occurrence. }
    destruct (walk_to_occurrence rest before k Efind) as (gap & tail & -> & Hk & Hs & Hw).
    apply starts_with_app in Hs as [rest' ->].
    rewrite Hw, walk_occurrence. subst k.
    replace (length done + length gap)%nat with (length (done ++ gap))
      by apply length_app.
    rewrite (app_assoc done gap). rewrite isWholeWord_between.
    assert (Hlast : identifier_last (done ++ gap)
                    = match last gap with
                      | Some c => Rewriter.isIdentifierChar c
                      | None => before
                      end).
    { destruct gap as [|g gap] using rev_ind.
      - rewrite app_nil_r. apply Hbefore. apply starts_with_app. eauto.
      - now rewrite app_assoc, !last_snoc. }
    rewrite Hlast.
    rewrite !length_app in Hfuel.
    assert (0 < length original)%nat by (destruct original; [contradiction | simpl; lia]).
    destruct (negb _ && negb (Spec.identifier_head rest')) eqn:Hwhole.
    + (* replaced: the cursor moves after the text put in *)
      replace (Rewriter.replace ((done ++ gap) ++ original ++ rest') (length (done ++ gap))
                 (length original) obfuscated)
        with (((done ++ gap) ++ obfuscated) ++ rest').
      2:{ unfold Rewriter.replace. rewrite take_app_length.
          rewrite (app_assoc (done ++ gap) original), <- length_app, drop_app_length.
          now rewrite <- app_assoc. }
      rewrite <- length_app.
      rewrite (IH ((done ++ gap) ++ obfuscated) rest' true); [now rewrite <- !app_assoc | lia |].
      intros Hs. apply starts_with_original_head in Hs.
      apply andb_prop in Hwhole as [_ Hafter]. rewrite Hs in Hafter. discriminate.
    + (* not a whole word: the cursor moves after the occurrence *)
      rewrite <- length_app, (app_assoc (done ++ gap) original).
      rewrite (IH ((done ++ gap) ++ original) rest' true);
        [now rewrite <- !app_assoc | lia |].
      intros _. apply identifier_last_original.
Qed.

Lemma replaceSymbol_walk (code : text) :
  Rewriter.replaceSymbol code original obfuscated = Some (walk false O code).
Proof.
  unfold Rewriter.replaceSymbol.
  apply (replace_loop_walk (S (length code)) [] code false); [lia | reflexivity].
Qed.

End RewriterProperties.

Lemma isWholeWord_boundaries (code : text) (pos : nat) (word : text) :
  Rewriter.isWholeWord code pos word = true
  <-> Spec.boundaries_free code pos (length word).
Proof.
  unfold Rewriter.isWholeWord, Spec.boundaries_free. cbv zeta.
  assert (Hbefore :
    (0 <? pos)%nat
    && from_option Rewriter.isIdentifierChar false (code !! (pos - 1)%nat) = false
    <-> (pos = 0%nat \/ forall c, code !! (pos - 1)%nat = Some c ->
                                  Rewriter.isIdentifierChar c = false)).
  { destruct (Nat.ltb_spec 0 pos) as [Hpos|Hpos]; cbn [andb].
    - destruct (code !! (pos - 1)%nat) as [c|]; cbn [from_option].
      + split; [intros H; right; now intros c' [= <-] |].
        intros [H|H]; [lia | now apply H].
      + split; [intros _; right; discriminate | reflexivity].
    - split; [intros _; left; lia | reflexivity]. }
  assert (Hafter :
    (pos + length word <? length code)%nat
    && from_option Rewriter.isIdentifierChar false (code !! (pos + length word)%nat) = false
    <-> forall c, code !! (pos + length word)%nat = Some c ->
                  Rewriter.isIdentifierChar c = false).
  { destruct (code !! (pos + length word)%nat) as [c|] eqn:E; cbn [from_option].
    - apply lookup_lt_Some in E as Hlt. apply Nat.ltb_lt in Hlt. rewrite Hlt. cbn [andb].
      split; [now intros H c' [= <-] | eauto].
    - rewrite andb_false_r. split; [discriminate | reflexivity]. }
  rewrite <- Hbefore, <- Hafter.
  destruct (_ && _); [split; [discriminate | intros [H _]; discriminate H]|].
  destruct (_ && _); [split; [discriminate | intros [_ H]; discriminate H]|].
  split; auto.
Qed.

(** The sort puts the originals in descending order of length. *)
Lemma insert_sorted_permutation (x : string * string) (l : list (string * string)) :
  Permutation (Rewriter.insert_sorted x l) (x :: l).
Proof.
  induction l as [|y l IH]; [reflexivity|]. cbn [Rewriter.insert_sorted].
  destruct (Rewriter.longer y x); [|reflexivity].
  rewrite IH. apply perm_swap.
Qed.

Lemma insert_sorted_sorted (x : string * string) (l : list (string * string)) :
  StronglySorted Spec.not_shorter l ->
  StronglySorted Spec.not_shorter (Rewriter.insert_sorted x l).
Proof.
  induction 1 as [|y l Hl IH Hy]; cbn [Rewriter.insert_sorted].
  - repeat constructor.
  - unfold Rewriter.longer.
    destruct (Nat.ltb_spec (String.length (fst x)) (String.length (fst y))) as [Hlt|Hge].
    + constructor; [assumption|].
      rewrite (insert_sorted_permutation x l). constructor; [|assumption].
      unfold Spec.not_shorter. lia.
    + constructor; [now constructor|].
      constructor; [exact Hge|].
      eapply List.Forall_impl; [|exact Hy]. unfold Spec.not_shorter. intros z Hz. lia.
Qed.

Lemma sort_longest_first_order (l : list (string * string)) :
  Permutation (Rewriter.sort_longest_first l) l
  /\ StronglySorted Spec.not_shorter (Rewriter.sort_longest_first l).
Proof.
  unfold Rewriter.sort_longest_first.
  induction l as [|x l [IHp IHs]]; cbn [fold_right].
  - split; [reflexivity | constructor].
  - split.
    + rewrite insert_sorted_permutation. now constructor.
    + now apply insert_sorted_sorted.
Qed.

(** The walk over a [std::map] visits every entry once. *)
Lemma stdmap_insert_permutation {A} (x : string * A) (l : list (string * A)) :
  Permutation (StdMap.insert x l) (x :: l).
Proof.
  induction l as [|y l IH]; [reflexivity|]. cbn [StdMap.insert].
  destruct (StdMap.less (fst y) (fst x)); [|reflexivity].
  rewrite IH. apply perm_swap.
Qed.

Lemma stdmap_sort_permutation {A} (l : list (string * A)) :
  Permutation (StdMap.sort l) l.
Proof.
  unfold StdMap.sort. induction l as [|x l IH]; cbn [fold_right]; [reflexivity|].
  rewrite stdmap_insert_permutation. now constructor.
Qed.

Lemma stdmap_entries_permutation {A} (m : gmap string A) :
  Permutation (StdMap.entries m) (map_to_list m).
Proof. apply stdmap_sort_permutation. Qed.

(** The walk is in the order of the keys. *)
Lemma ascii_compare_lt_trans (a b c : ascii) :
  Ascii.compare a b = Lt -> Ascii.compare b c = Lt -> Ascii.compare a c = Lt.
Proof.
  unfold Ascii.compare. rewrite !N.compare_lt_iff. apply N.lt_trans.
Qed.

Lemma string_compare_lt_trans (a : string) : forall b c : string,
  String.compare a b = Lt -> String.compare b c = Lt -> String.compare a c = Lt.
Proof.
  induction a as [|x a IH]; intros [|y b] [|z c]; cbn [String.compare];
    try discriminate; try reflexivity.
  destruct (Ascii.compare x y) eqn:Exy; try discriminate;
    destruct (Ascii.compare y z) eqn:Eyz; try discriminate; intros Hab Hbc.
  - apply Ascii.compare_eq_iff in Exy, Eyz. subst y z.
    replace (Ascii.compare x x) with Eq
      by (symmetry; unfold Ascii.compare; apply N.compare_refl).
    exact (IH b c Hab Hbc).
  - apply Ascii.compare_eq_iff in Exy. subst y. now rewrite Eyz.
  - apply Ascii.compare_eq_iff in Eyz. subst z. now rewrite Exy.
  - now rewrite (ascii_compare_lt_trans x y z Exy Eyz).
Qed.

Lemma less_trans (a b c : string) :
  StdMap.less a b = true -> StdMap.less b c = true -> StdMap.less a c = true.
Proof.
  unfold StdMap.less, String.ltb.
  destruct (String.compare a b) eqn:Eab; try discriminate.
  destruct (String.compare b c) eqn:Ebc; try discriminate.
  now rewrite (string_compare_lt_trans a b c Eab Ebc).
Qed.

Lemma less_total (a b : string) :
  StdMap.less b a = false -> a <> b -> StdMap.less a b = true.
Proof.
  unfold StdMap.less, String.ltb. rewrite (String.compare_antisym b a).
  destruct (String.compare a b) eqn:E; cbn [CompOpp]; try discriminate; try reflexivity.
  intros _ Hne. now apply String.compare_eq_iff in E.
Qed.

Lemma stdmap_insert_sorted {A} (x : string * A) (l : list (string * A)) :
  StronglySorted Spec.key_before l ->
  ~ In (fst x) (map fst l) ->
  StronglySorted Spec.key_before (StdMap.insert x l).
Proof.
  induction 1 as [|y l Hl IH Hy]; intros Hx; cbn [StdMap.insert].
  - repeat constructor.
  - cbn [map] in Hx.
    destruct (StdMap.less (fst y) (fst x)) eqn:E.
    + constructor; [apply IH; intros Hin; apply Hx; now right|].
      rewrite stdmap_insert_permutation. now constructor.
    + assert (Hxy : Spec.key_before x y).
      { apply less_total; [exact E|]. intros Heq. apply Hx. now left. }
      constructor; [now constructor|].
      constructor; [exact Hxy|].
      eapply List.Forall_impl; [|exact Hy].
      intros z Hz. exact (less_trans _ _ _ Hxy Hz).
Qed.

Lemma stdmap_sort_sorted {A} (l : list (string * A)) :
  List.NoDup (map fst l) -> StronglySorted Spec.key_before (StdMap.sort l).
Proof.
  unfold StdMap.sort. induction l as [|x l IH]; cbn [fold_right map]; intros Hnd.
  - constructor.
  - inversion Hnd as [|? ? Hx Hl]; subst.
    apply stdmap_insert_sorted; [now apply IH|].
    intros Hin. apply Hx.
    apply in_map_iff in Hin as (y & Hy & Hin). apply in_map_iff. exists y.
    split; [exact Hy|].
    eapply Permutation_in; [apply stdmap_sort_permutation | exact Hin].
Qed.

Lemma stdmap_entries_sorted {A} (m : gmap string A) :
  StronglySorted Spec.key_before (StdMap.entries m).
Proof.
  apply stdmap_sort_sorted. apply NoDup_ListNoDup, NoDup_fst_map_to_list.
Qed.

Lemma sorted_mapping_order (mapping : gmap string string) :
  Permutation (Rewriter.sorted_mapping mapping) (map_to_list mapping)
  /\ StronglySorted Spec.not_shorter (Rewriter.sorted_mapping mapping).
Proof.
  unfold Rewriter.sorted_mapping.
  destruct (sort_longest_first_order (StdMap.entries mapping)) as [Hp Hs].
  split; [|exact Hs].
  rewrite Hp. apply stdmap_entries_permutation.
Qed.

Lemma replace_all_walks (pairs : list (string * string)) : forall code : text,
  Forall (fun p => Spec.is_word (list_ascii_of_string (fst p))) pairs ->
  Rewriter.replace_all pairs code = Some (Spec.rewrite_all pairs code).
Proof.
  induction pairs as [|[original obfuscated] pairs IH]; intros code Hall; [reflexivity|].
  inversion Hall as [|? ? Hw Hrest]; subst. cbn [fst] in Hw.
  cbn [Rewriter.replace_all]. rewrite (replaceSymbol_walk _ _ Hw).
  now rewrite IH.
Qed.

(** C8, as the code has it. [isWholeWord] holds at a position iff the
    character before it (if any) and the character past the match (if
    any) are not identifier characters. For an original that is a name
    (not empty, made of identifier characters), [replaceSymbol] replaces
    exactly the occurrences in its input that have both boundaries free
    and copies the rest; after a replacement the scan resumes right
    after the text put in, which that pass does not look at again.
    [applyObfuscation] runs one such pass per original, in descending
    order of length, each pass over the whole buffer the passes before it
    have produced. *)
Theorem whole_identifier_rewriting :
  (forall (code : text) (pos : nat) (word : text),
     Rewriter.isWholeWord code pos word = true
     <-> Spec.boundaries_free code pos (length word))
  /\ (forall (fuel : nat) (code : text) (pos p : nat) (original obfuscated : text),
        Rewriter.find code original pos = Some p ->
        Rewriter.isWholeWord code p original = true ->
        Rewriter.replace_loop (S fuel) code pos original obfuscated
        = Rewriter.replace_loop fuel (Rewriter.replace code p (length original) obfuscated)
            (p + length obfuscated) original obfuscated)
  /\ (forall original obfuscated code : text,
        Spec.is_word original ->
        Rewriter.replaceSymbol code original obfuscated
        = Some (Spec.rewrite_words original obfuscated false O code))
  /\ (forall mapping : gmap string string,
        Permutation (Rewriter.sorted_mapping mapping) (map_to_list mapping)
        /\ StronglySorted Spec.not_shorter (Rewriter.sorted_mapping mapping))
  /\ (forall (source_code : string) (mapping : gmap string string),
        (forall k v, mapping !! k = Some v -> Spec.is_word (list_ascii_of_string k)) ->
        Rewriter.applyObfuscation source_code mapping
        = Some (string_of_list_ascii
                  (Spec.rewrite_all (Rewriter.sorted_mapping mapping)
                     (list_ascii_of_string source_code)))).
Proof.
  split; [exact isWholeWord_boundaries|].
  split; [intros fuel code pos p original obfuscated Hfind Hword;
          cbn [Rewriter.replace_loop]; now rewrite Hfind, Hword|].
  split; [intros original obfuscated code Hw; now apply replaceSymbol_walk|].
  split; [exact sorted_mapping_order|].
  intros source_code mapping Hkeys. unfold Rewriter.applyObfuscation.
  rewrite replace_all_walks; [reflexivity|].
  destruct (sorted_mapping_order mapping) as [Hperm _].
  rewrite Hperm. apply List.Forall_forall. intros [k v] Hin. cbn [fst].
  apply (Hkeys k v). apply elem_of_map_to_list. now apply list_elem_of_In.
Qed.

Lemma whole_identifier_rewriting_witness :
  let mapping : gmap string string := <["foo" := "f_1"]> (<["foo_bar" := "f_2"]> ∅) in
  Rewriter.applyObfuscation "foo(foo_bar, xfoo, foo);" mapping
  = Some "f_1(f_2, xfoo, f_1);".
Proof.
  intros mapping.
  destruct whole_identifier_rewriting as (_ & _ & _ & _ & Happly).
  rewrite Happly.
  - vm_compute. reflexivity.
  - intros k v Hk. subst mapping.
    apply lookup_insert_Some in Hk as [[<- _]|[_ Hk]];
      [split; [discriminate | repeat constructor]|].
    apply lookup_insert_Some in Hk as [[<- _]|[_ Hk]];
      [split; [discriminate | repeat constructor]|].
    rewrite lookup_empty in Hk. discriminate.
Defined.

(** C8 as stated fails in its last part: text put in by the pass for one
    original is scanned again by the pass for the next. With
    [validate_password -> f_x] and [f_x -> f_y], the first pass writes
    [f_x] and the second replaces that very [f_x] by [f_y]. *)
Lemma substituted_text_rescanned :
  let mapping : gmap string string :=
    <["validate_password" := "f_x"]> (<["f_x" := "f_y"]> ∅) in
  Rewriter.sorted_mapping mapping = [("validate_password", "f_x"); ("f_x", "f_y")]
  /\ Rewriter.replaceSymbol (list_ascii_of_string "validate_password(x);")
       (list_ascii_of_string "validate_password") (list_ascii_of_string "f_x")
     = Some (list_ascii_of_string "f_x(x);")
  /\ Rewriter.replaceSymbol (list_ascii_of_string "f_x(x);")
       (list_ascii_of_string "f_x") (list_ascii_of_string "f_y")
     = Some (list_ascii_of_string "f_y(x);")
  /\ Rewriter.applyObfuscation "validate_password(x);" mapping = Some "f_y(x);".
Proof. vm_compute. repeat split. Qed.

(** Originals of the same length are taken in the order of the keys:
    with [foo -> bar] and [bar -> baz] the pass for [bar] comes first,
    and the [bar] that the pass for [foo] writes stays. *)
Example equal_lengths_in_key_order :
  let mapping : gmap string string := <["foo" := "bar"]> (<["bar" := "baz"]> ∅) in
  Rewriter.sorted_mapping mapping = [("bar", "baz"); ("foo", "bar")]
  /\ Rewriter.applyObfuscation "foo bar" mapping = Some "bar baz".
Proof. vm_compute. repeat split. Qed.

(** The same at the level of the driver: the source defines
    [validate_password] and a function whose name is the hash of
    [validate_password]. The mapping keeps the two apart, the rewritten
    text does not: the pass for the shorter original renames what the
    pass before it has put in, and both functions end under one name. *)
Example driver_rescans_substituted_text :
  let '(r, o) :=
    CObfuscator.obfuscateSymbols zero_ssl Spec.no_pattern_matches
      Spec.two_functions_function_matches Spec.two_functions_variable_matches
      Spec.two_functions_source (CObfuscator.new Spec.two_functions_config) in
  map (fun m => (original_name m, obfuscated_name m)) (mappings_ o)
  = [("validate_password", "f_ff3ce83f05ab"); ("f_ff3ce83f05ab", "f_7f8660a87afc")]
  /\ r = Ok ("int f_7f8660a87afc(int x) { return x; } int f_7f8660a87afc(int x) { return f_7f8660a87afc(x); }",
             None).
Proof. vm_compute. split; reflexivity. Qed.

(* ===================================================================== *)
(** * Further properties                                                 *)
(* ===================================================================== *)

(** ** The hasher: digits, length and prefixes *)

Lemma substring_0_all (s : string) : forall n,
  (String.length s <= n)%nat -> String.substring 0 n s = s.
Proof.
  induction s as [|c s IH]; intros [|n] Hn; cbn in *; try reflexivity; try lia.
  rewrite IH by lia. reflexivity.
Qed.

Lemma substring_0_substring_0 (s : string) : forall n k,
  (n <= k)%nat -> String.substring 0 n (String.substring 0 k s) = String.substring 0 n s.
Proof.
  induction s as [|c s IH]; intros [|n] [|k] Hn; cbn in *; try reflexivity; try lia.
  rewrite IH by lia. reflexivity.
Qed.

Lemma truncateHash_substring (full_hash : string) (n : nat) :
  Hasher.truncateHash full_hash n = String.substring 0 n full_hash.
Proof.
  unfold Hasher.truncateHash, Str.substr.
  destruct (String.length full_hash <=? n)%nat eqn:E; [|reflexivity].
  apply Nat.leb_le in E. now rewrite substring_0_all.
Qed.

(** X1. [generateHash] returns lower-case hexadecimal digits only, and
    exactly [min(hash_length, 64 | 128 | 16)] of them for SHA-256,
    BLAKE2b and SipHash: a [hash_length] above the size of the digest
    text is not honoured, it yields the whole digest text. *)
Theorem generateHash_digits (ssl : OpenSSL) (h : CryptoHasher) (name context : string) :
  Spec.hex_of_length (Laws.digits h) (Hasher.generateHash ssl h name context)
  /\ ((Spec.full_length (algorithm (config_ h)) <= hash_length (config_ h))%nat ->
      String.length (Hasher.generateHash ssl h name context)
      = Spec.full_length (algorithm (config_ h))).
Proof.
  split; [split|].
  - apply generateHash_length.
  - apply generateHash_hex.
  - intros Hlen. rewrite generateHash_length. lia.
Qed.

Lemma generateHash_digits_witness :
  String.length
    (Hasher.generateHash zero_ssl (Hasher.new (siphash_config TYPED 40 "k"))
       "validate_password" "") = 16%nat.
Proof.
  apply (proj2 (generateHash_digits zero_ssl (Hasher.new (siphash_config TYPED 40 "k"))
                  "validate_password" "")).
  vm_compute. lia.
Defined.

(** X2. The digits for a shorter [hash_length] are a prefix of the
    digits for a longer one: the length only cuts the digest text, for
    every algorithm (the [output_len] handed to [blake2bHash] is not
    used). *)
Theorem generateHash_shorter_is_prefix (ssl : OpenSSL) (h : CryptoHasher) (n : nat)
    (name context : string) :
  (n <= hash_length (config_ h))%nat ->
  Hasher.generateHash ssl (Laws.with_hash_length n h) name context
  = Str.substr (Hasher.generateHash ssl h name context) 0 n.
Proof.
  intros Hn. unfold Hasher.generateHash, Str.substr.
  rewrite !truncateHash_substring.
  cbn [Laws.with_hash_length config_ algorithm hash_length global_salt].
  rewrite substring_0_substring_0 by exact Hn.
  destruct (algorithm (config_ h)); reflexivity.
Qed.

Lemma generateHash_shorter_is_prefix_witness :
  Hasher.generateHash zero_ssl
    (Laws.with_hash_length 4 (Hasher.new (siphash_config TYPED 12 "k")))
    "validate_password" ""
  = Str.substr
      (Hasher.generateHash zero_ssl (Hasher.new (siphash_config TYPED 12 "k"))
         "validate_password" "") 0 4.
Proof.
  apply generateHash_shorter_is_prefix. vm_compute. lia.
Defined.

Lemma with_temp_set_shape (ssl : OpenSSL) (h h' : CryptoHasher) (name prefix r : string) :
  Hasher.with_temp_set ssl name prefix h = (Ok r, h') ->
  exists input,
    r = Hasher.applyPrefix h (Hasher.generateHash ssl h input "") prefix.
Proof.
  unfold Hasher.with_temp_set, bind, ret.
  destruct (Hasher.generateUniqueHash ssl name ∅ prefix h) as [o h1] eqn:E.
  apply unique_inv in E.
  destruct o as [[r1 used']| |]; intros [= <- <-].
  destruct E as (Hin & _). now apply candidates_form in Hin.
Qed.

(** X3. What the typed entry points return. Under the [TYPED] style the
    result of [hashFunction], [hashVariable], [hashClass] and
    [hashNamespace] is "f_", "v_", "C_" and "N_" followed by the digits
    of [generateHash]; under the [UNDERSCORE] style each of the four
    returns "_" followed by the digits, so that the kind of the symbol
    is no longer visible in the name. *)
Theorem typed_entry_points_shape (ssl : OpenSSL) (h h' : CryptoHasher) (name r : string) :
  let shape prefix :=
    exists digits, r = prefix +:+ digits /\ Spec.hex_of_length (Laws.digits h) digits in
  (prefix_style (config_ h) = TYPED ->
     (Hasher.hashFunction ssl name h = (Ok r, h') -> shape "f_")
     /\ (Hasher.hashVariable ssl name h = (Ok r, h') -> shape "v_")
     /\ (Hasher.hashClass ssl name h = (Ok r, h') -> shape "C_")
     /\ (Hasher.hashNamespace ssl name h = (Ok r, h') -> shape "N_"))
  /\ (prefix_style (config_ h) = UNDERSCORE ->
      forall c : Spec.call,
        Laws.typed_entry c = true ->
        Spec.run_call ssl c h = (Ok r, h') -> shape "_").
Proof.
  intros shape.
  assert (Hshape : forall prefix expected,
    (forall hash, Hasher.applyPrefix h hash prefix = expected +:+ hash) ->
    Hasher.with_temp_set ssl name prefix h = (Ok r, h') -> shape expected).
  { intros prefix expected Hp Hrun. unfold shape.
    apply with_temp_set_shape in Hrun as [input ->].
    rewrite Hp. eexists. split; [reflexivity|].
    split; [apply generateHash_length | apply generateHash_hex]. }
  split.
  - intros Hstyle.
    unfold Hasher.hashFunction, Hasher.hashVariable, Hasher.hashClass,
      Hasher.hashNamespace, Hasher.typed_prefix.
    rewrite Hstyle.
    repeat split; apply Hshape; reflexivity.
  - intros Hstyle c Hc.
    assert (Hall : forall n p,
      Hasher.with_temp_set ssl n (Hasher.typed_prefix h p) h = (Ok r, h') -> shape "_").
    { intros n p Hrun. unfold shape.
      unfold Hasher.typed_prefix in Hrun. rewrite Hstyle in Hrun.
      apply with_temp_set_shape in Hrun as [input ->].
      unfold Hasher.applyPrefix. rewrite Hstyle. cbn [Str.empty negb].
      eexists. split; [reflexivity|].
      split; [apply generateHash_length | apply generateHash_hex]. }
    destruct c; try discriminate Hc; apply Hall.
Qed.

Lemma typed_entry_points_shape_witness :
  exists digits,
    "f_ff3ce83f05ab" = "f_" +:+ digits
    /\ Spec.hex_of_length
         (Laws.digits (Hasher.new (siphash_config TYPED 12 "k"))) digits.
Proof.
  pose (h := Hasher.new (siphash_config TYPED 12 "k")).
  refine (proj1 (proj1 (typed_entry_points_shape zero_ssl h
                   (snd (Hasher.hashFunction zero_ssl "validate_password" h))
                   "validate_password" "f_ff3ce83f05ab") _) _).
  - reflexivity.
  - vm_compute. reflexivity.
Defined.

(** ** The rename driver: what [generateMapping] maps, and to what *)

Section MappingProperties.
Variable ssl : OpenSSL.
Variable regex_search : string -> string -> bool.
Variable function_matches : string -> list string.
Variable variable_matches : string -> list string.

Lemma shouldPreserve_config (o o' : CSymbolObfuscator) (name : string) :
  obf_config_ o' = obf_config_ o ->
  CObfuscator.shouldPreserve regex_search o' name
  = CObfuscator.shouldPreserve regex_search o name.
Proof.
  intros E. unfold CObfuscator.shouldPreserve, CObfuscator.matchesPreservePattern.
  now rewrite E.
Qed.

(** One round of the loop: a preserved symbol changes nothing; any other
    symbol gets a name the hasher had not given out before. *)
Lemma map_symbol_inv (symbol : SymbolMapping) (mapping mapping' : gmap string string)
    (o o' : CSymbolObfuscator) :
  CObfuscator.map_symbol ssl regex_search symbol mapping o = (Ok mapping', o') ->
  (CObfuscator.shouldPreserve regex_search o (original_name symbol) = true
   /\ mapping' = mapping /\ o' = o)
  \/ (CObfuscator.shouldPreserve regex_search o (original_name symbol) = false
      /\ exists obfuscated,
           (obfuscated ∉ used_hashes_ (hasher_ o))
           /\ used_hashes_ (hasher_ o') = {[obfuscated]} ∪ used_hashes_ (hasher_ o)
           /\ mapping' = <[original_name symbol := obfuscated]> mapping
           /\ used_names_ o' = {[obfuscated]} ∪ used_names_ o
           /\ mappings_ o'
              = mappings_ o ++ [CObfuscator.with_obfuscated_name obfuscated symbol]
           /\ obf_config_ o' = obf_config_ o).
Proof.
  unfold CObfuscator.map_symbol.
  destruct (CObfuscator.shouldPreserve regex_search o (original_name symbol)) eqn:Hp.
  - intros [= <- <-]. left. repeat split.
  - right. split; [reflexivity|].
    assert (Hcall : exists c : Spec.call,
      (match type symbol with
       | FUNCTION => Hasher.hashFunction ssl (original_name symbol)
       | GLOBAL_VAR | STATIC_VAR => Hasher.hashVariable ssl (original_name symbol)
       | STRUCT => Hasher.hashClass ssl (original_name symbol)
       | _ => Hasher.hashVariable ssl (original_name symbol)
       end) = Spec.run_call ssl c).
    { destruct (type symbol);
        [ exists (Spec.call_hashFunction (original_name symbol))
        | exists (Spec.call_hashVariable (original_name symbol))
        | exists (Spec.call_hashVariable (original_name symbol))
        | exists (Spec.call_hashVariable (original_name symbol))
        | exists (Spec.call_hashVariable (original_name symbol))
        | exists (Spec.call_hashClass (original_name symbol))
        | exists (Spec.call_hashVariable (original_name symbol))
        | exists (Spec.call_hashVariable (original_name symbol)) ];
        reflexivity. }
    destruct Hcall as [c Hc]. rewrite Hc in H. clear Hc.
    unfold bind, CObfuscator.on_hasher, modify, ret in H.
    destruct (Spec.run_call ssl c (hasher_ o)) as [r h'] eqn:E.
    apply run_call_inv in E.
    destruct r as [obfuscated| |]; [|discriminate H..].
    destruct E as (Hfresh & Hused & _).
    injection H as <- <-. exists obfuscated. cbn. repeat split; assumption.
Qed.

(** The invariant of the loop of [generateMapping]. *)
Lemma map_symbols_inv (symbols : list SymbolMapping) :
  forall (mapping mapping' : gmap string string) (o o' : CSymbolObfuscator),
    CObfuscator.map_symbols ssl regex_search symbols mapping o = (Ok mapping', o') ->
    (forall k v, mapping !! k = Some v -> v ∈ used_hashes_ (hasher_ o)) ->
    (forall k1 k2 v, mapping !! k1 = Some v -> mapping !! k2 = Some v -> k1 = k2) ->
    obf_config_ o' = obf_config_ o
    /\ used_hashes_ (hasher_ o) ⊆ used_hashes_ (hasher_ o')
    /\ (forall k v, mapping' !! k = Some v -> v ∈ used_hashes_ (hasher_ o'))
    /\ (forall k1 k2 v, mapping' !! k1 = Some v -> mapping' !! k2 = Some v -> k1 = k2)
    /\ (forall k v, mapping' !! k = Some v ->
          mapping !! k = Some v
          \/ ((v ∉ used_hashes_ (hasher_ o)) /\ (v ∈ used_names_ o')))
    /\ (forall k, is_Some (mapping' !! k)
                  <-> is_Some (mapping !! k) \/ In k (Laws.renamed regex_search o symbols))
    /\ used_names_ o ⊆ used_names_ o'
    /\ map original_name (mappings_ o')
       = map original_name (mappings_ o) ++ Laws.renamed regex_search o symbols.
Proof.
  induction symbols as [|symbol symbols IH]; intros mapping mapping' o o' Hrun Hused Hinj.
  - injection Hrun as <- <-. cbn.
    repeat split; try reflexivity; try assumption.
    + intros k v Hk. now left.
    + intros Hk. now left.
    + intros [Hk|[]]. exact Hk.
    + now rewrite app_nil_r.
  - cbn [CObfuscator.map_symbols] in Hrun. unfold bind in Hrun.
    destruct (CObfuscator.map_symbol ssl regex_search symbol mapping o)
      as [[mapping1| |] o1] eqn:E1; [|discriminate Hrun..].
    apply map_symbol_inv in E1.
    destruct E1 as [(Hp & -> & ->)|(Hp & obf & Hfresh & Hu & -> & Hn & Hm & Hc)].
    + destruct (IH _ _ _ _ Hrun Hused Hinj) as (H1 & H2 & H3 & H4 & H5 & H6 & H7 & H8).
      unfold Laws.renamed. cbn [map List.filter]. rewrite Hp. cbn [negb].
      repeat split; try assumption; apply H6.
    + assert (Hused1 : forall k v,
        <[original_name symbol := obf]> mapping !! k = Some v ->
        v ∈ used_hashes_ (hasher_ o1)).
      { intros k v Hk. rewrite Hu.
        apply lookup_insert_Some in Hk as [[_ <-]|[_ Hk]].
        - apply elem_of_union_l, elem_of_singleton. reflexivity.
        - apply elem_of_union_r. eapply Hused, Hk. }
      assert (Hinj1 : forall k1 k2 v,
        <[original_name symbol := obf]> mapping !! k1 = Some v ->
        <[original_name symbol := obf]> mapping !! k2 = Some v -> k1 = k2).
      { intros k1 k2 v H1 H2.
        apply lookup_insert_Some in H1 as [[<- <-]|[Hne1 H1]];
          apply lookup_insert_Some in H2 as [[E2 E2']|[Hne2 H2]].
        - exact E2.
        - exfalso. apply Hfresh. eapply Hused, H2.
        - subst v. exfalso. apply Hfresh. eapply Hused, H1.
        - eapply Hinj; eassumption. }
      destruct (IH _ _ _ _ Hrun Hused1 Hinj1) as (H1 & H2 & H3 & H4 & H5 & H6 & H7 & H8).
      assert (Hren : Laws.renamed regex_search o (symbol :: symbols)
                     = original_name symbol :: Laws.renamed regex_search o1 symbols).
      { unfold Laws.renamed. cbn [map List.filter]. rewrite Hp. cbn [negb].
        rewrite (filter_ext
                   (fun name => negb (CObfuscator.shouldPreserve regex_search o name))
                   (fun name => negb (CObfuscator.shouldPreserve regex_search o1 name)));
          [reflexivity|].
        intros name. rewrite (shouldPreserve_config o o1 name Hc). reflexivity. }
      rewrite Hren.
      repeat split.
      * congruence.
      * intros x Hx. apply H2. rewrite Hu. now apply elem_of_union_r.
      * exact H3.
      * exact H4.
      * intros k v Hk. destruct (H5 k v Hk) as [Hk1|[Hk1 Hk2]].
        -- apply lookup_insert_Some in Hk1 as [[_ <-]|[_ Hk1]].
           ++ right. split; [exact Hfresh|].
              apply H7. rewrite Hn. apply elem_of_union_l, elem_of_singleton. reflexivity.
           ++ now left.
        -- right. split; [|exact Hk2].
           intros Hv. apply Hk1. rewrite Hu. now apply elem_of_union_r.
      * intros Hk. apply H6 in Hk as [Hk|Hk].
        -- destruct (decide (original_name symbol = k)) as [<-|Hne].
           ++ right. now left.
           ++ left. now rewrite lookup_insert_ne in Hk.
        -- right. now right.
      * intros [Hk|[<-|Hk]]; apply H6.
        -- left. destruct (decide (original_name symbol = k)) as [<-|Hne].
           ++ rewrite lookup_insert_eq. eauto.
           ++ now rewrite lookup_insert_ne.
        -- left. rewrite lookup_insert_eq. eauto.
        -- now right.
      * intros x Hx. apply H7. rewrite Hn. now apply elem_of_union_r.
      * rewrite H8, Hm, map_app. cbn. now rewrite <- app_assoc.
Qed.

Lemma generateMapping_inv (symbols : list SymbolMapping) (mapping : gmap string string)
    (o o' : CSymbolObfuscator) :
  CObfuscator.generateMapping ssl regex_search symbols o = (Ok mapping, o') ->
  obf_config_ o' = obf_config_ o
  /\ (forall k1 k2 v, mapping !! k1 = Some v -> mapping !! k2 = Some v -> k1 = k2)
  /\ (forall k v, mapping !! k = Some v ->
        (v ∉ used_hashes_ (hasher_ o)) /\ (v ∈ used_hashes_ (hasher_ o'))
        /\ (v ∈ used_names_ o'))
  /\ (forall k, is_Some (mapping !! k) <-> In k (Laws.renamed regex_search o symbols))
  /\ map original_name (mappings_ o')
     = map original_name (mappings_ o) ++ Laws.renamed regex_search o symbols.
Proof.
  intros Hrun. unfold CObfuscator.generateMapping in Hrun.
  apply map_symbols_inv in Hrun as (H1 & H2 & H3 & H4 & H5 & H6 & H7 & H8).
  - split; [exact H1|]. split; [exact H4|]. split; [|split; [|exact H8]].
    + intros k v Hk. destruct (H5 k v Hk) as [Hk1|[Hk1 Hk2]].
      * now rewrite lookup_empty in Hk1.
      * repeat split; try assumption. eapply H3, Hk.
    + intros k. rewrite H6. rewrite lookup_empty. split.
      * intros [[x Hx]|Hk]; [discriminate Hx | exact Hk].
      * intros Hk. now right.
  - intros k v Hk. now rewrite lookup_empty in Hk.
  - intros k1 k2 v Hk. now rewrite lookup_empty in Hk.
Qed.

End MappingProperties.

(** X4. The mapping [generateMapping] returns is injective: two different
    original names never get the same obfuscated name in one run. Every
    obfuscated name is new to the hasher (it was in no [used_hashes_]
    before the run) and is recorded in [used_hashes_] and [used_names_]. *)
Theorem generateMapping_injective (ssl : OpenSSL) (regex_search : string -> string -> bool)
    (symbols : list SymbolMapping) (mapping : gmap string string)
    (o o' : CSymbolObfuscator) :
  CObfuscator.generateMapping ssl regex_search symbols o = (Ok mapping, o') ->
  (forall k1 k2 v, mapping !! k1 = Some v -> mapping !! k2 = Some v -> k1 = k2)
  /\ (forall k v, mapping !! k = Some v ->
        (v ∉ used_hashes_ (hasher_ o)) /\ (v ∈ used_hashes_ (hasher_ o'))
        /\ (v ∈ used_names_ o')).
Proof.
  intros Hrun. apply generateMapping_inv in Hrun as (_ & H1 & H2 & _). now split.
Qed.

(** X5. [generateMapping] maps a name iff it is the name of a scanned
    symbol that [shouldPreserve] rejects: no keyword, no member of
    [preserve_symbols] and no name matched by a preserve pattern is ever
    a key of the mapping. [mappings_] grows by one entry per such symbol,
    in scan order (a name scanned twice is entered twice), and the
    configuration is left as it was. *)
Theorem generateMapping_keys (ssl : OpenSSL) (regex_search : string -> string -> bool)
    (symbols : list SymbolMapping) (mapping : gmap string string)
    (o o' : CSymbolObfuscator) :
  CObfuscator.generateMapping ssl regex_search symbols o = (Ok mapping, o') ->
  (forall k, is_Some (mapping !! k)
             <-> In k (map original_name symbols)
                 /\ CObfuscator.shouldPreserve regex_search o k = false)
  /\ map original_name (mappings_ o')
     = map original_name (mappings_ o)
       ++ List.filter (fun name => negb (CObfuscator.shouldPreserve regex_search o name))
            (map original_name symbols)
  /\ obf_config_ o' = obf_config_ o.
Proof.
  intros Hrun. apply generateMapping_inv in Hrun as (H0 & _ & _ & H1 & H2).
  split; [|split; [exact H2 | exact H0]].
  intros k. rewrite H1. unfold Laws.renamed. rewrite filter_In, negb_true_iff. reflexivity.
Qed.

Lemma generateMapping_injective_witness :
  let o := CObfuscator.new Spec.two_functions_config in
  let symbols := [CObfuscator.declared "validate_password" FUNCTION;
                  CObfuscator.declared "counter" GLOBAL_VAR;
                  CObfuscator.declared "main" FUNCTION] in
  let o' := snd (CObfuscator.generateMapping zero_ssl Spec.no_pattern_matches symbols o) in
  let mapping : gmap string string :=
    <["validate_password" := "f_ff3ce83f05ab"]> (<["counter" := "v_6966072322a4"]> ∅) in
  (forall k1 k2 v, mapping !! k1 = Some v -> mapping !! k2 = Some v -> k1 = k2)
  /\ (forall k v, mapping !! k = Some v ->
        (v ∉ used_hashes_ (hasher_ o)) /\ (v ∈ used_hashes_ (hasher_ o'))
        /\ (v ∈ used_names_ o')).
Proof.
  intros o symbols o' mapping.
  apply (generateMapping_injective zero_ssl Spec.no_pattern_matches symbols mapping o o').
  vm_compute. reflexivity.
Defined.

Lemma generateMapping_keys_witness :
  let o := CObfuscator.new Spec.two_functions_config in
  let symbols := [CObfuscator.declared "validate_password" FUNCTION;
                  CObfuscator.declared "counter" GLOBAL_VAR;
                  CObfuscator.declared "main" FUNCTION] in
  let o' := snd (CObfuscator.generateMapping zero_ssl Spec.no_pattern_matches symbols o) in
  let mapping : gmap string string :=
    <["validate_password" := "f_ff3ce83f05ab"]> (<["counter" := "v_6966072322a4"]> ∅) in
  (forall k, is_Some (mapping !! k)
             <-> In k (map original_name symbols)
                 /\ CObfuscator.shouldPreserve Spec.no_pattern_matches o k = false)
  /\ map original_name (mappings_ o')
     = map original_name (mappings_ o)
       ++ List.filter
            (fun name => negb (CObfuscator.shouldPreserve Spec.no_pattern_matches o name))
            (map original_name symbols)
  /\ obf_config_ o' = obf_config_ o.
Proof.
  intros o symbols o' mapping.
  apply (generateMapping_keys zero_ssl Spec.no_pattern_matches symbols mapping o o').
  vm_compute. reflexivity.
Defined.

(** X6. A run in which every scanned name is preserved writes the input
    text back unchanged, records no mapping and leaves the obfuscator as
    it was; the mapping document, when one is written, is the export of
    that unchanged state. *)
Theorem obfuscateSymbols_all_preserved (ssl : OpenSSL)
    (regex_search : string -> string -> bool)
    (function_matches variable_matches : string -> list string)
    (source_code : string) (o : CSymbolObfuscator) :
  (forall name, In name (function_matches source_code ++ variable_matches source_code) ->
                CObfuscator.shouldPreserve regex_search o name = true) ->
  CObfuscator.obfuscateSymbols ssl regex_search function_matches variable_matches
    source_code o
  = (Ok (source_code,
         if generate_map (obf_config_ o) then Some (CObfuscator.exportMapping o) else None),
     o).
Proof.
  intros Hall.
  assert (Hnone : forall t names,
    (forall name, In name names -> CObfuscator.shouldPreserve regex_search o name = true) ->
    flat_map (fun name => if CObfuscator.shouldPreserve regex_search o name
                          then [] else [CObfuscator.declared name t]) names = []).
  { intros t names. induction names as [|n names IH]; intros Hn; [reflexivity|].
    cbn [flat_map]. rewrite (Hn n (or_introl eq_refl)). cbn [app].
    apply IH. intros name Hin. apply Hn. now right. }
  assert (Hparse : CObfuscator.parseDeclarations regex_search function_matches
                     variable_matches o source_code = []).
  { unfold CObfuscator.parseDeclarations.
    rewrite !Hnone; [reflexivity| |]; intros name Hin; apply Hall, in_or_app; tauto. }
  unfold CObfuscator.obfuscateSymbols, bind, gets. rewrite Hparse.
  cbn [CObfuscator.generateMapping CObfuscator.map_symbols ret].
  unfold Rewriter.applyObfuscation, Rewriter.sorted_mapping, StdMap.entries.
  rewrite map_to_list_empty.
  cbn [StdMap.sort Rewriter.sort_longest_first fold_right Rewriter.replace_all
       fmap option_fmap option_map].
  rewrite string_of_list_ascii_of_string. reflexivity.
Qed.

Lemma obfuscateSymbols_all_preserved_witness :
  CObfuscator.obfuscateSymbols zero_ssl Spec.no_pattern_matches
    (fun _ => ["main"]) (fun _ => []) "int main(void) { return 0; }"
    (CObfuscator.new Spec.two_functions_config)
  = (Ok ("int main(void) { return 0; }", None), CObfuscator.new Spec.two_functions_config).
Proof.
  apply (obfuscateSymbols_all_preserved zero_ssl Spec.no_pattern_matches
           (fun _ => ["main"]) (fun _ => []) "int main(void) { return 0; }"
           (CObfuscator.new Spec.two_functions_config)).
  intros name [<-|[]]. vm_compute. reflexivity.
Defined.

(** ** The text rewriter: termination, tokens and separators *)

Lemma starts_with_length (word code : text) :
  Rewriter.starts_with word code = true -> (length word <= length code)%nat.
Proof.
  intros H. apply starts_with_app in H as [rest ->]. rewrite length_app. lia.
Qed.

Lemma find_in_bound (word : text) : forall (code : text) (k : nat),
  Rewriter.find_in word code = Some k -> (k + length word <= length code)%nat.
Proof.
  induction code as [|c code IH]; intros k; cbn [Rewriter.find_in].
  - destruct (Rewriter.starts_with word []) eqn:E; [|discriminate].
    intros [= <-]. now apply starts_with_length in E.
  - destruct (Rewriter.starts_with word (c :: code)) eqn:E.
    + intros [= <-]. now apply starts_with_length in E.
    + destruct (Rewriter.find_in word code) as [k'|]; [|discriminate].
      intros [= <-]. specialize (IH k' eq_refl). cbn [length]. lia.
Qed.

Lemma find_bound (code word : text) (pos p : nat) :
  Rewriter.find code word pos = Some p ->
  (pos <= p)%nat /\ (p + length word <= length code)%nat.
Proof.
  unfold Rewriter.find.
  destruct (Nat.leb_spec pos (length code)); [|discriminate].
  destruct (Rewriter.find_in word (skipn pos code)) as [k|] eqn:E; [|discriminate].
  intros [= <-]. apply find_in_bound in E. rewrite length_skipn in E. lia.
Qed.

Lemma replace_length (code : text) (pos len : nat) (s : text) :
  (pos + len <= length code)%nat ->
  length (Rewriter.replace code pos len s) = (length code - len + length s)%nat.
Proof.
  intros H. unfold Rewriter.replace.
  rewrite !length_app, length_firstn, length_skipn. lia.
Qed.

(** The loop of [replaceSymbol] finishes when [original] is not empty:
    every round leaves less text after the cursor. *)
Lemma replace_loop_terminates (original obfuscated : text) :
  original <> [] ->
  forall (fuel : nat) (code : text) (pos : nat),
    (length code - pos < fuel)%nat ->
    exists out, Rewriter.replace_loop fuel code pos original obfuscated = Some out.
Proof.
  intros Hne.
  assert (Hlen : (0 < length original)%nat)
    by (destruct original; [contradiction | cbn; lia]).
  induction fuel as [|fuel IH]; intros code pos Hfuel; [lia|].
  cbn [Rewriter.replace_loop].
  destruct (Rewriter.find code original pos) as [p|] eqn:Efind; [|eauto].
  apply find_bound in Efind as [Hp Hend].
  destruct (Rewriter.isWholeWord code p original).
  - apply IH. rewrite replace_length by exact Hend. lia.
  - apply IH. lia.
Qed.

Lemma replace_all_terminates (pairs : list (string * string)) : forall code : text,
  Forall (fun p => fst p <> "") pairs ->
  exists out, Rewriter.replace_all pairs code = Some out.
Proof.
  induction pairs as [|[original obfuscated] pairs IH]; intros code Hall; [cbn; eauto|].
  inversion Hall as [|? ? Hne Hrest]; subst. cbn [Rewriter.replace_all].
  destruct (replace_loop_terminates (list_ascii_of_string original)
              (list_ascii_of_string obfuscated)) with
    (fuel := S (length code)) (code := code) (pos := 0%nat) as [out Hout].
  - cbn in Hne. destruct original; [contradiction | discriminate].
  - lia.
  - unfold Rewriter.replaceSymbol. rewrite Hout. now apply IH.
Qed.

(** With the empty string for [original] the loop never leaves:
    [find] answers the cursor itself, and neither branch moves the cursor
    past the end of the buffer. *)
Lemma replace_loop_empty_original (obfuscated : text) :
  forall (fuel : nat) (code : text) (pos : nat),
    (pos <= length code)%nat ->
    Rewriter.replace_loop fuel code pos [] obfuscated = None.
Proof.
  induction fuel as [|fuel IH]; intros code pos Hpos;
    cbn [Rewriter.replace_loop]; unfold Rewriter.find;
    (destruct (Nat.leb_spec pos (length code)); [|lia]);
    (assert (Hfind : Rewriter.find_in [] (skipn pos code) = Some 0%nat)
       by (destruct (skipn pos code); reflexivity));
    rewrite Hfind; cbn [option_map]; [reflexivity|].
  rewrite Nat.add_0_r.
  destruct (Rewriter.isWholeWord code pos []).
  - apply IH. rewrite replace_length by (cbn; lia). cbn [length]. lia.
  - apply IH. cbn [length]. lia.
Qed.

Lemma replace_all_empty_original (obfuscated : string) (pairs : list (string * string)) :
  forall code : text,
    In ("", obfuscated) pairs -> Rewriter.replace_all pairs code = None.
Proof.
  induction pairs as [|[k v] pairs IH]; intros code Hin; [destruct Hin|].
  cbn [Rewriter.replace_all].
  destruct Hin as [[= -> ->]|Hin].
  - unfold Rewriter.replaceSymbol. cbn [list_ascii_of_string].
    rewrite replace_loop_empty_original by lia. reflexivity.
  - destruct (Rewriter.replaceSymbol code (list_ascii_of_string k)
                (list_ascii_of_string v)); [|reflexivity].
    now apply IH.
Qed.

(** X7. [replaceSymbol] returns for every buffer when [original] is not
    empty (whatever characters it is made of), and [applyObfuscation]
    returns exactly when the mapping has no empty key. With the empty
    string as a key the loop of [replaceSymbol] never finishes: after any
    number of rounds it is still running. *)
Theorem applyObfuscation_terminates_iff (source_code : string)
    (mapping : gmap string string) :
  (forall code original obfuscated : text,
     original <> [] -> is_Some (Rewriter.replaceSymbol code original obfuscated))
  /\ (forall (fuel : nat) (code obfuscated : text),
        Rewriter.replace_loop fuel code 0 [] obfuscated = None)
  /\ (is_Some (Rewriter.applyObfuscation source_code mapping) <-> mapping !! "" = None).
Proof.
  split; [|split].
  - intros code original obfuscated Hne. unfold Rewriter.replaceSymbol.
    destruct (replace_loop_terminates original obfuscated Hne (S (length code)) code 0)
      as [out ->]; [lia | eauto].
  - intros fuel code obfuscated. apply replace_loop_empty_original. lia.
  - unfold Rewriter.applyObfuscation.
    destruct (sorted_mapping_order mapping) as [Hperm _].
    split.
    + intros Hsome. destruct (mapping !! "") as [v|] eqn:E; [|reflexivity].
      apply elem_of_map_to_list in E. apply list_elem_of_In in E.
      apply (Permutation_in _ (Permutation_sym Hperm)) in E.
      rewrite (replace_all_empty_original v _ _ E) in Hsome.
      destruct Hsome as [x Hx]. discriminate Hx.
    + intros Hnone.
      destruct (replace_all_terminates (Rewriter.sorted_mapping mapping)
                  (list_ascii_of_string source_code)) as [out ->]; [|cbn; eauto].
      apply List.Forall_forall. intros [k v] Hin Hk. cbn in Hk. subst k.
      apply (Permutation_in _ Hperm) in Hin.
      apply list_elem_of_In, elem_of_map_to_list in Hin. congruence.
Qed.

Lemma applyObfuscation_terminates_iff_witness :
  is_Some (Rewriter.replaceSymbol (list_ascii_of_string "a+b") (list_ascii_of_string "+")
             (list_ascii_of_string "-")).
Proof.
  apply (proj1 (applyObfuscation_terminates_iff "" ∅)). discriminate.
Defined.

Section TokenProperties.
Variable original obfuscated : text.
Hypothesis original_word : Spec.is_word original.

Local Abbreviation walk' := (Spec.rewrite_words original obfuscated).

(** A word cannot start across a character that is not an identifier
    character. *)
Lemma starts_with_separator (sep : ascii) (b : text) :
  Rewriter.isIdentifierChar sep = false ->
  forall (word a : text),
    Forall (fun c => Rewriter.isIdentifierChar c = true) word ->
    Rewriter.starts_with word (a ++ sep :: b) = Rewriter.starts_with word a.
Proof.
  intros Hsep. induction word as [|x word IH]; intros a Hword; [reflexivity|].
  inversion Hword as [|? ? Hx Hrest]; subst.
  destruct a as [|c a]; cbn [app Rewriter.starts_with].
  - destruct (Ascii.eqb_spec x sep) as [->|]; [congruence | reflexivity].
  - now rewrite IH.
Qed.

Lemma identifier_head_separator (sep : ascii) (rest b : text) :
  Rewriter.isIdentifierChar sep = false ->
  Spec.identifier_head (rest ++ sep :: b) = Spec.identifier_head rest.
Proof. intros Hsep. destruct rest; [exact Hsep | reflexivity]. Qed.

Lemma walk_separator (sep : ascii) (b : text) :
  Rewriter.isIdentifierChar sep = false ->
  forall (a : text) (before : bool) (skip : nat),
    (skip <= length a)%nat ->
    walk' before skip (a ++ sep :: b) = walk' before skip a ++ sep :: walk' false O b.
Proof.
  intros Hsep. destruct original_word as [Hne Hall].
  induction a as [|c a IH]; intros before skip Hskip.
  - cbn [length] in Hskip. assert (skip = O) as -> by lia.
    cbn [app Spec.rewrite_words].
    pose proof (starts_with_separator sep b Hsep original [] Hall) as Hs.
    cbn [app] in Hs. rewrite Hs.
    assert (Hnil : Rewriter.starts_with original [] = false)
      by (destruct original; [contradiction | reflexivity]).
    rewrite Hnil, Hsep. reflexivity.
  - cbn [length] in Hskip. rewrite <- app_comm_cons.
    destruct skip as [|k]; cbn [Spec.rewrite_words].
    + rewrite (app_comm_cons a (sep :: b) c).
      rewrite (starts_with_separator sep b Hsep original (c :: a) Hall).
      destruct (Rewriter.starts_with original (c :: a)) eqn:Es.
      * pose proof Es as Es'. apply starts_with_app in Es' as [rest Erest].
        assert (Hlen : (length original <= length (c :: a))%nat)
          by (rewrite Erest, length_app; lia).
        assert (Hskip1 : skipn (length original) ((c :: a) ++ sep :: b)
                         = rest ++ sep :: b).
        { rewrite Erest, <- app_assoc. apply drop_app_length. }
        assert (Hskip2 : skipn (length original) (c :: a) = rest).
        { rewrite Erest. apply drop_app_length. }
        rewrite Hskip1, Hskip2.
        rewrite (identifier_head_separator sep rest b Hsep).
        assert (0 < length original)%nat by (destruct original; [contradiction | cbn; lia]).
        destruct (true && negb before && negb (Spec.identifier_head rest)).
        -- rewrite IH by (cbn [length] in Hlen; lia).
           now rewrite <- app_assoc.
        -- rewrite IH by lia. reflexivity.
      * cbn [andb]. rewrite IH by lia. reflexivity.
    + rewrite IH by lia. reflexivity.
Qed.

Lemma walk_identifier_token (code : text) :
  Forall (fun c => Rewriter.isIdentifierChar c = true) code ->
  (code = original -> walk' false O code = obfuscated)
  /\ (code <> original -> walk' false O code = code).
Proof.
  intros Hcode. split.
  - intros ->. rewrite <- (app_nil_r original) at 2.
    rewrite (walk_occurrence original obfuscated original_word). cbn. apply app_nil_r.
  - intros Hne.
    destruct (Rewriter.starts_with original code) eqn:Es.
    + apply starts_with_app in Es as [rest ->].
      rewrite (walk_occurrence original obfuscated original_word).
      apply Forall_app in Hcode as [_ Hrest].
      destruct rest as [|r rest]; [now rewrite app_nil_r in Hne|].
      inversion Hrest as [|? ? Hr Hrest']; subst. cbn [Spec.identifier_head negb andb].
      rewrite Hr. cbn [negb andb].
      rewrite <- (app_nil_r (r :: rest)) at 1.
      rewrite (walk_identifier_run original obfuscated (r :: rest) [] Hrest).
      cbn [Spec.rewrite_words]. now rewrite app_nil_r.
    + destruct code as [|c code]; [reflexivity|].
      inversion Hcode as [|? ? Hc Hcode']; subst.
      cbn [Spec.rewrite_words]. rewrite Es. cbn [andb]. rewrite Hc.
      rewrite <- (app_nil_r code) at 1.
      rewrite (walk_identifier_run original obfuscated code [] Hcode').
      cbn [Spec.rewrite_words]. now rewrite app_nil_r.
Qed.

End TokenProperties.

(** X8. On a buffer that is one identifier token (identifier characters
    only), [replaceSymbol] with an identifier for [original] replaces the
    token iff the token is [original]: a token that merely contains
    [original], at its start, in the middle or at its end, is left as it
    is. *)
Theorem replaceSymbol_token (original obfuscated code : text) :
  Spec.is_word original ->
  Forall (fun c => Rewriter.isIdentifierChar c = true) code ->
  (code = original ->
   Rewriter.replaceSymbol code original obfuscated = Some obfuscated)
  /\ (code <> original ->
      Rewriter.replaceSymbol code original obfuscated = Some code).
Proof.
  intros Hword Hcode. rewrite (replaceSymbol_walk original obfuscated Hword).
  destruct (walk_identifier_token original obfuscated Hword code Hcode) as [H1 H2].
  split; intros H; f_equal; auto.
Qed.

Lemma replaceSymbol_token_witness :
  Rewriter.replaceSymbol (list_ascii_of_string "my_foo_bar") (list_ascii_of_string "foo")
    (list_ascii_of_string "f_1")
  = Some (list_ascii_of_string "my_foo_bar").
Proof.
  refine (proj2 (replaceSymbol_token (list_ascii_of_string "foo") (list_ascii_of_string "f_1")
                   (list_ascii_of_string "my_foo_bar") _ _) _).
  - split; [discriminate|]. repeat constructor.
  - repeat constructor.
  - discriminate.
Defined.

(** X9. [replaceSymbol] works on each side of a character that is not an
    identifier character on its own: the result for [a ++ sep :: b] is
    the result for [a], the separator, and the result for [b]. With the
    token rule this determines the result on every buffer: the tokens
    equal to [original] are replaced, everything else is copied. *)
Theorem replaceSymbol_separator (original obfuscated a b : text) (sep : ascii) :
  Spec.is_word original ->
  Rewriter.isIdentifierChar sep = false ->
  exists a' b',
    Rewriter.replaceSymbol a original obfuscated = Some a'
    /\ Rewriter.replaceSymbol b original obfuscated = Some b'
    /\ Rewriter.replaceSymbol (a ++ sep :: b) original obfuscated = Some (a' ++ sep :: b').
Proof.
  intros Hword Hsep. rewrite !(replaceSymbol_walk original obfuscated Hword).
  do 2 eexists. split; [reflexivity|]. split; [reflexivity|].
  f_equal. apply (walk_separator original obfuscated Hword sep b Hsep). lia.
Qed.

Lemma replaceSymbol_separator_witness :
  exists a' b',
    Rewriter.replaceSymbol (list_ascii_of_string "foo") (list_ascii_of_string "foo")
      (list_ascii_of_string "f_1") = Some a'
    /\ Rewriter.replaceSymbol (list_ascii_of_string "xfoo") (list_ascii_of_string "foo")
         (list_ascii_of_string "f_1") = Some b'
    /\ Rewriter.replaceSymbol (list_ascii_of_string "foo+xfoo") (list_ascii_of_string "foo")
         (list_ascii_of_string "f_1") = Some (a' ++ "+"%char :: b').
Proof.
  apply (replaceSymbol_separator (list_ascii_of_string "foo") (list_ascii_of_string "f_1")
           (list_ascii_of_string "foo") (list_ascii_of_string "xfoo") "+"%char).
  - split; [discriminate|]. repeat constructor.
  - reflexivity.
Defined.

(** ** The hasher with [hash_length] zero *)

Lemma generateHash_zero (ssl : OpenSSL) (h : CryptoHasher) (name context : string) :
  hash_length (config_ h) = 0%nat -> Hasher.generateHash ssl h name context = "".
Proof.
  intros Hz. pose proof (generateHash_length ssl h name context) as Hl.
  rewrite Hz in Hl. cbn in Hl.
  destruct (Hasher.generateHash ssl h name context); [reflexivity | discriminate Hl].
Qed.

(** X10. With [hash_length] zero the digits are empty, so every
    candidate of [generateUniqueHash] is the same identifier: what
    [applyPrefix] makes of the empty hash. The first call for a prefix
    returns it; once it is taken every call with that prefix runs
    through all the counters and throws. A second function can thus not
    be renamed by [hashFunction]. *)
Theorem zero_hash_length_collides (ssl : OpenSSL) (h : CryptoHasher) :
  hash_length (config_ h) = 0%nat ->
  (forall (name : string) (used_hashes : gset string) (prefix : string),
     let only := Hasher.applyPrefix h "" prefix in
     (forall counter, Hasher.candidate ssl h name prefix counter = only)
     /\ Hasher.generateUniqueHash ssl name used_hashes prefix h
        = if Spec.taken h used_hashes only
          then (Throw (Hasher.too_many_collisions name), h)
          else (Ok (only, {[only]} ∪ used_hashes),
                {| config_ := config_ h; used_hashes_ := {[only]} ∪ used_hashes_ h |}))
  /\ (forall (name1 name2 r1 : string) (h1 : CryptoHasher),
        Hasher.hashFunction ssl name1 h = (Ok r1, h1) ->
        Hasher.hashFunction ssl name2 h1
        = (Throw (Hasher.too_many_collisions name2), h1)).
Proof.
  intros Hz.
  assert (Hcand : forall h0 name prefix counter,
            hash_length (config_ h0) = 0%nat ->
            Hasher.candidate ssl h0 name prefix counter = Hasher.applyPrefix h0 "" prefix).
  { intros h0 name prefix [c|] H0; unfold Hasher.candidate; now rewrite generateHash_zero. }
  assert (Hunique : forall h0 name used prefix,
            hash_length (config_ h0) = 0%nat ->
            Hasher.generateUniqueHash ssl name used prefix h0
            = if Spec.taken h0 used (Hasher.applyPrefix h0 "" prefix)
              then (Throw (Hasher.too_many_collisions name), h0)
              else (Ok (Hasher.applyPrefix h0 "" prefix,
                        {[Hasher.applyPrefix h0 "" prefix]} ∪ used),
                    {| config_ := config_ h0;
                       used_hashes_ := {[Hasher.applyPrefix h0 "" prefix]} ∪ used_hashes_ h0 |})).
  { intros h0 name used prefix H0. rewrite generateUniqueHash_unique. unfold Spec.unique.
    unfold Spec.candidates. rewrite find_free_cons, (Hcand h0 name prefix None H0).
    destruct (Spec.taken h0 used (Hasher.applyPrefix h0 "" prefix)) eqn:Ht; [|reflexivity].
    rewrite find_all_false; [reflexivity|].
    intros k y Hk. apply list_lookup_fmap_Some in Hk as (c & -> & _).
    rewrite (Hcand h0 name prefix (Some c) H0), Ht. reflexivity. }
  split.
  - intros name used prefix only. split; [intros counter; now apply Hcand|].
    now apply Hunique.
  - intros name1 name2 r1 h1.
    unfold Hasher.hashFunction, Hasher.with_temp_set, bind, ret.
    rewrite (Hunique h name1 ∅ _ Hz).
    set (only := Hasher.applyPrefix h "" (Hasher.typed_prefix h "f_")).
    destruct (Spec.taken h ∅ only); [discriminate|].
    intros [= <- <-].
    assert (Hz1 : hash_length (config_ {| config_ := config_ h;
                                          used_hashes_ := {[only]} ∪ used_hashes_ h |})
                  = 0%nat) by exact Hz.
    rewrite (Hunique _ name2 ∅ _ Hz1).
    change (Hasher.applyPrefix _ "" (Hasher.typed_prefix _ "f_")) with only.
    assert (Ht : Spec.taken {| config_ := config_ h;
                               used_hashes_ := {[only]} ∪ used_hashes_ h |} ∅ only = true).
    { unfold Spec.taken. cbn [used_hashes_]. apply orb_true_iff. right.
      apply bool_decide_eq_true. apply elem_of_union_l, elem_of_singleton. reflexivity. }
    rewrite Ht. reflexivity.
Qed.

Lemma zero_hash_length_collides_witness :
  let h := Hasher.new (siphash_config TYPED 0 "k") in
  let h1 := snd (Hasher.hashFunction zero_ssl "first" h) in
  Hasher.hashFunction zero_ssl "second" h1
  = (Throw (Hasher.too_many_collisions "second"), h1).
Proof.
  intros h h1.
  refine (proj2 (zero_hash_length_collides zero_ssl h _) "first" "second" "f_" h1 _).
  - reflexivity.
  - vm_compute. reflexivity.
Defined.

(** ** The codec: length prefixes *)

Lemma substring_append_skip (a b : string) : forall pos len,
  String.substring (String.length a + pos) len (a +:+ b) = String.substring pos len b.
Proof. induction a as [|c a IH]; intros pos len; [reflexivity | exact (IH pos len)]. Qed.

Lemma substring_0_append (a b : string) :
  String.substring 0 (String.length a) (a +:+ b) = a.
Proof.
  induction a as [|c a IH]; cbn [String.length].
  - destruct b; reflexivity.
  - change (String c a +:+ b) with (String c (a +:+ b)).
    cbn [String.substring]. now rewrite IH.
Qed.

Lemma get_append_skip (a b : string) (n : nat) :
  String.get (String.length a + n) (a +:+ b) = String.get n b.
Proof. induction a as [|c a IH]; [reflexivity | exact IH]. Qed.

Lemma substr_from_append (a b : string) :
  Str.substr_from (a +:+ b) (String.length a) = b.
Proof.
  unfold Str.substr_from. rewrite length_append.
  replace (String.length a + String.length b - String.length a)%nat
    with (String.length b) by lia.
  rewrite <- (Nat.add_0_r (String.length a)) at 1.
  rewrite substring_append_skip. apply substring_0_all. lia.
Qed.

Lemma substr_z_append (a b c : string) :
  Str.substr_z (a +:+ b +:+ c) (Z.of_nat (String.length a)) (Z.of_nat (String.length b)) = b.
Proof.
  unfold Str.substr_z. rewrite !length_append, Nat2Z.id.
  replace (Z.to_nat (Z.min _ _)) with (String.length b) by lia.
  rewrite <- (Nat.add_0_r (String.length a)) at 1.
  rewrite substring_append_skip. apply substring_0_append.
Qed.

(** *** Decimal numbers as [std::to_string] writes and the parser reads them *)

Lemma of_uint_acc_le (d : Decimal.uint) : forall acc : positive,
  (acc <= Pos.of_uint_acc d acc)%positive.
Proof.
  induction d; intros acc; cbn [Pos.of_uint_acc]; try lia;
    match goal with
    | |- (_ <= Pos.of_uint_acc _ ?a)%positive => specialize (IHd a); lia
    end.
Qed.

Lemma string_of_uint_digits (d : Decimal.uint) :
  Str.all Str.isdigit (NilEmpty.string_of_uint d) = true.
Proof. induction d; cbn [NilEmpty.string_of_uint Str.all]; try reflexivity; exact IHd. Qed.

Lemma read_length_stop (rest : string) (len pos : Z) :
  Laws.ends_digits rest = true -> CppDemangler.read_length rest len pos = (len, pos).
Proof.
  destruct rest as [|c rest]; [reflexivity|]. cbn [Laws.ends_digits CppDemangler.read_length].
  intros H. apply negb_true_iff in H. now rewrite H.
Qed.

(** One digit read by the loop of [read_length]. *)
Ltac read_digit :=
  cbn [Pos.of_uint_acc Pos.of_uint NilEmpty.string_of_uint String.length];
  change (String ?c ?s +:+ ?r) with (String c (s +:+ r));
  cbn [CppDemangler.read_length];
  match goal with
  | |- context [Str.isdigit ?c] => change (Str.isdigit c) with true; cbv iota
  end;
  match goal with
  | |- context [Str.digit_value ?c] =>
      let v := eval vm_compute in (Z.of_nat (Str.digit_value c)) in
      change (Z.of_nat (Str.digit_value c)) with v
  end.

Ltac read_step d IH Hbound :=
  read_digit; cbn [Pos.of_uint_acc Pos.of_uint Z.of_N] in Hbound;
  match type of Hbound with
  | Z.pos (Pos.of_uint_acc _ ?a) < _ =>
      pose proof (of_uint_acc_le d a);
      match goal with
      | |- context [SipHasher.u64 ?x] =>
          replace (SipHasher.u64 x) with (Z.pos a)
            by (unfold SipHasher.u64; rewrite Z.mod_small; lia)
      end
  end;
  rewrite IH by exact Hbound; f_equal; lia.

Lemma read_length_uint_acc (rest : string) (d : Decimal.uint) :
  Laws.ends_digits rest = true ->
  forall (acc : positive) (pos : Z),
    Z.pos (Pos.of_uint_acc d acc) < 2 ^ 64 ->
    CppDemangler.read_length (NilEmpty.string_of_uint d +:+ rest) (Z.pos acc) pos
    = (Z.pos (Pos.of_uint_acc d acc),
       pos + Z.of_nat (String.length (NilEmpty.string_of_uint d))).
Proof.
  intros Hrest. induction d; intros acc pos Hbound;
    [ cbn; rewrite read_length_stop by exact Hrest; f_equal; lia
    | read_step d IHd Hbound .. ].
Qed.

Lemma read_length_uint (rest : string) (d : Decimal.uint) :
  Laws.ends_digits rest = true ->
  forall pos : Z,
    Z.of_N (Pos.of_uint d) < 2 ^ 64 ->
    CppDemangler.read_length (NilEmpty.string_of_uint d +:+ rest) 0 pos
    = (Z.of_N (Pos.of_uint d),
       pos + Z.of_nat (String.length (NilEmpty.string_of_uint d))).
Proof.
  intros Hrest. induction d; intros pos Hbound;
    [ cbn; rewrite read_length_stop by exact Hrest; f_equal; lia
    | read_digit; change (SipHasher.u64 (0 * 10 + 0)) with 0;
      cbn [Pos.of_uint] in Hbound; rewrite IHd by exact Hbound; f_equal; lia
    | read_digit; cbn [Pos.of_uint Z.of_N] in Hbound |- *;
      match goal with
      | |- context [SipHasher.u64 ?x] =>
          let v := eval vm_compute in (SipHasher.u64 x) in
          change (SipHasher.u64 x) with v
      end;
      rewrite (read_length_uint_acc rest d Hrest) by exact Hbound; f_equal; lia .. ].
Qed.

(** [std::to_string] of a [size_t]: decimal digits, at least one. *)
Lemma to_string_nat_uint (n : nat) :
  Str.to_string_nat n = NilEmpty.string_of_uint (N.to_uint (N.of_nat n))
  /\ N.to_uint (N.of_nat n) <> Decimal.Nil.
Proof.
  unfold Str.to_string_nat, Str.to_string.
  destruct n as [|n]; [split; [reflexivity | discriminate]|].
  rewrite <- nat_N_Z. destruct (N.of_nat (S n)) as [|p] eqn:E; [lia|].
  cbn [Z.of_N Z.to_int N.to_uint NilZero.string_of_int].
  assert (Hnil : Pos.to_uint p <> Decimal.Nil).
  { intros Hp. pose proof (DecimalPos.Unsigned.of_to p) as H. rewrite Hp in H.
    discriminate H. }
  split; [|exact Hnil].
  unfold NilZero.string_of_uint. destruct (Pos.to_uint p); [contradiction | reflexivity..].
Qed.

Lemma to_string_nat_digits (n : nat) :
  Str.all Str.isdigit (Str.to_string_nat n) = true
  /\ exists d ds, Str.to_string_nat n = String d ds /\ Str.isdigit d = true.
Proof.
  destruct (to_string_nat_uint n) as [E Hnil]. rewrite E.
  split; [apply string_of_uint_digits|].
  pose proof (string_of_uint_digits (N.to_uint (N.of_nat n))) as Hd.
  destruct (N.to_uint (N.of_nat n)); [contradiction|..];
    cbn [NilEmpty.string_of_uint]; do 2 eexists; (split; [reflexivity|reflexivity]).
Qed.

Lemma read_length_to_string (n : nat) (rest : string) (pos : Z) :
  Laws.ends_digits rest = true ->
  Z.of_nat n < 2 ^ 64 ->
  CppDemangler.read_length (Str.to_string_nat n +:+ rest) 0 pos
  = (Z.of_nat n, pos + Z.of_nat (String.length (Str.to_string_nat n))).
Proof.
  intros Hrest Hn. destruct (to_string_nat_uint n) as [E _]. rewrite E.
  assert (Hof : Z.of_N (Pos.of_uint (N.to_uint (N.of_nat n))) = Z.of_nat n).
  { change (Pos.of_uint ?d) with (N.of_uint d).
    rewrite DecimalN.Unsigned.of_to. apply nat_N_Z. }
  rewrite read_length_uint; [now rewrite Hof | exact Hrest | now rewrite Hof].
Qed.

Lemma ends_digits_token (name rest : string) :
  Laws.starts_without_digit name = true -> Laws.ends_digits (name +:+ rest) = true.
Proof. destruct name; [discriminate | intros H; exact H]. Qed.

(** X11. A length prefix reads back. After [encodeLengthPrefix name] the
    loop that reads a length yields [name.length()] and stops at the
    first character of [name], and the sub-string of that length there
    is [name], whatever follows: provided [name] does not start with a
    digit (its first digits would be read as part of the length). *)
Theorem length_prefix_reads_back (name rest : string) :
  Laws.starts_without_digit name = true ->
  Z.of_nat (String.length name) < 2 ^ 64 ->
  let text := Mangler.encodeLengthPrefix name +:+ rest in
  let digits := Z.of_nat (String.length (Str.to_string_nat (String.length name))) in
  CppDemangler.read_length text 0 0 = (Z.of_nat (String.length name), digits)
  /\ Str.substr_z text digits (Z.of_nat (String.length name)) = name.
Proof.
  intros Hname Hlen text digits. subst text digits.
  unfold Mangler.encodeLengthPrefix. rewrite append_assoc. split.
  - rewrite read_length_to_string; [reflexivity | | exact Hlen].
    now apply ends_digits_token.
  - apply substr_z_append.
Qed.

Lemma length_prefix_reads_back_witness :
  CppDemangler.read_length (Mangler.encodeLengthPrefix "MyClass" +:+ "6methodEv") 0 0
  = (7, 1)
  /\ Str.substr_z (Mangler.encodeLengthPrefix "MyClass" +:+ "6methodEv") 1 7 = "MyClass".
Proof.
  apply (length_prefix_reads_back "MyClass" "6methodEv"); [reflexivity | vm_compute; reflexivity].
Defined.

(** ** The codec: the parser on well-formed nested names *)

Lemma digit_is_not (d c : ascii) :
  Str.isdigit d = true -> Str.isdigit c = false -> Ascii.eqb d c = false.
Proof. intros Hd Hc. destruct (Ascii.eqb_spec d c) as [->|]; congruence. Qed.

Lemma length_prefixed_app (l1 l2 : list string) :
  Laws.length_prefixed (l1 ++ l2) = Laws.length_prefixed l1 +:+ Laws.length_prefixed l2.
Proof.
  induction l1 as [|n l1 IH]; [reflexivity|].
  cbn [app Laws.length_prefixed fold_right]. fold (Laws.length_prefixed (l1 ++ l2)).
  fold (Laws.length_prefixed l1). now rewrite IH, append_assoc.
Qed.

Lemma length_prefixed_length (names : list string) :
  (length names <= String.length (Laws.length_prefixed names))%nat.
Proof.
  induction names as [|n names IH]; [cbn; lia|].
  cbn [Laws.length_prefixed fold_right length]. fold (Laws.length_prefixed names).
  unfold Mangler.encodeLengthPrefix. rewrite !length_append.
  destruct (to_string_nat_digits (String.length n)) as (_ & d & ds & E & _).
  rewrite E. cbn [String.length]. lia.
Qed.

Lemma parse_nested_names (rest : string) :
  Laws.ends_digits rest = true ->
  forall (names : list string) (pre name : string) (c : CppSymbolComponents) (fuel : nat),
    name = pre +:+ Laws.length_prefixed names +:+ rest ->
    Forall (fun n => Laws.starts_without_digit n = true) names ->
    Z.of_nat (String.length name) < 2 ^ 64 ->
    (length names < fuel)%nat ->
    CppDemangler.parse_nested fuel name (Z.of_nat (String.length pre)) c
    = Some (Laws.assign_all names c).
Proof.
  intros Hrest. induction names as [|n names IH]; intros pre name c fuel Hname Hall Hlen Hfuel.
  - destruct fuel as [|fuel]; [cbn in Hfuel; lia|].
    cbn [CppDemangler.parse_nested Laws.assign_all fold_left].
    destruct (_ && _); [|reflexivity].
    rewrite Nat2Z.id.
    assert (Hfrom : Str.substr_from name (String.length pre) = rest).
    { rewrite Hname. apply substr_from_append. }
    rewrite Hfrom, read_length_stop by exact Hrest. reflexivity.
  - destruct fuel as [|fuel]; [cbn in Hfuel; lia|].
    apply Forall_cons in Hall as [Hn Hnames].
    cbn [Laws.length_prefixed fold_right] in Hname. fold (Laws.length_prefixed names) in Hname.
    unfold Mangler.encodeLengthPrefix in Hname.
    set (ds := Str.to_string_nat (String.length n)) in Hname.
    set (tail := Laws.length_prefixed names +:+ rest) in Hname.
    assert (Hname1 : name = pre +:+ ds +:+ n +:+ tail)
      by (rewrite Hname; unfold tail; now rewrite !append_assoc).
    assert (Hname2 : name = (pre +:+ ds) +:+ n +:+ tail)
      by (rewrite Hname1; now rewrite !append_assoc).
    assert (Hname3 : name = (pre +:+ ds +:+ n) +:+ Laws.length_prefixed names +:+ rest)
      by (rewrite Hname1; unfold tail; now rewrite !append_assoc).
    destruct (to_string_nat_digits (String.length n)) as (_ & d & ds' & Eds & Hd).
    fold ds in Eds.
    assert (Hsize : String.length name
                    = (String.length pre + String.length ds + String.length n
                       + String.length tail)%nat)
      by (rewrite Hname1, !length_append; lia).
    assert (Hds : (0 < String.length ds)%nat) by (rewrite Eds; cbn; lia).
    assert (Hnn : (0 < String.length n)%nat) by (destruct n; [discriminate | cbn; lia]).
    cbn [CppDemangler.parse_nested Laws.assign_all fold_left].
    fold (Laws.assign_all names (CppDemangler.assign_component n c)).
    assert (Hchar : CppDemangler.char_is name (Z.of_nat (String.length pre)) "E" = false).
    { unfold CppDemangler.char_is, Str.at_. rewrite Nat2Z.id, Hname1.
      rewrite <- (Nat.add_0_r (String.length pre)), get_append_skip, Eds.
      cbn [String.get]. change (String d ds' +:+ ?x) with (String d (ds' +:+ x)).
      cbn [String.get]. now apply digit_is_not. }
    rewrite Hchar. cbn [negb].
    destruct (Z.ltb_spec (Z.of_nat (String.length pre)) (Z.of_nat (String.length name)));
      [|lia].
    cbn [andb]. rewrite Nat2Z.id.
    assert (Hfrom : Str.substr_from name (String.length pre) = ds +:+ n +:+ tail).
    { rewrite Hname1. apply substr_from_append. }
    rewrite Hfrom. unfold ds at 1.
    rewrite read_length_to_string; [|now apply ends_digits_token|lia].
    fold ds.
    assert (Hu : SipHasher.u64 (Z.of_nat (String.length pre) + Z.of_nat (String.length ds)
                                + Z.of_nat (String.length n))
                 = Z.of_nat (String.length (pre +:+ ds +:+ n))).
    { unfold SipHasher.u64. rewrite Z.mod_small; rewrite ?length_append; lia. }
    rewrite Hu.
    destruct (Z.ltb_spec 0 (Z.of_nat (String.length n))); [|lia].
    destruct (Z.leb_spec (Z.of_nat (String.length (pre +:+ ds +:+ n)))
                (Z.of_nat (String.length name)));
      [|rewrite !length_append in *; lia].
    cbn [andb].
    assert (Hcomp : Str.substr_z name
                      (Z.of_nat (String.length pre) + Z.of_nat (String.length ds))
                      (Z.of_nat (String.length n)) = n).
    { rewrite <- Nat2Z.inj_add, <- length_append. rewrite Hname2 at 1.
      apply substr_z_append. }
    rewrite Hcomp.
    apply IH; [exact Hname3 | exact Hnames | exact Hlen | cbn [length] in Hfuel; lia].
Qed.

Lemma nested_name_start (x : string) : "_ZN" +:+ x = String "_" (String "Z" (String "N" x)).
Proof. reflexivity. Qed.

Lemma parse_nested_name_text (cxa_demangle : string -> option string)
    (names : list string) (rest : string) :
  Forall (fun n => Laws.starts_without_digit n = true) names ->
  Laws.ends_digits rest = true ->
  let name := "_ZN" +:+ Laws.length_prefixed names +:+ rest in
  Z.of_nat (String.length name) < 2 ^ 64 ->
  CppDemangler.parse cxa_demangle name
  = Some (Laws.assign_all names
            (Laws.nested_start (CppDemangler.demangle cxa_demangle name))).
Proof.
  intros Hall Hrest name Hlen. unfold CppDemangler.parse.
  assert (Hshape : exists x, name = String "_" (String "Z" (String "N" x)))
    by (eexists; apply nested_name_start).
  destruct Hshape as [x Hx].
  assert (Hm : CppDemangler.isCppMangled name = true) by (rewrite Hx; reflexivity).
  assert (H4 : forall t : ascii, Ascii.eqb "N" t = false ->
                 String.eqb (Str.substr name 0 4) (String "_" (String "Z" (String "T" (String t "")))) = false).
  { intros t Ht. rewrite Hx. reflexivity. }
  rewrite Hm. cbn [negb].
  rewrite !H4 by reflexivity.
  assert (Hn : CppDemangler.char_is name 2 "N" = true) by (rewrite Hx; reflexivity).
  rewrite Hn.
  destruct (Z.ltb_spec 2 (Z.of_nat (String.length name)));
    [|rewrite Hx in *; cbn [String.length] in *; lia].
  cbn [andb].
  change (2 + 1) with (Z.of_nat (String.length "_ZN")).
  apply (parse_nested_names rest Hrest names "_ZN" name); [reflexivity | exact Hall | exact Hlen |].
  pose proof (length_prefixed_length names). subst name. rewrite !length_append. lia.
Qed.

Lemma token_not_empty (s : string) :
  Laws.starts_without_digit s = true -> Str.empty s = false.
Proof. destruct s; [discriminate | reflexivity]. Qed.

Lemma last_default {A} (l : list A) (x d1 d2 : A) :
  List.last (x :: l) d1 = List.last (x :: l) d2.
Proof.
  revert x. induction l as [|y l IH]; intros x; [reflexivity|].
  change (List.last (y :: l) d1 = List.last (y :: l) d2). apply IH.
Qed.

Lemma assign_all_methods (more : list string) : forall c : CppSymbolComponents,
  Str.empty (namespace_name c) = false ->
  has_class c = true ->
  let c' := Laws.assign_all more c in
  namespace_name c' = namespace_name c /\ has_class c' = true
  /\ class_name c' = class_name c
  /\ method_name c' = List.last more (method_name c).
Proof.
  induction more as [|n more IH]; intros c Hns Hcls; [now repeat split|].
  cbn [Laws.assign_all fold_left]. fold (Laws.assign_all more (CppDemangler.assign_component n c)).
  assert (E : CppDemangler.assign_component n c = CppDemangler.set_method_name n c).
  { unfold CppDemangler.assign_component. now rewrite Hns, Hcls. }
  rewrite E.
  destruct (IH (CppDemangler.set_method_name n c) Hns Hcls) as (H1 & H2 & H3 & H4).
  repeat split; try assumption.
  rewrite H4. destruct more as [|s more]; [reflexivity|].
  change (List.last (n :: s :: more) (method_name c))
    with (List.last (s :: more) (method_name c)).
  apply last_default.
Qed.

(** X12. The parser on a nested name whose components are well formed:
    "_ZN", then length-prefixed names none of which starts with a digit,
    then nothing or a character that is not a digit. The loop finishes,
    and the names are assigned in order: the first to [namespace_name],
    the second to [class_name]; each later one overwrites [method_name],
    so of three or more names only the first, the second and the last
    are kept. With fewer than three names [method_name] stays the
    demangled text. *)
Theorem parse_length_prefixed_names (cxa_demangle : string -> option string)
    (names : list string) (rest : string) :
  Forall (fun n => Laws.starts_without_digit n = true) names ->
  Laws.ends_digits rest = true ->
  let name := "_ZN" +:+ Laws.length_prefixed names +:+ rest in
  let start := Laws.nested_start (CppDemangler.demangle cxa_demangle name) in
  Z.of_nat (String.length name) < 2 ^ 64 ->
  CppDemangler.parse cxa_demangle name = Some (Laws.assign_all names start)
  /\ (forall a, names = [a] ->
        Laws.assign_all names start = CppDemangler.set_namespace_name a start)
  /\ (forall a b more, names = a :: b :: more ->
        let c := Laws.assign_all names start in
        namespace_name c = a /\ has_class c = true /\ class_name c = b
        /\ method_name c = List.last more (CppDemangler.demangle cxa_demangle name)).
Proof.
  intros Hall Hrest name start Hlen. split; [|split].
  - now apply parse_nested_name_text.
  - intros a ->. reflexivity.
  - intros a b more ->. cbn zeta.
    apply Forall_cons in Hall as [Ha Hall]. apply Forall_cons in Hall as [Hb _].
    apply token_not_empty in Ha.
    cbn [Laws.assign_all fold_left].
    fold (Laws.assign_all more
            (CppDemangler.assign_component b (CppDemangler.assign_component a start))).
    assert (E : CppDemangler.assign_component b (CppDemangler.assign_component a start)
                = CppDemangler.set_class b (CppDemangler.set_namespace_name a start)).
    { unfold CppDemangler.assign_component at 2. cbn [start Laws.nested_start namespace_name
        CppDemangler.set_has_namespace CppDemangler.set_method_name CppDemangler.set_prefix
        CppDemangler.set_is_mangled CppSymbolComponents_default Str.empty].
      unfold CppDemangler.assign_component.
      cbn [namespace_name has_class CppDemangler.set_namespace_name
           CppDemangler.set_has_namespace CppDemangler.set_method_name CppDemangler.set_prefix
           CppDemangler.set_is_mangled CppSymbolComponents_default].
      now rewrite Ha. }
    rewrite E.
    destruct (assign_all_methods more
                (CppDemangler.set_class b (CppDemangler.set_namespace_name a start)))
      as (H1 & H2 & H3 & H4); [exact Ha | reflexivity |].
    repeat split; assumption.
Qed.

Lemma parse_length_prefixed_names_witness :
  CppDemangler.parse Spec.rejecting_demangle "_ZN2ns3Cls5outer3fooEv"
  = Some (Laws.assign_all ["ns"; "Cls"; "outer"; "foo"]
            (Laws.nested_start "_ZN2ns3Cls5outer3fooEv")).
Proof.
  refine (proj1 (parse_length_prefixed_names Spec.rejecting_demangle
                   ["ns"; "Cls"; "outer"; "foo"] "Ev" _ _ _)).
  - repeat constructor.
  - reflexivity.
  - vm_compute. reflexivity.
Defined.

Lemma append_empty_r (s : string) : s +:+ "" = s.
Proof. induction s as [|c s IH]; [reflexivity|]. change (String c (s +:+ "") = String c s). now rewrite IH. Qed.

Lemma mangled_text_nested (ssl : OpenSSL) (h : CryptoHasher) (c : CppSymbolComponents) :
  has_namespace c || has_class c = true ->
  Spec.mangled_text ssl h c
  = "_ZN" +:+ Laws.length_prefixed (Laws.tokens ssl h c)
    +:+ ("E" +:+ Mangler.encodeParameters (parameter_types c)).
Proof.
  intros Hnested. unfold Spec.mangled_text, Laws.tokens. rewrite Hnested.
  rewrite !length_prefixed_app, !append_assoc.
  assert (Hcomp : forall present token,
    Spec.component present token
    = Laws.length_prefixed (if present then [token] else [])).
  { intros [] token; cbn; [now rewrite append_empty_r | reflexivity]. }
  now rewrite !Hcomp.
Qed.

Lemma tokens_start_without_digit (ssl : OpenSSL) (h : CryptoHasher) (c : CppSymbolComponents) :
  Forall (fun n => Laws.starts_without_digit n = true) (Laws.tokens ssl h c).
Proof.
  unfold Laws.tokens.
  repeat (apply Forall_app; split);
    match goal with |- Forall _ (if ?b then _ else _) => destruct b end;
    repeat constructor.
Qed.

(** X13. What [reconstructMangled] writes for a nested name is read by
    [parse] as a nested name again: the loop finishes and assigns the
    tokens written, in order. For a name with a namespace, a class and
    a method this gives back the three tokens in the same three
    places. *)
Theorem obfuscated_name_parses_back (ssl : OpenSSL) (cxa_demangle : string -> option string)
    (h : CryptoHasher) (c : CppSymbolComponents) :
  has_namespace c || has_class c = true ->
  let text := Spec.mangled_text ssl h c in
  let start := Laws.nested_start (CppDemangler.demangle cxa_demangle text) in
  Z.of_nat (String.length text) < 2 ^ 64 ->
  CppDemangler.parse cxa_demangle text = Some (Laws.assign_all (Laws.tokens ssl h c) start)
  /\ (has_namespace c && negb (Str.empty (namespace_name c)) = true ->
      has_class c && negb (Str.empty (class_name c)) = true ->
      Str.empty (method_name c) = false ->
      let c' := Laws.assign_all (Laws.tokens ssl h c) start in
      namespace_name c' = Spec.namespace_token ssl h (namespace_name c)
      /\ has_class c' = true
      /\ class_name c' = Spec.class_token ssl h (class_name c)
      /\ method_name c' = Spec.method_token ssl h (method_name c)).
Proof.
  intros Hnested text start Hlen.
  pose proof (mangled_text_nested ssl h c Hnested) as Htext. fold text in Htext.
  split.
  - subst start. rewrite Htext in Hlen |- *.
    apply (parse_nested_name_text cxa_demangle (Laws.tokens ssl h c)
             ("E" +:+ Mangler.encodeParameters (parameter_types c)));
      [apply tokens_start_without_digit | reflexivity | exact Hlen].
  - intros Hns Hcls Hm. unfold Laws.tokens. rewrite Hns, Hcls, Hm. cbn [negb app].
    repeat split.
Qed.

Lemma obfuscated_name_parses_back_witness :
  let h := Hasher.new (siphash_config TYPED 12 "k") in
  let c := Laws.assign_all ["ns"; "Cls"; "foo"] (Laws.nested_start "_ZN2ns3Cls3fooEv") in
  let text := Spec.mangled_text zero_ssl h c in
  CppDemangler.parse Spec.rejecting_demangle text
  = Some (Laws.assign_all (Laws.tokens zero_ssl h c)
            (Laws.nested_start (CppDemangler.demangle Spec.rejecting_demangle text))).
Proof.
  intros h c.
  refine (proj1 (obfuscated_name_parses_back zero_ssl Spec.rejecting_demangle h c _ _)).
  - reflexivity.
  - vm_compute. reflexivity.
Defined.

(** ** The codec: classification, outcomes and memoisation *)

Lemma special_prefix_mangled (name p : string) :
  String.length p = 4%nat ->
  Str.substr p 0 2 = "_Z" ->
  String.eqb (Str.substr name 0 4) p = true ->
  CppDemangler.isCppMangled name = true /\ (4 <= String.length name)%nat.
Proof.
  intros Hp Hz E. apply String.eqb_eq in E.
  assert (Hlen : (4 <= String.length name)%nat).
  { pose proof (length_substring_0 name 4) as Hl. unfold Str.substr in E.
    rewrite E, Hp in Hl. lia. }
  split; [|exact Hlen].
  unfold CppDemangler.isCppMangled.
  destruct (Nat.ltb_spec 2 (String.length name)); [|lia]. cbn [andb].
  unfold Str.substr in *. rewrite <- (substring_0_substring_0 name 2 4) by lia.
  rewrite E, Hz. reflexivity.
Qed.

Lemma assign_component_flags (component : string) (c : CppSymbolComponents) :
  let c' := CppDemangler.assign_component component c in
  is_mangled c' = is_mangled c /\ is_vtable c' = is_vtable c
  /\ is_typeinfo c' = is_typeinfo c /\ is_typeinfo_name c' = is_typeinfo_name c.
Proof.
  unfold CppDemangler.assign_component.
  destruct (Str.empty (namespace_name c)); [now repeat split|].
  destruct (negb (has_class c)); now repeat split.
Qed.

Lemma parse_nested_flags (name : string) :
  forall (fuel : nat) (pos : Z) (c c' : CppSymbolComponents),
    CppDemangler.parse_nested fuel name pos c = Some c' ->
    is_mangled c' = is_mangled c /\ is_vtable c' = is_vtable c
    /\ is_typeinfo c' = is_typeinfo c /\ is_typeinfo_name c' = is_typeinfo_name c.
Proof.
  induction fuel as [|fuel IH]; intros pos c c'; cbn [CppDemangler.parse_nested].
  - destruct (_ && _); [discriminate | now intros [= <-]].
  - destruct (_ && _); [|now intros [= <-]].
    destruct (CppDemangler.read_length _ _ _) as [len pos'].
    destruct (_ && _); [|now intros [= <-]].
    intros E. apply IH in E.
    destruct (assign_component_flags (Str.substr_z name pos' len) c) as (H1 & H2 & H3 & H4).
    destruct E as (E1 & E2 & E3 & E4). repeat split; congruence.
Qed.

Section Classification.
Variable cxa_demangle : string -> option string.

Lemma parse_flags (name : string) (c : CppSymbolComponents) :
  CppDemangler.parse cxa_demangle name = Some c ->
  is_mangled c = CppDemangler.isCppMangled name
  /\ is_vtable c = String.eqb (Str.substr name 0 4) "_ZTV"
  /\ is_typeinfo c = String.eqb (Str.substr name 0 4) "_ZTI"
  /\ is_typeinfo_name c = String.eqb (Str.substr name 0 4) "_ZTS".
Proof.
  unfold CppDemangler.parse.
  destruct (CppDemangler.isCppMangled name) eqn:Hm; cbn [negb].
  2:{ intros [= <-]. cbn.
      repeat split; symmetry; apply not_true_is_false; intros E;
        apply special_prefix_mangled in E as [E _]; try reflexivity; congruence. }
  destruct (String.eqb _ "_ZTV") eqn:E1.
  { intros [= <-]. apply String.eqb_eq in E1. rewrite E1. now repeat split. }
  destruct (String.eqb _ "_ZTI") eqn:E2.
  { intros [= <-]. apply String.eqb_eq in E2. rewrite E2. now repeat split. }
  destruct (String.eqb _ "_ZTS") eqn:E3.
  { intros [= <-]. now repeat split. }
  destruct (_ && _); [|now intros [= <-]].
  intros E. apply parse_nested_flags in E as (H1 & H2 & H3 & H4).
  repeat split; assumption.
Qed.

Lemma special_symbol_flags (name : string) (c : CppSymbolComponents) :
  CppDemangler.parse cxa_demangle name = Some c ->
  CppDemangler.isSpecialSymbol name
  = is_vtable c || is_typeinfo c || is_typeinfo_name c.
Proof.
  intros Hparse. apply parse_flags in Hparse as (H0 & H1 & H2 & H3).
  rewrite H1, H2, H3. unfold CppDemangler.isSpecialSymbol.
  destruct (Nat.ltb_spec (String.length name) 4) as [Hlt|]; [|reflexivity].
  symmetry. apply not_true_is_false. intros E.
  apply orb_prop in E as [E|E]; [apply orb_prop in E as [E|E]|];
    apply special_prefix_mangled in E as [_ E]; try reflexivity; lia.
Qed.

(** X14. The classifiers of the codec and of the pass agree. Whenever
    [parse] returns, [is_mangled] is [isCppMangled] of the name, on both
    sides ([SymbolObfuscationPass::isCppMangled] is the same test), and
    [isSpecialSymbol] is the disjunction of the three flags [is_vtable],
    [is_typeinfo], [is_typeinfo_name], of which at most one is set; a
    special symbol is always a mangled one. *)
Theorem classifiers_agree (name : string) (c : CppSymbolComponents) :
  CppDemangler.parse cxa_demangle name = Some c ->
  is_mangled c = CppDemangler.isCppMangled name
  /\ Pass.isCppMangled name = CppDemangler.isCppMangled name
  /\ CppDemangler.isSpecialSymbol name
     = is_vtable c || is_typeinfo c || is_typeinfo_name c
  /\ (CppDemangler.isSpecialSymbol name = true -> is_mangled c = true)
  /\ (is_vtable c && is_typeinfo c = false)
  /\ (is_vtable c && is_typeinfo_name c = false)
  /\ (is_typeinfo c && is_typeinfo_name c = false).
Proof.
  intros Hparse. pose proof (special_symbol_flags name c Hparse) as Hspecial.
  apply parse_flags in Hparse as (H0 & H1 & H2 & H3).
  rewrite Hspecial, H0, H1, H2, H3.
  split; [reflexivity|]. split; [reflexivity|]. split; [reflexivity|].
  split.
  { intros E.
    apply orb_prop in E as [E|E]; [apply orb_prop in E as [E|E]|];
      apply special_prefix_mangled in E as [E _]; try reflexivity; exact E. }
  repeat split;
    match goal with
    | |- String.eqb ?s ?a && String.eqb ?s ?b = false =>
        destruct (String.eqb_spec s a) as [->|]; [reflexivity | reflexivity]
    end.
Qed.

End Classification.

Lemma classifiers_agree_witness :
  CppDemangler.isSpecialSymbol "_ZTV7MyClass" = true.
Proof.
  exact (proj1 (proj2 (proj2
           (classifiers_agree Spec.rejecting_demangle "_ZTV7MyClass"
              (CppDemangler.set_special true false false
                 (CppDemangler.set_prefix "_Z"
                    (CppDemangler.set_is_mangled true CppSymbolComponents_default)))
              eq_refl)))).
Defined.

Section CodecOutcomes.
Variable ssl : OpenSSL.
Variable cxa_demangle : string -> option string.
Variable h : CryptoHasher.

(** The three caches answer every request and leave [mapping_] alone. *)
Lemma obfuscateNamespace_total (ns : string) (m : CppMangler) :
  exists t m', Mangler.obfuscateNamespace ssl h ns m = (Ok t, m')
               /\ mapping_ m' = mapping_ m.
Proof.
  unfold Mangler.obfuscateNamespace. destruct (namespace_cache_ m !! ns); eauto.
Qed.

Lemma obfuscateClassName_total (class_name : string) (m : CppMangler) :
  exists t m', Mangler.obfuscateClassName ssl h class_name m = (Ok t, m')
               /\ mapping_ m' = mapping_ m.
Proof.
  unfold Mangler.obfuscateClassName. destruct (class_cache_ m !! class_name); eauto.
Qed.

Lemma obfuscateMethodName_total (method_name : string) (m : CppMangler) :
  exists t m', Mangler.obfuscateMethodName ssl h method_name m = (Ok t, m')
               /\ mapping_ m' = mapping_ m.
Proof.
  unfold Mangler.obfuscateMethodName. destruct (method_cache_ m !! method_name); eauto.
Qed.

Lemma optional_token_total (present : bool) (obfuscate : string -> M CppMangler string)
    (key result : string) (m : CppMangler) :
  (forall m, exists t m', obfuscate key m = (Ok t, m') /\ mapping_ m' = mapping_ m) ->
  exists more m',
    (if present
     then let! token := obfuscate key in ret (result +:+ Mangler.encodeLengthPrefix token)
     else ret result) m = (Ok (result +:+ more), m')
    /\ mapping_ m' = mapping_ m.
Proof.
  intros Htotal. destruct present.
  - destruct (Htotal m) as (t & m' & E & Hmap). unfold bind, ret. rewrite E. eauto.
  - exists "", m. unfold ret. now rewrite append_empty_r.
Qed.

Lemma reconstructMangled_total (c : CppSymbolComponents) (m : CppMangler) :
  exists rest m', Mangler.reconstructMangled ssl h c m = (Ok ("_Z" +:+ rest), m')
                  /\ mapping_ m' = mapping_ m.
Proof.
  unfold Mangler.reconstructMangled.
  destruct (has_namespace c || has_class c).
  - destruct (optional_token_total
                (has_namespace c && negb (Str.empty (namespace_name c)))
                (Mangler.obfuscateNamespace ssl h) (namespace_name c) ("_Z" +:+ "N") m
                (obfuscateNamespace_total _)) as (r1 & m1 & E1 & H1).
    destruct (optional_token_total
                (has_class c && negb (Str.empty (class_name c)))
                (Mangler.obfuscateClassName ssl h) (class_name c) (("_Z" +:+ "N") +:+ r1) m1
                (obfuscateClassName_total _)) as (r2 & m2 & E2 & H2).
    destruct (optional_token_total
                (negb (Str.empty (method_name c)))
                (Mangler.obfuscateMethodName ssl h) (method_name c)
                ((("_Z" +:+ "N") +:+ r1) +:+ r2) m2
                (obfuscateMethodName_total _)) as (r3 & m3 & E3 & H3).
    unfold bind at 1. rewrite E1. unfold bind at 1. rewrite E2.
    unfold bind at 1. rewrite E3. unfold ret.
    eexists _, m3. split; [|congruence].
    rewrite !append_assoc. reflexivity.
  - unfold ret. eexists _, m. split; [|reflexivity].
    rewrite !append_assoc. reflexivity.
Qed.

Lemma obfuscateVTable_new (name : string) (m : CppMangler) :
  mapping_ m !! name = None ->
  (4 <= String.length name)%nat ->
  exists rest m', Mangler.obfuscateVTable ssl h name m = (Ok ("_ZTV" +:+ rest), m')
                  /\ mapping_ m' = <[name := "_ZTV" +:+ rest]> (mapping_ m).
Proof.
  intros Hnew Hlen. unfold Mangler.obfuscateVTable. rewrite Hnew.
  destruct (Nat.ltb_spec (String.length name) 4); [lia|].
  destruct (CppDemangler.read_length _ 0 0) as [len pos].
  destruct (_ && _).
  - destruct (obfuscateClassName_total (Str.substr_z (Str.substr_from name 4) pos len) m)
      as (t & m1 & E & Hmap).
    unfold bind at 1. rewrite E. unfold bind, modify, ret.
    eexists _, _. split; [reflexivity|]. cbn. now rewrite Hmap.
  - eexists _, _. split; reflexivity.
Qed.

Lemma obfuscateTypeInfo_new (name : string) (m : CppMangler) :
  mapping_ m !! name = None ->
  exists rest m', Mangler.obfuscateTypeInfo ssl h name m
                  = (Ok (Str.substr name 0 4 +:+ rest), m')
                  /\ mapping_ m' = <[name := Str.substr name 0 4 +:+ rest]> (mapping_ m).
Proof.
  intros Hnew. unfold Mangler.obfuscateTypeInfo. rewrite Hnew.
  eexists _, _. split; reflexivity.
Qed.

(** A mangled name that is not in [mapping_] yet. *)
Lemma obfuscateCppSymbol_new (name : string) (c : CppSymbolComponents) (m : CppMangler) :
  mapping_ m !! name = None ->
  CppDemangler.parse cxa_demangle name = Some c ->
  is_mangled c = true ->
  exists r m', Mangler.obfuscateCppSymbol ssl cxa_demangle h name m = (Ok r, m')
               /\ mapping_ m' = <[name := r]> (mapping_ m)
               /\ Str.substr r 0 2 = "_Z"
               /\ (CppDemangler.isSpecialSymbol name = true ->
                   Str.substr r 0 4 = Str.substr name 0 4).
Proof.
  intros Hnew Hparse Hm. unfold Mangler.obfuscateCppSymbol. rewrite Hnew, Hparse, Hm.
  cbn [negb].
  pose proof (special_symbol_flags cxa_demangle name c Hparse) as Hs.
  pose proof (parse_flags cxa_demangle name c Hparse) as (_ & Hv & Hi & Hn).
  assert (Hprefix : forall p rest, String.length p = 4%nat -> Str.substr p 0 2 = "_Z" ->
            Str.substr (p +:+ rest) 0 2 = "_Z" /\ Str.substr (p +:+ rest) 0 4 = p).
  { intros p rest Hp Hz. unfold Str.substr in *. split.
    - rewrite <- (substring_0_substring_0 (p +:+ rest) 2 4) by lia.
      rewrite <- Hp at 1. now rewrite substring_0_append.
    - rewrite <- Hp at 1. apply substring_0_append. }
  destruct (is_vtable c) eqn:Ev.
  { symmetry in Hv. pose proof Hv as Hv'.
    apply special_prefix_mangled in Hv' as [_ Hlen]; [|reflexivity..].
    destruct (obfuscateVTable_new name m Hnew Hlen) as (rest & m' & E & Hmap).
    rewrite E. exists ("_ZTV" +:+ rest), m'.
    destruct (Hprefix "_ZTV" rest eq_refl eq_refl) as [P2 P4].
    repeat split; try assumption.
    intros _. rewrite P4. symmetry. now apply String.eqb_eq. }
  assert (Hti : forall p, String.length p = 4%nat -> Str.substr p 0 2 = "_Z" ->
            String.eqb (Str.substr name 0 4) p = true ->
            exists r m', Mangler.obfuscateTypeInfo ssl h name m = (Ok r, m')
                         /\ mapping_ m' = <[name := r]> (mapping_ m)
                         /\ Str.substr r 0 2 = "_Z"
                         /\ (CppDemangler.isSpecialSymbol name = true ->
                             Str.substr r 0 4 = Str.substr name 0 4)).
  { intros p Hp Hz E. apply String.eqb_eq in E.
    destruct (obfuscateTypeInfo_new name m Hnew) as (rest & m' & Eo & Hmap).
    rewrite Eo. rewrite E in *. exists (p +:+ rest), m'.
    destruct (Hprefix p rest Hp Hz) as [P2 P4].
    repeat split; first [assumption | reflexivity | intros _; assumption]. }
  destruct (is_typeinfo c) eqn:Ei; [apply (Hti "_ZTI"); [reflexivity.. | now symmetry]|].
  destruct (is_typeinfo_name c) eqn:En; [apply (Hti "_ZTS"); [reflexivity.. | now symmetry]|].
  destruct (reconstructMangled_total c m) as (rest & m1 & E & Hmap).
  unfold bind at 1. rewrite E. unfold bind, modify, ret.
  eexists _, _. split; [reflexivity|]. split; [cbn; now rewrite Hmap|].
  split; [exact (substring_0_append "_Z" rest)|]. rewrite Hs. discriminate.
Qed.

End CodecOutcomes.

(** X15. The outcomes of [obfuscateCppSymbol]. It never throws. It
    fails to return only for a name that is not in [mapping_] and on
    which the loop of [parse] does not finish. A name that is not
    mangled and not in [mapping_] comes back as it is, and nothing is
    recorded. [obfuscateVTable], called on its own with a name shorter
    than four characters, throws [std::out_of_range] from [substr(4)]
    and leaves the mangler as it was; through [obfuscateCppSymbol] this
    call is never reached. *)
Theorem obfuscateCppSymbol_outcomes (ssl : OpenSSL) (cxa_demangle : string -> option string)
    (h : CryptoHasher) (name : string) (m : CppMangler) :
  (forall e m', Mangler.obfuscateCppSymbol ssl cxa_demangle h name m <> (Throw e, m'))
  /\ (forall m', Mangler.obfuscateCppSymbol ssl cxa_demangle h name m = (Diverge, m')
                 <-> mapping_ m !! name = None
                     /\ CppDemangler.parse cxa_demangle name = None /\ m' = m)
  /\ (CppDemangler.isCppMangled name = false ->
      mapping_ m !! name = None ->
      Mangler.obfuscateCppSymbol ssl cxa_demangle h name m = (Ok name, m))
  /\ ((String.length name < 4)%nat ->
      mapping_ m !! name = None ->
      Mangler.obfuscateVTable ssl h name m
      = (Throw (out_of_range "basic_string::substr"), m)).
Proof.
  assert (Hcases :
    (exists known, mapping_ m !! name = Some known
       /\ Mangler.obfuscateCppSymbol ssl cxa_demangle h name m = (Ok known, m))
    \/ (mapping_ m !! name = None /\ CppDemangler.parse cxa_demangle name = None
        /\ Mangler.obfuscateCppSymbol ssl cxa_demangle h name m = (Diverge, m))
    \/ (mapping_ m !! name = None
        /\ exists c r m', CppDemangler.parse cxa_demangle name = Some c
             /\ Mangler.obfuscateCppSymbol ssl cxa_demangle h name m = (Ok r, m')
             /\ (is_mangled c = false -> r = name /\ m' = m))).
  { destruct (mapping_ m !! name) as [known|] eqn:Hmap.
    - left. exists known. split; [reflexivity|]. now apply obfuscateCppSymbol_known.
    - right. destruct (CppDemangler.parse cxa_demangle name) as [c|] eqn:Hparse.
      + right. split; [reflexivity|]. destruct (is_mangled c) eqn:Hm.
        * destruct (obfuscateCppSymbol_new ssl cxa_demangle h name c m Hmap Hparse Hm)
            as (r & m' & E & _).
          exists c, r, m'. split; [reflexivity|]. split; [exact E|]. congruence.
        * exists c, name, m. split; [reflexivity|].
          unfold Mangler.obfuscateCppSymbol. rewrite Hmap, Hparse, Hm. now repeat split.
      + left. split; [reflexivity|]. split; [reflexivity|].
        unfold Mangler.obfuscateCppSymbol. now rewrite Hmap, Hparse. }
  split; [|split; [|split]].
  - intros e m' E.
    destruct Hcases as [(k & _ & E')|[(_ & _ & E')|(_ & c & r & m1 & _ & E' & _)]];
      rewrite E' in E; discriminate E.
  - intros m'. split.
    + intros E.
      destruct Hcases as [(k & _ & E')|[(H1 & H2 & E')|(_ & c & r & m1 & _ & E' & _)]];
        rewrite E' in E; try discriminate E.
      injection E as <-. now repeat split.
    + intros (H1 & H2 & ->).
      destruct Hcases as [(k & Hk & _)|[(_ & _ & E')|(_ & c & r & m1 & Hc & _)]];
        [congruence | exact E' | congruence].
  - intros Hm Hnew.
    destruct Hcases as [(k & Hk & _)|[(_ & Hp & _)|(_ & c & r & m1 & Hc & E' & Hsame)]].
    + congruence.
    + exfalso. unfold CppDemangler.parse in Hp. rewrite Hm in Hp. discriminate Hp.
    + pose proof (parse_flags cxa_demangle name c Hc) as (H0 & _).
      rewrite Hm in H0. destruct (Hsame H0) as [-> ->]. exact E'.
  - intros Hlen Hnew. unfold Mangler.obfuscateVTable. rewrite Hnew.
    destruct (Nat.ltb_spec (String.length name) 4); [reflexivity | lia].
Qed.

Lemma obfuscateCppSymbol_outcomes_witness :
  Mangler.obfuscateCppSymbol zero_ssl Spec.rejecting_demangle
    (Hasher.new HashConfig_default) "printf" Mangler.new
  = (Ok "printf", Mangler.new).
Proof.
  refine (proj1 (proj2 (proj2 (obfuscateCppSymbol_outcomes zero_ssl Spec.rejecting_demangle
                                 (Hasher.new HashConfig_default) "printf" Mangler.new))) _ _);
    reflexivity.
Defined.

(** X16. [obfuscateCppSymbol] is memoised: once it has returned a name
    for a mangled or unmangled input, a second call with the same input
    returns the same name and leaves the mangler as it is. *)
Theorem obfuscateCppSymbol_memoised (ssl : OpenSSL) (cxa_demangle : string -> option string)
    (h : CryptoHasher) (name r : string) (m m1 : CppMangler) :
  Mangler.obfuscateCppSymbol ssl cxa_demangle h name m = (Ok r, m1) ->
  Mangler.obfuscateCppSymbol ssl cxa_demangle h name m1 = (Ok r, m1).
Proof.
  intros Hfirst.
  destruct (mapping_ m !! name) as [known|] eqn:Hmap.
  { rewrite (obfuscateCppSymbol_known ssl cxa_demangle h name known m Hmap) in Hfirst.
    injection Hfirst as <- <-. now apply obfuscateCppSymbol_known. }
  destruct (CppDemangler.parse cxa_demangle name) as [c|] eqn:Hparse.
  2:{ unfold Mangler.obfuscateCppSymbol in Hfirst. rewrite Hmap, Hparse in Hfirst.
      discriminate Hfirst. }
  destruct (is_mangled c) eqn:Hm.
  - destruct (obfuscateCppSymbol_new ssl cxa_demangle h name c m Hmap Hparse Hm)
      as (r' & m' & E & Hrec & _).
    rewrite E in Hfirst. injection Hfirst as <- <-.
    apply obfuscateCppSymbol_known. rewrite Hrec. apply lookup_insert_eq.
  - pose proof Hfirst as Hsame.
    unfold Mangler.obfuscateCppSymbol in Hsame. rewrite Hmap, Hparse, Hm in Hsame.
    injection Hsame as <- <-. exact Hfirst.
Qed.

Lemma obfuscateCppSymbol_memoised_witness :
  let h := Hasher.new (siphash_config TYPED 12 "k") in
  let m1 := snd (Mangler.obfuscateCppSymbol zero_ssl Spec.rejecting_demangle h
                   "_ZN6MyClass6methodEv" Mangler.new) in
  Mangler.obfuscateCppSymbol zero_ssl Spec.rejecting_demangle h "_ZN6MyClass6methodEv" m1
  = (Ok "_ZN9N6285415e11Mb05911740cEv", m1).
Proof.
  intros h m1.
  apply (obfuscateCppSymbol_memoised zero_ssl Spec.rejecting_demangle h
           "_ZN6MyClass6methodEv" "_ZN9N6285415e11Mb05911740cEv" Mangler.new m1).
  vm_compute. reflexivity.
Defined.

(** X17. What [obfuscateCppSymbol] does with a mangled name that is not
    in [mapping_] yet, when [parse] returns: it returns a name that
    begins with "_Z", a vtable or type-info name keeps its four
    characters "_ZTV", "_ZTI" or "_ZTS", and exactly the pair of the
    input and the result is added to [mapping_]. *)
Theorem obfuscateCppSymbol_new_name (ssl : OpenSSL) (cxa_demangle : string -> option string)
    (h : CryptoHasher) (name : string) (c : CppSymbolComponents) (m : CppMangler) :
  mapping_ m !! name = None ->
  CppDemangler.parse cxa_demangle name = Some c ->
  CppDemangler.isCppMangled name = true ->
  exists r m', Mangler.obfuscateCppSymbol ssl cxa_demangle h name m = (Ok r, m')
               /\ mapping_ m' = <[name := r]> (mapping_ m)
               /\ Str.substr r 0 2 = "_Z"
               /\ (CppDemangler.isSpecialSymbol name = true ->
                   Str.substr r 0 4 = Str.substr name 0 4).
Proof.
  intros Hnew Hparse Hm.
  apply (obfuscateCppSymbol_new ssl cxa_demangle h name c m Hnew Hparse).
  pose proof (parse_flags cxa_demangle name c Hparse) as (H0 & _). congruence.
Qed.

Lemma obfuscateCppSymbol_new_name_witness :
  exists r m',
    Mangler.obfuscateCppSymbol zero_ssl Spec.rejecting_demangle
      (Hasher.new (siphash_config TYPED 12 "k")) "_ZTI7MyClass" Mangler.new = (Ok r, m')
    /\ mapping_ m' = <["_ZTI7MyClass" := r]> (mapping_ Mangler.new)
    /\ Str.substr r 0 2 = "_Z"
    /\ (CppDemangler.isSpecialSymbol "_ZTI7MyClass" = true ->
        Str.substr r 0 4 = Str.substr "_ZTI7MyClass" 0 4).
Proof.
  refine (obfuscateCppSymbol_new_name zero_ssl Spec.rejecting_demangle
            (Hasher.new (siphash_config TYPED 12 "k")) "_ZTI7MyClass" _ Mangler.new _ _ _);
    reflexivity.
Defined.

(** X18. The vtable of a class. For a name "_ZTV", the length-prefixed
    class name, and anything after it that does not start with a digit,
    the result is "_ZTV" and the length-prefixed class token: the token
    [obfuscateClassName] gives the class, which goes to the class cache.
    What follows the class name in the input (template arguments, for
    one) is not part of the result, so the vtables of two instances of
    one class template get the same name. *)
Theorem vtable_class_token (ssl : OpenSSL) (cxa_demangle : string -> option string)
    (h : CryptoHasher) (class_name rest : string) (m : CppMangler) :
  Spec.caches_ok ssl h m ->
  Laws.starts_without_digit class_name = true ->
  Laws.ends_digits rest = true ->
  let name := "_ZTV" +:+ Mangler.encodeLengthPrefix class_name +:+ rest in
  Z.of_nat (String.length name) < 2 ^ 64 ->
  mapping_ m !! name = None ->
  exists m',
    Mangler.obfuscateCppSymbol ssl cxa_demangle h name m
    = (Ok ("_ZTV" +:+ Mangler.encodeLengthPrefix (Spec.class_token ssl h class_name)), m')
    /\ Spec.caches_ok ssl h m'
    /\ class_cache_ m' !! class_name = Some (Spec.class_token ssl h class_name)
    /\ mapping_ m'
       = <[name := "_ZTV" +:+ Mangler.encodeLengthPrefix (Spec.class_token ssl h class_name)]>
           (mapping_ m).
Proof.
  intros Hok Hcls Hrest name Hlen Hnew.
  set (ds := Str.to_string_nat (String.length class_name)).
  assert (Hname : name = "_ZTV" +:+ ds +:+ class_name +:+ rest).
  { unfold name, Mangler.encodeLengthPrefix. fold ds. now rewrite !append_assoc. }
  assert (H4 : Str.substr name 0 4 = "_ZTV").
  { rewrite Hname. exact (substring_0_append "_ZTV" _). }
  assert (Hsize : String.length name
                  = (4 + String.length ds + String.length class_name + String.length rest)%nat).
  { rewrite Hname, !length_append. cbn [String.length]. lia. }
  assert (Hm : CppDemangler.isCppMangled name = true).
  { eapply special_prefix_mangled with (p := "_ZTV"); [reflexivity | reflexivity |].
    rewrite H4. reflexivity. }
  unfold Mangler.obfuscateCppSymbol. rewrite Hnew.
  unfold CppDemangler.parse. rewrite Hm, H4. cbn [negb String.eqb Ascii.eqb Bool.eqb].
  cbn [is_mangled is_vtable CppDemangler.set_special CppDemangler.set_prefix
       CppDemangler.set_is_mangled orb negb].
  unfold Mangler.obfuscateVTable. rewrite Hnew.
  destruct (Nat.ltb_spec (String.length name) 4); [lia|].
  assert (Hfrom : Str.substr_from name 4 = ds +:+ class_name +:+ rest).
  { rewrite Hname. exact (substr_from_append "_ZTV" _). }
  rewrite Hfrom. unfold ds at 1.
  rewrite read_length_to_string; [|now apply ends_digits_token | lia].
  fold ds. rewrite Z.add_0_l.
  assert (0 < String.length class_name)%nat
    by (destruct class_name; [discriminate | cbn; lia]).
  destruct (Z.ltb_spec 0 (Z.of_nat (String.length class_name))); [|lia].
  assert (Hu : SipHasher.u64 (Z.of_nat (String.length ds)
                              + Z.of_nat (String.length class_name))
               = Z.of_nat (String.length ds) + Z.of_nat (String.length class_name)).
  { unfold SipHasher.u64. rewrite Z.mod_small; lia. }
  rewrite Hu.
  destruct (Z.leb_spec (Z.of_nat (String.length ds) + Z.of_nat (String.length class_name))
              (Z.of_nat (String.length (ds +:+ class_name +:+ rest))));
    [|rewrite !length_append in *; lia].
  cbn [andb]. rewrite substr_z_append.
  destruct (obfuscateClassName_token ssl h class_name m Hok)
    as (m1 & E & Hok1 & Hmap & _ & Hcache).
  unfold bind at 1. rewrite E. unfold bind, modify, ret.
  eexists. split; [reflexivity|]. split; [exact Hok1|]. split; [exact Hcache|].
  cbn. now rewrite Hmap.
Qed.

Lemma vtable_class_token_witness :
  let h := Hasher.new (siphash_config TYPED 12 "k") in
  exists m1 m2,
    Mangler.obfuscateCppSymbol zero_ssl Spec.rejecting_demangle h
      ("_ZTV" +:+ Mangler.encodeLengthPrefix "Foo" +:+ "IiE") Mangler.new
    = (Ok ("_ZTV" +:+ Mangler.encodeLengthPrefix (Spec.class_token zero_ssl h "Foo")), m1)
    /\ Mangler.obfuscateCppSymbol zero_ssl Spec.rejecting_demangle h
         ("_ZTV" +:+ Mangler.encodeLengthPrefix "Foo" +:+ "IcE") m1
       = (Ok ("_ZTV" +:+ Mangler.encodeLengthPrefix (Spec.class_token zero_ssl h "Foo")), m2).
Proof.
  intros h.
  destruct (vtable_class_token zero_ssl Spec.rejecting_demangle h "Foo" "IiE" Mangler.new)
    as (m1 & E1 & Hok1 & _ & Hmap1);
    [apply caches_ok_new | reflexivity | reflexivity | vm_compute; reflexivity
    | reflexivity |].
  destruct (vtable_class_token zero_ssl Spec.rejecting_demangle h "Foo" "IcE" m1 Hok1)
    as (m2 & E2 & _);
    [reflexivity | reflexivity | vm_compute; reflexivity
    | rewrite Hmap1; vm_compute; reflexivity |].
  exists m1, m2. split; assumption.
Defined.

(** ** The codec: when the loop of the parser finishes *)

Lemma digit_value_bound (c : ascii) :
  Str.isdigit c = true -> (Str.digit_value c <= 9)%nat.
Proof.
  unfold Str.isdigit, Str.digit_value. intros H.
  apply andb_prop in H as [_ H]. apply Nat.leb_le in H. lia.
Qed.

(** The loop that reads a length passes the digits the text starts with,
    and what it reads is below ten to their number. *)
Lemma read_length_run (s : string) : forall len pos : Z,
  0 <= len ->
  let '(len', pos') := CppDemangler.read_length s len pos in
  pos' = pos + Z.of_nat (Laws.digit_run s)
  /\ 0 <= len' < (len + 1) * 10 ^ Z.of_nat (Laws.digit_run s).
Proof.
  induction s as [|c s IH]; intros len pos Hlen; cbn [CppDemangler.read_length Laws.digit_run].
  - split; [lia|]. cbn. lia.
  - destruct (Str.isdigit c) eqn:Hc.
    + pose proof (digit_value_bound c Hc) as Hd.
      set (len1 := SipHasher.u64 (len * 10 + Z.of_nat (Str.digit_value c))).
      assert (H1 : 0 <= len1 <= len * 10 + 9).
      { unfold len1, SipHasher.u64.
        pose proof (Z.mod_pos_bound (len * 10 + Z.of_nat (Str.digit_value c)) (2 ^ 64)
                      ltac:(lia)).
        pose proof (Z.mod_le (len * 10 + Z.of_nat (Str.digit_value c)) (2 ^ 64)
                      ltac:(lia) ltac:(lia)).
        lia. }
      specialize (IH len1 (pos + 1) (proj1 H1)).
      destruct (CppDemangler.read_length s len1 (pos + 1)) as [len' pos'].
      destruct IH as [Hp Hl]. split; [lia|].
      rewrite Nat2Z.inj_succ, Z.pow_succ_r by lia.
      assert (0 < 10 ^ Z.of_nat (Laws.digit_run s)) by (apply Z.pow_pos_nonneg; lia).
      nia.
    + split; [lia|]. cbn. lia.
Qed.

Lemma substr_from_suffix (s : string) : forall k : nat,
  (Laws.digit_run (Str.substr_from s k) <= Laws.longest_digit_run s)%nat.
Proof.
  induction s as [|c s IH]; intros k.
  - destruct k; cbn; lia.
  - destruct k as [|k].
    + unfold Str.substr_from. rewrite Nat.sub_0_r, substring_0_all by lia.
      cbn [Laws.longest_digit_run]. lia.
    + change (Str.substr_from (String c s) (S k)) with (Str.substr_from s k).
      specialize (IH k). cbn [Laws.longest_digit_run]. lia.
Qed.

Lemma parse_nested_terminates (name : string) :
  (Laws.longest_digit_run name < 20)%nat ->
  Z.of_nat (String.length name) < 2 ^ 62 ->
  forall (fuel : nat) (pos : Z) (c : CppSymbolComponents),
    0 <= pos ->
    Z.of_nat (String.length name) - pos < Z.of_nat fuel ->
    exists c', CppDemangler.parse_nested fuel name pos c = Some c'.
Proof.
  intros Hrun Hsize. induction fuel as [|fuel IH]; intros pos c Hpos Hfuel;
    cbn [CppDemangler.parse_nested].
  - destruct (Z.ltb_spec pos (Z.of_nat (String.length name))); [lia|]. cbn. eauto.
  - destruct (_ && _) eqn:Hcond; [|eauto].
    apply andb_prop in Hcond as [Hlt _]. apply Z.ltb_lt in Hlt.
    pose proof (read_length_run (Str.substr_from name (Z.to_nat pos)) 0 pos ltac:(lia)) as Hr.
    pose proof (substr_from_suffix name (Z.to_nat pos)) as Hs.
    destruct (CppDemangler.read_length _ 0 pos) as [len pos'].
    destruct Hr as [Hp Hl].
    destruct (_ && _) eqn:Hstep; [|eauto].
    apply andb_prop in Hstep as [H0 Hle]. apply Z.ltb_lt in H0. apply Z.leb_le in Hle.
    assert (Hten : 10 ^ Z.of_nat (Laws.digit_run (Str.substr_from name (Z.to_nat pos)))
                   <= 10 ^ 19) by (apply Z.pow_le_mono_r; lia).
    assert (Hu : SipHasher.u64 (pos' + len) = pos' + len).
    { unfold SipHasher.u64. apply Z.mod_small.
      change (2 ^ 62) with 4611686018427387904 in Hsize.
      change (10 ^ 19) with 10000000000000000000 in Hten.
      change (2 ^ 64) with 18446744073709551616. lia. }
    rewrite Hu in Hle |- *. apply IH; lia.
Qed.

(** X19. The parser returns on every name that has no twenty digits in
    a row and is shorter than 2^62 characters: a length of at most
    nineteen digits cannot wrap the cursor, so every round of the loop
    over the nested names moves it forward. [obfuscateCppSymbol] then
    returns a name for it. *)
Theorem parse_returns_without_long_digit_runs (ssl : OpenSSL)
    (cxa_demangle : string -> option string) (h : CryptoHasher) (name : string)
    (m : CppMangler) :
  (Laws.longest_digit_run name < 20)%nat ->
  Z.of_nat (String.length name) < 2 ^ 62 ->
  (exists c, CppDemangler.parse cxa_demangle name = Some c)
  /\ (exists r m', Mangler.obfuscateCppSymbol ssl cxa_demangle h name m = (Ok r, m')).
Proof.
  intros Hrun Hsize.
  assert (Hparse : exists c, CppDemangler.parse cxa_demangle name = Some c).
  { unfold CppDemangler.parse.
    destruct (negb _); [eauto|].
    destruct (String.eqb _ "_ZTV"); [eauto|].
    destruct (String.eqb _ "_ZTI"); [eauto|].
    destruct (String.eqb _ "_ZTS"); [eauto|].
    destruct (_ && _) eqn:Hn; [|eauto].
    apply andb_prop in Hn as [Hlt _]. apply Z.ltb_lt in Hlt.
    apply parse_nested_terminates; [assumption | assumption | lia | lia]. }
  split; [exact Hparse|]. destruct Hparse as [c Hc].
  destruct (mapping_ m !! name) as [known|] eqn:Hmap.
  { exists known, m. now apply obfuscateCppSymbol_known. }
  destruct (is_mangled c) eqn:Hm.
  - destruct (obfuscateCppSymbol_new ssl cxa_demangle h name c m Hmap Hc Hm)
      as (r & m' & E & _). eauto.
  - exists name, m. unfold Mangler.obfuscateCppSymbol. now rewrite Hmap, Hc, Hm.
Qed.

Lemma parse_returns_without_long_digit_runs_witness :
  exists c, CppDemangler.parse Spec.rejecting_demangle "_ZN2ns3Cls3fooEi" = Some c.
Proof.
  refine (proj1 (parse_returns_without_long_digit_runs zero_ssl Spec.rejecting_demangle
                   (Hasher.new HashConfig_default) "_ZN2ns3Cls3fooEi" Mangler.new _ _)).
  - vm_compute. lia.
  - vm_compute. reflexivity.
Defined.

(** The twenty digits of 2^64 - 20. *)
Lemma read_wrapping_length (rest : string) (pos : Z) :
  Laws.ends_digits rest = true ->
  CppDemangler.read_length ("18446744073709551596" +:+ rest) 0 pos
  = (2 ^ 64 - 20, pos + 20).
Proof.
  intros Hrest.
  pose (d := Decimal.D1 (Decimal.D8 (Decimal.D4 (Decimal.D4 (Decimal.D6 (Decimal.D7
             (Decimal.D4 (Decimal.D4 (Decimal.D0 (Decimal.D7 (Decimal.D3 (Decimal.D7
             (Decimal.D0 (Decimal.D9 (Decimal.D5 (Decimal.D5 (Decimal.D1 (Decimal.D5
             (Decimal.D9 (Decimal.D6 Decimal.Nil)))))))))))))))))))).
  change "18446744073709551596" with (NilEmpty.string_of_uint d).
  rewrite (read_length_uint rest d Hrest pos); [reflexivity | vm_compute; reflexivity].
Qed.

(** X20. The parser does not return on a nested name whose first length
    is 2^64 - 20, written with its twenty digits right after "_ZN": the
    cursor after the digits is 23, adding the length wraps it back to 3,
    the first digit, and the loop starts over in the same place. This
    holds whatever follows the digits (unless it is one more digit) and
    for any number of rounds; [obfuscateCppSymbol] does not return on
    such a name either. *)
Theorem parse_loops_on_wrapping_length (ssl : OpenSSL)
    (cxa_demangle : string -> option string) (h : CryptoHasher) (rest : string)
    (m : CppMangler) :
  Laws.ends_digits rest = true ->
  let name := "_ZN18446744073709551596" +:+ rest in
  (forall (fuel : nat) (c : CppSymbolComponents),
     CppDemangler.parse_nested fuel name 3 c = None)
  /\ CppDemangler.parse cxa_demangle name = None
  /\ (mapping_ m !! name = None ->
      Mangler.obfuscateCppSymbol ssl cxa_demangle h name m = (Diverge, m)).
Proof.
  intros Hrest name.
  assert (Hname : name = "_ZN" +:+ "18446744073709551596" +:+ rest) by reflexivity.
  assert (Hsize : String.length name = (23 + String.length rest)%nat).
  { rewrite Hname, !length_append. reflexivity. }
  assert (Hloop : forall (fuel : nat) (c : CppSymbolComponents),
            CppDemangler.parse_nested fuel name 3 c = None).
  { induction fuel as [|fuel IH]; intros c; cbn [CppDemangler.parse_nested];
      (destruct (Z.ltb_spec 3 (Z.of_nat (String.length name))); [|lia]);
      change (CppDemangler.char_is name 3 "E") with false; cbn [negb andb];
      [reflexivity|].
    assert (Hfrom : Str.substr_from name (Z.to_nat 3) = "18446744073709551596" +:+ rest).
    { rewrite Hname. exact (substr_from_append "_ZN" _). }
    rewrite Hfrom, read_wrapping_length by exact Hrest.
    change (SipHasher.u64 (3 + 20 + (2 ^ 64 - 20))) with 3.
    change (0 <? 2 ^ 64 - 20) with true.
    destruct (Z.leb_spec 3 (Z.of_nat (String.length name))); [|lia].
    cbn [andb]. apply IH. }
  split; [exact Hloop|].
  assert (Hparse : CppDemangler.parse cxa_demangle name = None).
  { unfold CppDemangler.parse.
    change (CppDemangler.isCppMangled name) with true.
    assert (H4 : Str.substr name 0 4 = "_ZN1") by exact (substring_0_append "_ZN1" _).
    rewrite H4. cbn [negb String.eqb Ascii.eqb Bool.eqb].
    change (CppDemangler.char_is name 2 "N") with true.
    destruct (Z.ltb_spec 2 (Z.of_nat (String.length name))); [|lia].
    cbn [andb]. apply Hloop. }
  split; [exact Hparse|].
  intros Hnew. unfold Mangler.obfuscateCppSymbol. now rewrite Hnew, Hparse.
Qed.

Lemma parse_loops_on_wrapping_length_witness :
  CppDemangler.parse Spec.rejecting_demangle ("_ZN18446744073709551596" +:+ "fooEv") = None.
Proof.
  refine (proj1 (proj2 (parse_loops_on_wrapping_length zero_ssl Spec.rejecting_demangle
                          (Hasher.new HashConfig_default) "fooEv" Mangler.new _))).
  reflexivity.
Defined.

(** ** The codec as a function of the name *)

Section CodecFunction.
Variable ssl : OpenSSL.
Variable cxa_demangle : string -> option string.
Variable h : CryptoHasher.

Lemma obfuscateVTable_text (name : string) (m : CppMangler) :
  Spec.caches_ok ssl h m ->
  mapping_ m !! name = None ->
  (4 <= String.length name)%nat ->
  exists m', Mangler.obfuscateVTable ssl h name m = (Ok (Laws.vtable_text ssl h name), m')
             /\ Spec.caches_ok ssl h m'
             /\ mapping_ m' = <[name := Laws.vtable_text ssl h name]> (mapping_ m).
Proof.
  intros Hok Hnew Hlen. unfold Mangler.obfuscateVTable, Laws.vtable_text. rewrite Hnew.
  destruct (Nat.ltb_spec (String.length name) 4); [lia|].
  destruct (CppDemangler.read_length _ 0 0) as [len pos].
  destruct (_ && _).
  - destruct (obfuscateClassName_token ssl h (Str.substr_z (Str.substr_from name 4) pos len)
                m Hok) as (m1 & E & Hok1 & Hmap & _).
    unfold bind at 1. rewrite E. unfold bind, modify, ret.
    eexists. split; [reflexivity|]. split; [exact Hok1|]. cbn. now rewrite Hmap.
  - eexists. split; [reflexivity|]. split; [exact Hok | reflexivity].
Qed.

Lemma obfuscateTypeInfo_text (name : string) (m : CppMangler) :
  Spec.caches_ok ssl h m ->
  mapping_ m !! name = None ->
  exists m', Mangler.obfuscateTypeInfo ssl h name m = (Ok (Laws.typeinfo_text ssl h name), m')
             /\ Spec.caches_ok ssl h m'
             /\ mapping_ m' = <[name := Laws.typeinfo_text ssl h name]> (mapping_ m).
Proof.
  intros Hok Hnew. unfold Mangler.obfuscateTypeInfo, Laws.typeinfo_text. rewrite Hnew.
  eexists. split; [reflexivity|]. split; [exact Hok | reflexivity].
Qed.

Lemma memo_ok_insert (name r : string) (m m' : CppMangler) :
  Laws.memo_ok ssl cxa_demangle h m ->
  Spec.caches_ok ssl h m' ->
  mapping_ m' = <[name := r]> (mapping_ m) ->
  Laws.codec_name ssl cxa_demangle h name = Ok r ->
  Laws.memo_ok ssl cxa_demangle h m'.
Proof.
  intros [_ Hmemo] Hok Hmap Hr. split; [exact Hok|].
  intros k v. rewrite Hmap. intros Hk.
  apply lookup_insert_Some in Hk as [[<- <-]|[_ Hk]]; [exact Hr | now apply Hmemo].
Qed.

Lemma codec_step (name : string) (m : CppMangler) :
  Laws.memo_ok ssl cxa_demangle h m ->
  exists m', Mangler.obfuscateCppSymbol ssl cxa_demangle h name m
             = (Laws.codec_name ssl cxa_demangle h name, m')
             /\ Laws.memo_ok ssl cxa_demangle h m'.
Proof.
  intros Hmemo. pose proof Hmemo as [Hok Hknown].
  destruct (mapping_ m !! name) as [known|] eqn:Hmap.
  { exists m. rewrite (Hknown name known Hmap). split; [|exact Hmemo].
    now apply obfuscateCppSymbol_known. }
  unfold Mangler.obfuscateCppSymbol. rewrite Hmap.
  destruct (CppDemangler.parse cxa_demangle name) as [c|] eqn:Hparse.
  2:{ exists m. unfold Laws.codec_name. rewrite Hparse. now split. }
  assert (Hcodec : Laws.codec_name ssl cxa_demangle h name
                   = if negb (is_mangled c) then Ok name
                     else if is_vtable c then Ok (Laws.vtable_text ssl h name)
                     else if is_typeinfo c || is_typeinfo_name c
                     then Ok (Laws.typeinfo_text ssl h name)
                     else Ok (Spec.mangled_text ssl h c))
    by (unfold Laws.codec_name; now rewrite Hparse).
  rewrite Hcodec in *.
  pose proof (parse_flags cxa_demangle name c Hparse) as (_ & Hv & _).
  destruct (is_mangled c) eqn:Hm; cbn [negb].
  2:{ exists m. now split. }
  destruct (is_vtable c) eqn:Ev.
  { symmetry in Hv. apply special_prefix_mangled in Hv as [_ Hlen]; [|reflexivity..].
    destruct (obfuscateVTable_text name m Hok Hmap Hlen) as (m' & E & Hok' & Hmap').
    exists m'. split; [exact E|]. eapply memo_ok_insert; eassumption. }
  assert (Hti : exists m', Mangler.obfuscateTypeInfo ssl h name m
                           = (Ok (Laws.typeinfo_text ssl h name), m')
                           /\ (Laws.codec_name ssl cxa_demangle h name
                               = Ok (Laws.typeinfo_text ssl h name) ->
                               Laws.memo_ok ssl cxa_demangle h m')).
  { destruct (obfuscateTypeInfo_text name m Hok Hmap) as (m' & E & Hok' & Hmap').
    exists m'. split; [exact E|]. intros Hc. eapply memo_ok_insert; eassumption. }
  destruct (is_typeinfo c) eqn:Ei.
  { destruct Hti as (m' & E & Hm'). exists m'. split; [exact E | now apply Hm']. }
  destruct (is_typeinfo_name c) eqn:En.
  { destruct Hti as (m' & E & Hm'). exists m'. split; [exact E | now apply Hm']. }
  cbn [orb] in *.
  destruct (reconstructMangled_text ssl h c m Hok) as (m1 & E & Hok1 & Hmap1 & _).
  unfold bind at 1. rewrite E. unfold bind, modify, ret.
  eexists. split; [reflexivity|].
  eapply memo_ok_insert; [exact Hmemo | exact Hok1 | cbn; now rewrite Hmap1 | exact Hcodec].
Qed.

Lemma memo_ok_new : Laws.memo_ok ssl cxa_demangle h Mangler.new.
Proof.
  split; [apply caches_ok_new|]. intros k v Hk. cbn in Hk.
  rewrite lookup_empty in Hk. discriminate Hk.
Qed.

End CodecFunction.

(** X21. The codec is a function of the name. In a mangler whose caches
    and [mapping_] hold only what it put there itself (as in a new one),
    [obfuscateCppSymbol] answers [Laws.codec_name]: a value that depends
    on the name, the demangler and the configuration of the hasher, but
    not on the names processed before; the mangler it leaves is of that
    kind again. So two manglers of that kind, whatever they have
    processed, give a name the same answer. *)
Theorem codec_is_a_function_of_the_name (ssl : OpenSSL)
    (cxa_demangle : string -> option string) (h : CryptoHasher) (name : string) :
  Laws.memo_ok ssl cxa_demangle h Mangler.new
  /\ (forall m : CppMangler,
        Laws.memo_ok ssl cxa_demangle h m ->
        exists m', Mangler.obfuscateCppSymbol ssl cxa_demangle h name m
                   = (Laws.codec_name ssl cxa_demangle h name, m')
                   /\ Laws.memo_ok ssl cxa_demangle h m')
  /\ (forall m1 m2 : CppMangler,
        Laws.memo_ok ssl cxa_demangle h m1 ->
        Laws.memo_ok ssl cxa_demangle h m2 ->
        fst (Mangler.obfuscateCppSymbol ssl cxa_demangle h name m1)
        = fst (Mangler.obfuscateCppSymbol ssl cxa_demangle h name m2)).
Proof.
  split; [apply memo_ok_new|]. split; [apply codec_step|].
  intros m1 m2 H1 H2.
  destruct (codec_step ssl cxa_demangle h name m1 H1) as (m1' & E1 & _).
  destruct (codec_step ssl cxa_demangle h name m2 H2) as (m2' & E2 & _).
  now rewrite E1, E2.
Qed.

Lemma codec_is_a_function_of_the_name_witness :
  let h := Hasher.new (siphash_config TYPED 12 "k") in
  exists m',
    Mangler.obfuscateCppSymbol zero_ssl Spec.rejecting_demangle h "_ZN6MyClass6methodEv"
      Mangler.new
    = (Laws.codec_name zero_ssl Spec.rejecting_demangle h "_ZN6MyClass6methodEv", m')
    /\ Laws.memo_ok zero_ssl Spec.rejecting_demangle h m'.
Proof.
  intros h.
  destruct (codec_is_a_function_of_the_name zero_ssl Spec.rejecting_demangle h
              "_ZN6MyClass6methodEv") as (Hnew & Hstep & _).
  exact (Hstep Mangler.new Hnew).
Defined.

(** ** The IR pass: what a run keeps *)

Lemma later_refl (p : SymbolObfuscationPass) : Laws.later p p.
Proof. split; [reflexivity | auto]. Qed.

Lemma later_trans (p1 p2 p3 : SymbolObfuscationPass) :
  Laws.later p1 p2 -> Laws.later p2 p3 -> Laws.later p1 p3.
Proof. intros [H1 K1] [H2 K2]. split; [congruence | auto]. Qed.

Lemma shouldPreserve_settings (p p' : SymbolObfuscationPass) (name : string) :
  Laws.settings p' = Laws.settings p ->
  Pass.shouldPreserve p' name = Pass.shouldPreserve p name.
Proof.
  unfold Laws.settings. intros [= Hm Hs _ _ _ _ _ Hp].
  unfold Pass.shouldPreserve, Pass.isSystemSymbol. now rewrite Hm, Hs, Hp.
Qed.

Lemma later_record_mapping (k v : string) (p : SymbolObfuscationPass) :
  Laws.later p (Pass.record_mapping k v p)
  /\ pass_mapping_ (Pass.record_mapping k v p) !! k = Some v.
Proof.
  split; [split; [reflexivity|]|].
  - intros k' Hk'. cbn [Pass.record_mapping pass_mapping_].
    destruct (decide (k = k')) as [->|Hne].
    + rewrite lookup_insert_eq. eauto.
    + now rewrite lookup_insert_ne.
  - cbn [Pass.record_mapping pass_mapping_]. apply lookup_insert_eq.
Qed.

Section PassFrame.
Variable ssl : OpenSSL.
Variable cxa_demangle : string -> option string.

Lemma unique_name_later (original_name prefix : string) (p p' : SymbolObfuscationPass)
    (o : outcome string) :
  Pass.unique_name ssl original_name prefix p = (o, p') -> Laws.later p p'.
Proof.
  unfold Pass.unique_name.
  destruct (Hasher.generateUniqueHash ssl original_name (pass_used_names_ p) prefix
              (pass_hasher_ p)) as [r h'] eqn:E.
  apply unique_inv in E.
  destruct r as [[name used]| |]; intros [= <- <-].
  - destruct E as (_ & _ & _ & _ & _ & Hc).
    split; [|auto]. unfold Laws.settings. cbn. now rewrite Hc.
  - subst h'. split; [reflexivity | auto].
  - subst h'. split; [reflexivity | auto].
Qed.

Lemma on_mangler_later {A} (f : CryptoHasher -> M CppMangler A)
    (p p' : SymbolObfuscationPass) (o : outcome A) :
  Pass.on_mangler f p = (o, p') -> Laws.later p p'.
Proof.
  unfold Pass.on_mangler. destruct (f (pass_hasher_ p) (cpp_mangler_ p)) as [r mg].
  intros [= <- <-]. split; [reflexivity | auto].
Qed.

Lemma obfuscateFunctionName_later (name : string) (p p' : SymbolObfuscationPass)
    (o : outcome string) :
  Pass.obfuscateFunctionName ssl cxa_demangle name p = (o, p') -> Laws.later p p'.
Proof.
  unfold Pass.obfuscateFunctionName. destruct (Pass.isCppMangled name).
  - apply on_mangler_later.
  - apply unique_name_later.
Qed.

Lemma obfuscateGlobalName_later (name : string) (p p' : SymbolObfuscationPass)
    (o : outcome string) :
  Pass.obfuscateGlobalName ssl cxa_demangle name p = (o, p') -> Laws.later p p'.
Proof.
  unfold Pass.obfuscateGlobalName. destruct (Pass.isCppMangled name).
  - apply on_mangler_later.
  - apply unique_name_later.
Qed.

(** One round of the loops over functions and globals. *)
Lemma rename_with_later (obfuscate : string -> M SymbolObfuscationPass string)
    (entity : string * bool) (p p' : SymbolObfuscationPass)
    (o : outcome (string * bool)) :
  (forall name p p' o, obfuscate name p = (o, p') -> Laws.later p p') ->
  Pass.rename_with obfuscate entity p = (o, p') ->
  Laws.later p p'
  /\ match o with
     | Ok entity' => Laws.kept_or_mapped p' p' entity entity'
     | _ => True
     end.
Proof.
  intros Hobf. destruct entity as [name declaration]. unfold Pass.rename_with.
  destruct declaration.
  { intros [= <- <-]. split; [apply later_refl|]. now split. }
  destruct (Pass.shouldPreserve p name) eqn:Hp.
  { intros [= <- <-]. split; [apply later_refl|]. split; [reflexivity|].
    cbn [fst snd orb]. now rewrite Hp. }
  unfold bind, modify, ret.
  destruct (obfuscate name p) as [r p1] eqn:E. apply Hobf in E.
  destruct r as [obfuscated| |]; intros [= <- <-]; [|now split..].
  destruct (later_record_mapping name obfuscated p1) as [Hl Hk].
  split; [eapply later_trans; eassumption|].
  split; [reflexivity|]. cbn [fst snd orb].
  rewrite (shouldPreserve_settings p (Pass.record_mapping name obfuscated p1)), Hp.
  - rewrite Hk. eauto.
  - apply (later_trans p p1 _ E Hl).
Qed.

Lemma kept_or_mapped_later (p p' : SymbolObfuscationPass) (entity entity' : string * bool) :
  Laws.kept_or_mapped p p entity entity' -> Laws.later p p' ->
  Laws.kept_or_mapped p' p' entity entity'.
Proof.
  intros [Hd Hk] [Hs Hkeys]. split; [exact Hd|].
  rewrite (shouldPreserve_settings p p' _ Hs).
  destruct (snd entity || Pass.shouldPreserve p (fst entity)); auto.
Qed.

(** A loop of the pass, for a body that only moves the state to a later
    one. *)
Lemma for_each_later {A B} (body : A -> M SymbolObfuscationPass B)
    (Q : SymbolObfuscationPass -> A -> B -> Prop) :
  (forall x p o p', body x p = (o, p') ->
     Laws.later p p' /\ match o with Ok y => Q p' x y | _ => True end) ->
  (forall x y p p', Q p x y -> Laws.later p p' -> Q p' x y) ->
  forall (l : list A) (p p' : SymbolObfuscationPass) (o : outcome (list B)),
    Pass.for_each body l p = (o, p') ->
    Laws.later p p'
    /\ match o with Ok ys => List.Forall2 (Q p') l ys | _ => True end.
Proof.
  intros Hbody Hstable. induction l as [|x l IH]; intros p p' o.
  - intros [= <- <-]. split; [apply later_refl | constructor].
  - cbn [Pass.for_each]. unfold bind at 1.
    destruct (body x p) as [r p1] eqn:E1. apply Hbody in E1 as [L1 Q1].
    destruct r as [y| |]; [|intros [= <- <-]; now split..].
    unfold bind, ret.
    destruct (Pass.for_each body l p1) as [rs p2] eqn:E2. apply IH in E2 as [L2 Q2].
    destruct rs as [ys| |]; intros [= <- <-];
      (split; [eapply later_trans; eassumption|]); [|exact I..].
    constructor; [|exact Q2]. eapply Hstable; eassumption.
Qed.

Lemma alias_later (name : string) (p p' : SymbolObfuscationPass) (o : outcome string) :
  (if Pass.shouldPreserve p name then (Ok name, p)
   else (let! obfuscated_name := Pass.unique_name ssl name "a_" in
         let! _ := modify (Pass.record_mapping name obfuscated_name) in
         ret obfuscated_name) p) = (o, p') ->
  Laws.later p p'
  /\ match o with Ok name' => Laws.alias_kept_or_mapped p' p' name name' | _ => True end.
Proof.
  unfold Laws.alias_kept_or_mapped.
  destruct (Pass.shouldPreserve p name) eqn:Hp.
  { intros [= <- <-]. split; [apply later_refl|]. now rewrite Hp. }
  unfold bind, modify, ret.
  destruct (Pass.unique_name ssl name "a_" p) as [r p1] eqn:E.
  apply unique_name_later in E.
  destruct r as [obfuscated| |]; intros [= <- <-]; [|now split..].
  destruct (later_record_mapping name obfuscated p1) as [Hl Hk].
  split; [eapply later_trans; eassumption|].
  rewrite (shouldPreserve_settings p (Pass.record_mapping name obfuscated p1)), Hp.
  - rewrite Hk. eauto.
  - apply (later_trans p p1 _ E Hl).
Qed.

Lemma obfuscateFunctions_later (fs : list (string * bool)) (p p' : SymbolObfuscationPass)
    (o : outcome (list (string * bool))) :
  Pass.obfuscateFunctions ssl cxa_demangle fs p = (o, p') ->
  Laws.later p p'
  /\ match o with
     | Ok fs' => List.Forall2 (Laws.kept_or_mapped p' p') fs fs'
     | _ => True
     end.
Proof.
  unfold Pass.obfuscateFunctions.
  apply (for_each_later _ (fun p => Laws.kept_or_mapped p p)).
  - intros x q o' q'. apply rename_with_later. apply obfuscateFunctionName_later.
  - intros x y q q'. apply kept_or_mapped_later.
Qed.

Lemma obfuscateGlobalVariables_later (gs : list (string * bool))
    (p p' : SymbolObfuscationPass) (o : outcome (list (string * bool))) :
  Pass.obfuscateGlobalVariables ssl cxa_demangle gs p = (o, p') ->
  Laws.later p p'
  /\ match o with
     | Ok gs' => List.Forall2 (Laws.kept_or_mapped p' p') gs gs'
     | _ => True
     end.
Proof.
  unfold Pass.obfuscateGlobalVariables.
  apply (for_each_later _ (fun p => Laws.kept_or_mapped p p)).
  - intros x q o' q'. apply rename_with_later. apply obfuscateGlobalName_later.
  - intros x y q q'. apply kept_or_mapped_later.
Qed.

Lemma obfuscateAliases_later (als : list string) (p p' : SymbolObfuscationPass)
    (o : outcome (list string)) :
  Pass.obfuscateAliases ssl als p = (o, p') ->
  Laws.later p p'
  /\ match o with
     | Ok als' => List.Forall2 (Laws.alias_kept_or_mapped p' p') als als'
     | _ => True
     end.
Proof.
  unfold Pass.obfuscateAliases.
  apply (for_each_later _ (fun p => Laws.alias_kept_or_mapped p p)).
  - intros x q o' q'. apply alias_later.
  - intros x y q q' Hq [Hs Hkeys]. unfold Laws.alias_kept_or_mapped in *.
    rewrite (shouldPreserve_settings q q' _ Hs).
    destruct (Pass.shouldPreserve q x); auto.
Qed.

End PassFrame.

Section PassRun.
Variable ssl : OpenSSL.
Variable cxa_demangle : string -> option string.

(** The state after the first step of [run]. *)
Local Abbreviation salted m p :=
  (if Str.empty (salt_ p) then Pass.with_salt (Pass.generateModuleSalt ssl m) p else p).

Lemma run_later (m : Module_) (p p' : SymbolObfuscationPass)
    (o : outcome (Module_ * option Json)) :
  Pass.run ssl cxa_demangle m p = (o, p') ->
  Laws.later (salted m p) p'
  /\ match o with
     | Ok (m', document) =>
         module_name m' = module_name m /\ source_file_name m' = source_file_name m
         /\ List.Forall2 (Laws.kept_or_mapped p' p') (functions m) (functions m')
         /\ (if obfuscate_globals_ p'
             then List.Forall2 (Laws.kept_or_mapped p' p') (globals m) (globals m')
             else globals m' = globals m)
         /\ List.Forall2 (Laws.alias_kept_or_mapped p' p') (aliases m) (aliases m')
         /\ document = (if generate_map_ p' then Some (Pass.saveMapping p') else None)
     | _ => True
     end.
Proof.
  unfold Pass.run. unfold bind at 1. unfold modify at 1.
  set (p0 := salted m p).
  unfold bind at 1.
  destruct (Pass.obfuscateFunctions ssl cxa_demangle (functions m) p0) as [r1 p1] eqn:E1.
  apply obfuscateFunctions_later in E1 as [L1 Q1].
  destruct r1 as [fs| |]; [|intros [= <- <-]; now split..].
  unfold bind at 1. unfold gets at 1. unfold bind at 1.
  destruct ((if obfuscate_globals_ p1
             then Pass.obfuscateGlobalVariables ssl cxa_demangle (globals m)
             else ret (globals m)) p1) as [r2 p2] eqn:E2.
  assert (Hglobals :
    Laws.later p1 p2
    /\ match r2 with
       | Ok gs => if obfuscate_globals_ p1
                  then List.Forall2 (Laws.kept_or_mapped p2 p2) (globals m) gs
                  else gs = globals m
       | _ => True
       end).
  { revert E2. destruct (obfuscate_globals_ p1).
    - apply obfuscateGlobalVariables_later.
    - intros [= <- <-]. split; [apply later_refl | reflexivity]. }
  destruct Hglobals as [L2 Q2]. clear E2.
  destruct r2 as [gs| |];
    [|intros [= <- <-]; (split; [eapply later_trans; eassumption | exact I])..].
  unfold bind at 1.
  destruct (Pass.obfuscateAliases ssl (aliases m) p2) as [r3 p3] eqn:E3.
  apply obfuscateAliases_later in E3 as [L3 Q3].
  assert (L03 : Laws.later p0 p3) by (eapply later_trans; [eapply later_trans|]; eassumption).
  destruct r3 as [als| |]; [|intros [= <- <-]; (split; [exact L03 | exact I])..].
  unfold bind, gets, ret. intros [= <- <-].
  split; [exact L03|]. cbn [module_name source_file_name functions globals aliases].
  assert (L13 : Laws.later p1 p3) by (eapply later_trans; eassumption).
  assert (Hg : obfuscate_globals_ p3 = obfuscate_globals_ p1).
  { destruct L13 as [Hs _]. unfold Laws.settings in Hs. now injection Hs. }
  split; [reflexivity|]. split; [reflexivity|].
  split; [|split; [|split; [exact Q3 | reflexivity]]].
  - eapply Forall2_impl; [exact Q1|]. intros x y Hxy.
    now apply (kept_or_mapped_later p1 p3).
  - rewrite Hg. destruct (obfuscate_globals_ p1); [|exact Q2].
    eapply Forall2_impl; [exact Q2|]. intros x y Hxy.
    now apply (kept_or_mapped_later p2 p3).
Qed.

Lemma salted_settings (m : Module_) (p : SymbolObfuscationPass) :
  (forall name, Pass.shouldPreserve (salted m p) name = Pass.shouldPreserve p name)
  /\ pass_mapping_ (salted m p) = pass_mapping_ p
  /\ obfuscate_globals_ (salted m p) = obfuscate_globals_ p
  /\ generate_map_ (salted m p) = generate_map_ p.
Proof. destruct (Str.empty (salt_ p)); now repeat split. Qed.

End PassRun.

(** X22. What a run of the pass keeps. A run that returns leaves the
    module name and the source file name alone. Among the functions and
    the global variables, a declaration keeps its name, and so does
    every definition [shouldPreserve] accepts; every other definition is
    a key of [mapping_] afterwards. The same holds for the aliases. With
    [obfuscate_globals_] off, the global variables are not touched. The
    lists keep their lengths and their order. *)
Theorem run_keeps_declarations_and_preserved (ssl : OpenSSL)
    (cxa_demangle : string -> option string) (m m' : Module_) (document : option Json)
    (p p' : SymbolObfuscationPass) :
  Pass.run ssl cxa_demangle m p = (Ok (m', document), p') ->
  module_name m' = module_name m /\ source_file_name m' = source_file_name m
  /\ List.Forall2 (Laws.kept_or_mapped p p') (functions m) (functions m')
  /\ (if obfuscate_globals_ p
      then List.Forall2 (Laws.kept_or_mapped p p') (globals m) (globals m')
      else globals m' = globals m)
  /\ List.Forall2 (Laws.alias_kept_or_mapped p p') (aliases m) (aliases m').
Proof.
  intros Hrun. apply run_later in Hrun as [[Hs Hkeys] (H1 & H2 & H3 & H4 & H5 & _)].
  destruct (salted_settings ssl m p) as (Hp & _ & Hg & _).
  assert (Hsame : forall name, Pass.shouldPreserve p' name = Pass.shouldPreserve p name).
  { intros name. rewrite (shouldPreserve_settings _ p' name Hs). apply Hp. }
  assert (Hglob : obfuscate_globals_ p' = obfuscate_globals_ p).
  { unfold Laws.settings in Hs. injection Hs as _ _ Hgl _ _ _ _ _. congruence. }
  assert (Hkept : forall e e', Laws.kept_or_mapped p' p' e e' -> Laws.kept_or_mapped p p' e e').
  { intros e e' [Hd Hk]. split; [exact Hd|]. now rewrite <- Hsame. }
  split; [exact H1|]. split; [exact H2|]. split; [|split].
  - eapply Forall2_impl; [exact H3 | exact Hkept].
  - rewrite <- Hglob. destruct (obfuscate_globals_ p'); [|exact H4].
    eapply Forall2_impl; [exact H4 | exact Hkept].
  - eapply Forall2_impl; [exact H5|]. intros a a'. unfold Laws.alias_kept_or_mapped.
    now rewrite Hsame.
Qed.

Lemma run_keeps_declarations_and_preserved_witness :
  let m := {| module_name := "unit"; source_file_name := "unit.c";
              functions := [("printf", true); ("main", false); ("helper", false)];
              globals := [("counter", false)]; aliases := [] |} in
  let p := Pass.new "k" in
  let run := Pass.run zero_ssl Spec.rejecting_demangle m p in
  List.Forall2 (Laws.kept_or_mapped p (snd run))
    [("printf", true); ("main", false); ("helper", false)]
    [("printf", true); ("main", false); ("f_000000000000", false)].
Proof.
  intros m p run.
  refine (proj1 (proj2 (proj2
            (run_keeps_declarations_and_preserved zero_ssl Spec.rejecting_demangle m
               {| module_name := "unit"; source_file_name := "unit.c";
                  functions := [("printf", true); ("main", false);
                                ("f_000000000000", false)];
                  globals := [("v_000000000000", false)]; aliases := [] |}
               (match fst run with Ok (_, document) => document | _ => None end)
               p (snd run) _)))).
  vm_compute. reflexivity.
Defined.

(** X23. The salt of a run. When the salt of the pass and the salt of
    its hasher agree, as after the constructor, they agree after [run],
    whatever its outcome. An empty salt is replaced in the first step
    by the module salt, twelve hexadecimal digits, so the names of a run
    are never hashed with an empty salt; a salt that was given is kept.
    The mapping document carries that salt. *)
Theorem run_salt (ssl : OpenSSL) (cxa_demangle : string -> option string) (m : Module_)
    (p p' : SymbolObfuscationPass) (o : outcome (Module_ * option Json)) :
  salt_ p = global_salt (config_ (pass_hasher_ p)) ->
  Pass.run ssl cxa_demangle m p = (o, p') ->
  salt_ p' = (if Str.empty (salt_ p) then Pass.generateModuleSalt ssl m else salt_ p)
  /\ global_salt (config_ (pass_hasher_ p')) = salt_ p'
  /\ Str.empty (salt_ p') = false
  /\ Spec.hex_of_length 12 (Pass.generateModuleSalt ssl m)
  /\ (forall m' document, o = Ok (m', Some document) ->
        JsonValue.member "salt" document = Ok (JString (salt_ p'))).
Proof.
  intros Hsalt Hrun. apply run_later in Hrun as [[Hs _] Hok].
  assert (Hhex : Spec.hex_of_length 12 (Pass.generateModuleSalt ssl m)).
  { unfold Pass.generateModuleSalt. split; [|apply generateHash_hex].
    rewrite generateHash_length. reflexivity. }
  unfold Laws.settings in Hs. injection Hs as _ _ _ _ _ Hs1 Hs2 _.
  assert (H1 : salt_ p'
               = if Str.empty (salt_ p) then Pass.generateModuleSalt ssl m else salt_ p).
  { rewrite Hs1. now destruct (Str.empty (salt_ p)). }
  assert (H2 : global_salt (config_ (pass_hasher_ p')) = salt_ p').
  { rewrite Hs1, Hs2. destruct (Str.empty (salt_ p)); [reflexivity | now symmetry]. }
  split; [exact H1|]. split; [exact H2|]. split; [|split; [exact Hhex|]].
  - rewrite H1. destruct (Str.empty (salt_ p)) eqn:E; [|exact E].
    destruct Hhex as [Hl _]. destruct (Pass.generateModuleSalt ssl m); [discriminate Hl|].
    reflexivity.
  - intros m' document ->. destruct Hok as (_ & _ & _ & _ & _ & Hdoc).
    destruct (generate_map_ p'); [|discriminate Hdoc].
    injection Hdoc as ->. reflexivity.
Qed.

Lemma run_salt_witness :
  let m := {| module_name := "unit"; source_file_name := "unit.c";
              functions := [("helper", false)]; globals := []; aliases := [] |} in
  let run := Pass.run zero_ssl Spec.rejecting_demangle m (Pass.new "") in
  salt_ (snd run) = Pass.generateModuleSalt zero_ssl m
  /\ global_salt (config_ (pass_hasher_ (snd run))) = salt_ (snd run)
  /\ Str.empty (salt_ (snd run)) = false.
Proof.
  intros m run.
  destruct (run_salt zero_ssl Spec.rejecting_demangle m (Pass.new "") (snd run) (fst run))
    as (H1 & H2 & H3 & _).
  - reflexivity.
  - vm_compute. reflexivity.
  - exact (conj H1 (conj H2 H3)).
Defined.

(** X24. The system names of the pass. A name that begins with two
    underscores is preserved whatever the switches and the preserve set
    are, and so is a name that begins with "llvm.". The test for the
    prefix "__cxa" in [isSystemSymbol] never decides: a name it accepts
    has been accepted by the test for two underscores before it. A name
    of the standard-library list is preserved iff [preserve_stdlib_] is
    on or the name is in the preserve set. *)
Theorem pass_system_names (p : SymbolObfuscationPass) (name : string) :
  ((exists rest, name = "__" +:+ rest) -> Pass.shouldPreserve p name = true)
  /\ ((exists rest, name = "llvm." +:+ rest) -> Pass.shouldPreserve p name = true)
  /\ (String.eqb (Str.substr name 0 5) "__cxa" = true ->
      (2 <=? String.length name)%nat
      && CppDemangler.char_is name 0 "_" && CppDemangler.char_is name 1 "_" = true)
  /\ (name ∈ Pass.stdlib_funcs ->
      Pass.shouldPreserve p name
      = bool_decide (name ∈ preserve_symbols_ p) || preserve_stdlib_ p).
Proof.
  split; [|split; [|split]].
  - intros [rest ->]. unfold Pass.shouldPreserve, Pass.isSystemSymbol.
    destruct (bool_decide _); [reflexivity|].
    destruct (preserve_main_ p && _); reflexivity.
  - intros [rest ->]. unfold Pass.shouldPreserve.
    assert (E : Str.substr ("llvm." +:+ rest) 0 5 = "llvm.")
      by exact (substring_0_append "llvm." rest).
    rewrite E.
    destruct (bool_decide _); [reflexivity|].
    destruct (preserve_main_ p && _); [reflexivity|].
    destruct (Pass.isSystemSymbol p _); reflexivity.
  - intros E. apply String.eqb_eq in E.
    assert (Hlen : (5 <= String.length name)%nat).
    { pose proof (length_substring_0 name 5) as Hl. unfold Str.substr in E.
      rewrite E in Hl. change (String.length "__cxa") with 5%nat in Hl. lia. }
    destruct name as [|c0 [|c1 name]]; cbn [String.length] in Hlen; try lia.
    unfold Str.substr in E. cbn [String.substring] in E.
    injection E as -> -> _. reflexivity.
  - intros Hin. apply elem_of_elements in Hin.
    let l := eval vm_compute in (elements Pass.stdlib_funcs) in
    change (elements Pass.stdlib_funcs) with l in Hin.
    unfold Pass.shouldPreserve, Pass.isSystemSymbol.
    repeat (apply elem_of_cons in Hin as [->|Hin];
            [destruct (bool_decide _), (preserve_main_ p), (preserve_stdlib_ p);
             vm_compute; reflexivity|]).
    inversion Hin.
Qed.

Lemma pass_system_names_witness :
  Pass.shouldPreserve (Pass.setPreserveMain false (Pass.new "k")) "__stack_chk_fail" = true.
Proof.
  apply (proj1 (pass_system_names (Pass.setPreserveMain false (Pass.new "k"))
                  "__stack_chk_fail")).
  exists "stack_chk_fail". reflexivity.
Defined.

(** ** The IR pass: names that do not go through the codec *)

Section PassFlat.
Variable ssl : OpenSSL.
Variable cxa_demangle : string -> option string.

Lemma unique_name_inv (original_name prefix r : string) (p p' : SymbolObfuscationPass) :
  Pass.unique_name ssl original_name prefix p = (Ok r, p') ->
  (r ∉ used_hashes_ (pass_hasher_ p))
  /\ used_hashes_ (pass_hasher_ p') = {[r]} ∪ used_hashes_ (pass_hasher_ p)
  /\ pass_mapping_ p' = pass_mapping_ p.
Proof.
  unfold Pass.unique_name.
  destruct (Hasher.generateUniqueHash ssl original_name (pass_used_names_ p) prefix
              (pass_hasher_ p)) as [o h'] eqn:E.
  apply unique_inv in E.
  destruct o as [[name used]| |]; intros [= <- <-].
  destruct E as (_ & _ & Hfresh & _ & Hused & _). now repeat split.
Qed.

(** Entering a fresh name keeps the mapping injective. *)
Lemma record_fresh (original_name prefix r : string) (p p1 : SymbolObfuscationPass) :
  Laws.mapping_injective p ->
  Pass.unique_name ssl original_name prefix p = (Ok r, p1) ->
  Laws.mapping_injective (Pass.record_mapping original_name r p1).
Proof.
  intros [Hused Hinj] Hrun. apply unique_name_inv in Hrun as (Hfresh & Hu & Hmap).
  split; cbn [Pass.record_mapping pass_mapping_ pass_hasher_]; rewrite Hmap.
  - intros k v Hk. rewrite Hu.
    apply lookup_insert_Some in Hk as [[_ <-]|[_ Hk]].
    + apply elem_of_union_l, elem_of_singleton. reflexivity.
    + apply elem_of_union_r. eapply Hused, Hk.
  - intros k1 k2 v H1 H2.
    apply lookup_insert_Some in H1 as [[<- <-]|[Hne1 H1]];
      apply lookup_insert_Some in H2 as [[E2 E2']|[Hne2 H2]].
    + exact E2.
    + exfalso. apply Hfresh. eapply Hused, H2.
    + subst v. exfalso. apply Hfresh. eapply Hused, H1.
    + eapply Hinj; eassumption.
Qed.

Lemma for_each_invariant {A B} (body : A -> M SymbolObfuscationPass B)
    (I : SymbolObfuscationPass -> Prop) (P : A -> Prop) :
  (forall x p y p', P x -> I p -> body x p = (Ok y, p') -> I p') ->
  forall (l : list A) (p p' : SymbolObfuscationPass) (ys : list B),
    List.Forall P l -> I p -> Pass.for_each body l p = (Ok ys, p') -> I p'.
Proof.
  intros Hbody. induction l as [|x l IH]; intros p p' ys Hall Hp.
  - now intros [= <- <-].
  - apply Forall_cons in Hall as [Hx Hall].
    cbn [Pass.for_each]. unfold bind at 1.
    destruct (body x p) as [[y| |] p1] eqn:E1; [|discriminate..].
    unfold bind, ret.
    destruct (Pass.for_each body l p1) as [[ys1| |] p2] eqn:E2; [|discriminate..].
    intros [= <- <-]. eapply IH; [exact Hall | | exact E2].
    eapply Hbody; eassumption.
Qed.

Lemma rename_with_flat (prefix : string)
    (obfuscate : string -> M SymbolObfuscationPass string)
    (entity entity' : string * bool) (p p' : SymbolObfuscationPass) :
  (forall name, Pass.isCppMangled name = false ->
                obfuscate name = Pass.unique_name ssl name prefix) ->
  Pass.isCppMangled (fst entity) = false ->
  Laws.mapping_injective p ->
  Pass.rename_with obfuscate entity p = (Ok entity', p') ->
  Laws.mapping_injective p'.
Proof.
  intros Hobf Hflat Hp. destruct entity as [name declaration]. unfold Pass.rename_with.
  destruct declaration; [now intros [= <- <-]|].
  destruct (Pass.shouldPreserve p name); [now intros [= <- <-]|].
  rewrite (Hobf name Hflat). unfold bind, modify, ret.
  destruct (Pass.unique_name ssl name prefix p) as [[r| |] p1] eqn:E; [|discriminate..].
  intros [= <- <-]. eapply record_fresh; eassumption.
Qed.

End PassFlat.

(** X25. Names that do not go through the codec are renamed
    injectively. In a run on a module none of whose functions and global
    variables has a mangled name, started with an empty [mapping_], no
    two original names are mapped to the same obfuscated name, and every
    obfuscated name is one the hasher has recorded as used. (Aliases
    never go through the codec.) *)
Theorem run_injective_on_unmangled_names (ssl : OpenSSL)
    (cxa_demangle : string -> option string) (m m' : Module_) (document : option Json)
    (p p' : SymbolObfuscationPass) :
  pass_mapping_ p = ∅ ->
  List.Forall (fun entity => Pass.isCppMangled (fst entity) = false)
    (functions m ++ globals m) ->
  Pass.run ssl cxa_demangle m p = (Ok (m', document), p') ->
  (forall k1 k2 v,
     pass_mapping_ p' !! k1 = Some v -> pass_mapping_ p' !! k2 = Some v -> k1 = k2)
  /\ (forall k v, pass_mapping_ p' !! k = Some v -> v ∈ used_hashes_ (pass_hasher_ p')).
Proof.
  intros Hempty Hflat. apply Forall_app in Hflat as [Hfs Hgs].
  unfold Pass.run. unfold bind at 1. unfold modify at 1.
  set (p0 := if Str.empty (salt_ p)
             then Pass.with_salt (Pass.generateModuleSalt ssl m) p else p).
  assert (H0 : Laws.mapping_injective p0).
  { assert (Hm : pass_mapping_ p0 = ∅) by (unfold p0; now destruct (Str.empty (salt_ p))).
    split; intros ?; intros; rewrite Hm, lookup_empty in *; discriminate. }
  unfold bind at 1.
  destruct (Pass.obfuscateFunctions ssl cxa_demangle (functions m) p0)
    as [[fs| |] p1] eqn:E1; [|discriminate..].
  assert (H1 : Laws.mapping_injective p1).
  { revert E1. unfold Pass.obfuscateFunctions.
    apply (for_each_invariant _ Laws.mapping_injective
             (fun entity => Pass.isCppMangled (fst entity) = false)); [|exact Hfs|exact H0].
    intros x q y q' Hx Hq. apply (rename_with_flat ssl "f_"); [|exact Hx|exact Hq].
    intros name Hn. unfold Pass.obfuscateFunctionName. now rewrite Hn. }
  unfold bind at 1. unfold gets at 1. unfold bind at 1.
  destruct ((if obfuscate_globals_ p1
             then Pass.obfuscateGlobalVariables ssl cxa_demangle (globals m)
             else ret (globals m)) p1) as [[gs| |] p2] eqn:E2; [|discriminate..].
  assert (H2 : Laws.mapping_injective p2).
  { revert E2. destruct (obfuscate_globals_ p1); [|now intros [= <- <-]].
    unfold Pass.obfuscateGlobalVariables.
    apply (for_each_invariant _ Laws.mapping_injective
             (fun entity => Pass.isCppMangled (fst entity) = false)); [|exact Hgs|exact H1].
    intros x q y q' Hx Hq. apply (rename_with_flat ssl "v_"); [|exact Hx|exact Hq].
    intros name Hn. unfold Pass.obfuscateGlobalName. now rewrite Hn. }
  unfold bind at 1.
  destruct (Pass.obfuscateAliases ssl (aliases m) p2) as [[als| |] p3] eqn:E3;
    [|discriminate..].
  assert (H3 : Laws.mapping_injective p3).
  { revert E3. unfold Pass.obfuscateAliases.
    apply (for_each_invariant _ Laws.mapping_injective (fun _ => True));
      [|apply List.Forall_forall; auto|exact H2].
    intros x q y q' _ Hq.
    destruct (Pass.shouldPreserve q x); [now intros [= <- <-]|].
    unfold bind, modify, ret.
    destruct (Pass.unique_name ssl x "a_" q) as [[r| |] q1] eqn:E; [|discriminate..].
    intros [= <- <-]. eapply record_fresh; eassumption. }
  unfold bind, gets, ret. intros [= <- <- <-].
  destruct H3 as [Hused Hinj]. split; assumption.
Qed.

Lemma run_injective_on_unmangled_names_witness :
  let m := {| module_name := "unit"; source_file_name := "unit.c";
              functions := [("printf", true); ("main", false); ("helper", false)];
              globals := [("counter", false)]; aliases := ["helper_alias"] |} in
  let p' := snd (Pass.run zero_ssl Spec.rejecting_demangle m (Pass.new "k")) in
  (forall k1 k2 v,
     pass_mapping_ p' !! k1 = Some v -> pass_mapping_ p' !! k2 = Some v -> k1 = k2)
  /\ (forall k v, pass_mapping_ p' !! k = Some v -> v ∈ used_hashes_ (pass_hasher_ p')).
Proof.
  intros m p'.
  refine (run_injective_on_unmangled_names zero_ssl Spec.rejecting_demangle m
            {| module_name := "unit"; source_file_name := "unit.c";
               functions := [("printf", true); ("main", false);
                             ("f_000000000000", false)];
               globals := [("v_000000000000", false)];
               aliases := ["a_000000000000"] |}
            (match fst (Pass.run zero_ssl Spec.rejecting_demangle m (Pass.new "k")) with
             | Ok (_, document) => document
             | _ => None
             end)
            (Pass.new "k") p' _ _ _).
  - reflexivity.
  - repeat constructor.
  - vm_compute. reflexivity.
Defined.

(** ** The mapping store: what [importMapping] leaves behind *)

Lemma and_then_returns {A B} (o : outcome A) (k : A -> outcome B) :
  o <> Diverge -> (forall a, k a <> Diverge) -> and_then o k <> Diverge.
Proof. destruct o; cbn [and_then]; auto; discriminate. Qed.

Lemma asString_returns (v : Json) : JsonValue.asString v <> Diverge.
Proof. destruct v; discriminate. Qed.

Lemma asInt_returns (v : Json) : JsonValue.asInt v <> Diverge.
Proof. destruct v; cbn [JsonValue.asInt]; try discriminate. destruct (_ && _); discriminate. Qed.

Lemma asUInt64_returns (v : Json) : JsonValue.asUInt64 v <> Diverge.
Proof. destruct v; cbn [JsonValue.asUInt64]; try discriminate. destruct (_ && _); discriminate. Qed.

Lemma field_returns {A} (key : string) (convert : Json -> outcome A) (symbol : Json) :
  (forall v, convert v <> Diverge) -> CObfuscator.field key convert symbol <> Diverge.
Proof.
  intros Hc. unfold CObfuscator.field. apply and_then_returns; [|exact Hc].
  destruct symbol; discriminate.
Qed.

(** The conversion of an element returns or throws. *)
Lemma symbol_of_json_returns (symbol : Json) : CObfuscator.symbol_of_json symbol <> Diverge.
Proof.
  unfold CObfuscator.symbol_of_json.
  repeat (apply and_then_returns;
          [apply field_returns;
           first [exact asString_returns | exact asInt_returns | exact asUInt64_returns]
          | intros ?]).
  discriminate.
Qed.

Lemma import_symbols_inv (symbols : list Json) :
  forall (o o' : CSymbolObfuscator) (r : outcome unit),
    CObfuscator.import_symbols symbols o = (r, o') ->
    obf_config_ o' = obf_config_ o /\ hasher_ o' = hasher_ o
    /\ used_names_ o' = used_names_ o
    /\ exists done,
         mappings_ o' = mappings_ o ++ done
         /\ List.Forall2 (fun symbol mapping => CObfuscator.symbol_of_json symbol = Ok mapping)
              (firstn (length done) symbols) done
         /\ (r = Ok tt -> length done = length symbols)
         /\ (r <> Ok tt ->
             exists e, r = Throw e
                       /\ CObfuscator.symbol_of_json (nth (length done) symbols JNull)
                          = Throw e).
Proof.
  induction symbols as [|symbol symbols IH]; intros o o' r; cbn [CObfuscator.import_symbols].
  - intros [= <- <-]. repeat split. exists []. rewrite app_nil_r.
    repeat split; [constructor | congruence].
  - destruct (CObfuscator.symbol_of_json symbol) as [mapping| |] eqn:E.
    + unfold bind, modify. intros Hrest. apply IH in Hrest.
      destruct Hrest as (H1 & H2 & H3 & done & Hm & Hall & Hok & Hfail).
      repeat split; try assumption.
      exists (mapping :: done). cbn [CObfuscator.with_mappings mappings_] in Hm.
      rewrite Hm, <- app_assoc. cbn [length firstn nth].
      repeat split; [constructor; assumption | |exact Hfail].
      intros Hr. now rewrite (Hok Hr).
    + intros [= <- <-]. repeat split. exists []. rewrite app_nil_r.
      repeat split; [constructor | discriminate |].
      intros _. exists e. now split.
    + now apply symbol_of_json_returns in E.
Qed.

(** X26. What [importMapping] leaves behind. It writes [mappings_]
    only: the configuration, the hasher with its set of used names and
    [used_names_] are as before, so the names of an imported mapping are
    not reserved. A file that cannot be parsed gives [runtime_error] and
    changes nothing. Otherwise the old entries are dropped before the
    document is looked at. A document that is a number, a string or an
    array makes the read of "symbols" throw [Json::LogicError], and
    [mappings_] stays empty. A document that is null or an object is
    read: without "symbols" the import succeeds with no entry; with it,
    the elements are converted one by one, and a conversion that throws
    leaves exactly the entries before it, with no way back to the old
    content. An element that is a number, a string or an array makes
    the conversion throw. *)
Theorem importMapping_leaves (file : option Json) (o o' : CSymbolObfuscator)
    (r : outcome unit) :
  CObfuscator.importMapping file o = (r, o') ->
  obf_config_ o' = obf_config_ o /\ hasher_ o' = hasher_ o
  /\ used_names_ o' = used_names_ o
  /\ (file = None -> (exists what, r = Throw (runtime_error what)) /\ o' = o)
  /\ (forall root, file = Some root -> Laws.has_no_members root = true ->
        (exists what, r = Throw (json_logic_error what)) /\ mappings_ o' = [])
  /\ (forall root, file = Some root -> Laws.has_no_members root = false ->
        exists value,
          JsonValue.member "symbols" root = Ok value
          /\ (JsonValue.isMember "symbols" root = false -> r = Ok tt /\ mappings_ o' = [])
          /\ List.Forall2
               (fun symbol mapping => CObfuscator.symbol_of_json symbol = Ok mapping)
               (firstn (length (mappings_ o')) (JsonValue.items_of value)) (mappings_ o')
          /\ (r = Ok tt -> length (mappings_ o') = length (JsonValue.items_of value))
          /\ (r <> Ok tt ->
              exists e, r = Throw e
                        /\ CObfuscator.symbol_of_json
                             (nth (length (mappings_ o')) (JsonValue.items_of value) JNull)
                           = Throw e))
  /\ (forall symbol, Laws.has_no_members symbol = true ->
        exists what, CObfuscator.symbol_of_json symbol = Throw (json_logic_error what)).
Proof.
  intros Hrun.
  assert (Hlast : forall symbol, Laws.has_no_members symbol = true ->
            exists what, CObfuscator.symbol_of_json symbol = Throw (json_logic_error what)).
  { intros symbol Hs. destruct symbol; try discriminate Hs; eexists; reflexivity. }
  destruct file as [root|]; cbn [CObfuscator.importMapping] in Hrun.
  - unfold bind, modify in Hrun.
    destruct (JsonValue.member "symbols" root) as [value|e|] eqn:Hmember.
    + apply import_symbols_inv in Hrun.
      destruct Hrun as (H1 & H2 & H3 & done & Hm & Hall & Hok & Hfail).
      cbn [CObfuscator.with_mappings mappings_ app] in Hm.
      split; [exact H1|]. split; [exact H2|]. split; [exact H3|].
      split; [discriminate|].
      split; [intros root' [= <-] Hroot; destruct root; discriminate|].
      split; [|exact Hlast].
      intros root' [= <-] _. exists value. split; [exact Hmember|]. rewrite Hm.
      split; [|now repeat split].
      intros Hno.
      assert (Hnull : value = JNull).
      { unfold JsonValue.isMember in Hno. unfold JsonValue.member in Hmember.
        destruct root; try congruence.
        destruct (JsonValue.find_member "symbols" members); [discriminate Hno|].
        now injection Hmember as <-. }
      subst value. cbn [JsonValue.items_of length firstn] in *.
      assert (Hne : r <> Ok tt -> False).
      { intros Hne. destruct (Hfail Hne) as (e & -> & He).
        destruct (length done); cbn in He; discriminate He. }
      destruct r as [[]| |]; [|exfalso; apply Hne; discriminate..].
      split; [reflexivity|]. specialize (Hok eq_refl). now destruct done.
    + injection Hrun as <- <-. cbn [CObfuscator.with_mappings obf_config_ hasher_ used_names_ mappings_].
      split; [reflexivity|]. split; [reflexivity|]. split; [reflexivity|].
      split; [discriminate|].
      split; [|split; [|exact Hlast]].
      * intros root' [= <-] _. split; [|reflexivity].
        destruct root; cbn in Hmember; try discriminate Hmember;
          injection Hmember as <-; eexists; reflexivity.
      * intros root' [= <-] Hroot.
        destruct root; cbn in Hmember, Hroot; discriminate.
    + destruct root; cbn in Hmember; discriminate Hmember.
  - injection Hrun as <- <-. repeat split; try discriminate; try exact Hlast. eauto.
Qed.

Lemma importMapping_leaves_witness :
  (exists what,
     fst (CObfuscator.importMapping (Some (JArray [JNumber 1]))
            (CObfuscator.with_mappings [CObfuscator.declared "old" FUNCTION]
               (CObfuscator.new ObfuscationConfig_default)))
     = Throw (json_logic_error what))
  /\ mappings_
       (snd (CObfuscator.importMapping (Some (JArray [JNumber 1]))
               (CObfuscator.with_mappings [CObfuscator.declared "old" FUNCTION]
                  (CObfuscator.new ObfuscationConfig_default)))) = [].
Proof.
  refine (proj1 (proj2 (proj2 (proj2 (proj2
            (importMapping_leaves (Some (JArray [JNumber 1]))
               (CObfuscator.with_mappings [CObfuscator.declared "old" FUNCTION]
                  (CObfuscator.new ObfuscationConfig_default))
               _ _ _))))) (JArray [JNumber 1]) eq_refl eq_refl).
  reflexivity.
Defined.
